(** * Scheduling and orchestration pipeline of social-media-agents

    A shallow embedding of [agents/scheduler/post_scheduler.py] and of the
    cycle logic of [orchestrator.py], with the properties of the
    specification stated and settled against it.

    Conventions.
    - A [datetime] is a point of the proleptic Gregorian time line, counted
      in microseconds from 0001-01-01T00:00:00; a [timedelta] is a signed
      number of microseconds.  [get_optimal_time], [get_bulk_schedule] and
      [get_multi_platform_schedule] compute on this time line without a
      bound; [get_optimal_time_checked], [get_bulk_schedule_checked] and
      [get_multi_platform_schedule_checked] are the same methods with the
      range check of Python's date arithmetic, which raises
      [OverflowError] outside the years 1 to 9999.  What a checked method
      returns, the method on the time line returns too (lemmas
      [get_optimal_time_checked_Ok], [bulk_loop_checked_Ok],
      [multi_loop_checked_Ok]), and with room before [datetime.max] the
      checked method returns.
    - The float returned by [timedelta.total_seconds] is compared as the
      exact number of seconds.
    - Python exceptions are values of [exn]; a call that may raise returns
      a [result].
    - Platform names are ASCII strings; [lower] is [str.lower] on them.
    - The collaborators of the orchestrator (trend scanner, content
      creator, scheduler agent, the operator at the approval prompt) are
      functions of an environment [Env]; the calls made to them are
      recorded in the world, next to the log. *)

From Stdlib Require Import ZArith Lia String Ascii List.
From stdpp Require Import base option list gmap strings sorting.

Local Open Scope Z_scope.

(** ** Exceptions *)

(** [ExternalError] stands for whatever a collaborator raises. *)
Inductive exn : Type :=
  | KeyError (key : string)
  | ValueError (msg : string)
  | IndexError (msg : string)
  | FileNotFoundError (path : string)
  | OverflowError
  | ExternalError (msg : string).

Inductive result (A : Type) : Type :=
  | Ok (a : A)
  | Raise (e : exn).

Arguments Ok {A} a.
Arguments Raise {A} e.

#[global] Instance result_ret : MRet result := λ A a, Ok a.
#[global] Instance result_bind : MBind result := λ A B f m,
  match m with
  | Ok a => f a
  | Raise e => Raise e
  end.

(** the call returns, it does not raise *)
Definition succeeds {A : Type} (r : result A) : Prop := ∃ a, r = Ok a.

(** [d[k]] on a dict *)
Definition getitem {V : Type} (d : gmap string V) (k : string) : result V :=
  match d !! k with
  | Some v => Ok v
  | None => Raise (KeyError k)
  end.

(** ** datetime and timedelta *)

Abbreviation datetime := Z.
Abbreviation timedelta := Z.

(** microseconds in a second, a minute, an hour, a day *)
Definition US_PER_SECOND : Z := 1000000.
Definition US_PER_MINUTE : Z := 60 * US_PER_SECOND.
Definition US_PER_HOUR : Z := 60 * US_PER_MINUTE.
Definition US_PER_DAY : Z := 24 * US_PER_HOUR.

(** [timedelta(days=.., hours=.., minutes=..)] *)
Definition mk_timedelta (days hours minutes : Z) : timedelta :=
  days * US_PER_DAY + hours * US_PER_HOUR + minutes * US_PER_MINUTE.

(** [datetime.weekday()]: 0 is Monday; 0001-01-01 is a Monday. *)
Definition weekday (t : datetime) : Z := (t / US_PER_DAY) mod 7.
(** [datetime.hour] and [datetime.minute] *)
Definition hour (t : datetime) : Z := (t / US_PER_HOUR) mod 24.
Definition minute (t : datetime) : Z := (t / US_PER_MINUTE) mod 60.

(** midnight of the day of [t] *)
Definition date_part (t : datetime) : datetime := (t / US_PER_DAY) * US_PER_DAY.

(** [t.replace(hour=h, minute=m, second=0, microsecond=0)] *)
Definition replace_hm (t : datetime) (h m : Z) : result datetime :=
  if bool_decide (0 ≤ h < 24) then
    if bool_decide (0 ≤ m < 60) then
      Ok (date_part t + h * US_PER_HOUR + m * US_PER_MINUTE)
    else Raise (ValueError "minute must be in 0..59")
  else Raise (ValueError "hour must be in 0..23").

(** [t.replace(second=0, microsecond=0)] *)
Definition replace_s0 (t : datetime) : datetime :=
  (t / US_PER_MINUTE) * US_PER_MINUTE.

(** [timedelta.total_seconds() < secs] for an integer [secs].  The times
    compared in this program are whole minutes, for which the float
    returned by [total_seconds] is exact. *)
Definition total_seconds_lt (d : timedelta) (secs : Z) : bool :=
  d <? secs * US_PER_SECOND.

(** The calendar, as in CPython's [_ymd2ord]; used to write dates. *)
Definition is_leap (y : Z) : bool :=
  (y mod 4 =? 0) && (negb (y mod 100 =? 0) || (y mod 400 =? 0)).

Definition days_before_year (y : Z) : Z :=
  let y := y - 1 in y * 365 + y / 4 - y / 100 + y / 400.

Definition days_before_month (y m : Z) : Z :=
  nth (Z.to_nat m) [0; 0; 31; 59; 90; 120; 151; 181; 212; 243; 273; 304; 334] 0
  + (if (2 <? m) && is_leap y then 1 else 0).

Definition ymd2ord (y m d : Z) : Z :=
  days_before_year y + days_before_month y m + d.

(** [datetime(y, mo, d, h, mi)] *)
Definition mk_datetime (y mo d h mi : Z) : datetime :=
  (ymd2ord y mo d - 1) * US_PER_DAY + h * US_PER_HOUR + mi * US_PER_MINUTE.

(** ** str.lower *)

(** [str.lower] on strings of ASCII characters: the letters A to Z go to
    a to z, every other character stays.  A Python string with other
    characters (U+212A lowers to k) has no counterpart here: statements
    about the names and the answers typed say [ascii_only]. *)
Definition lower_ascii (c : ascii) : ascii :=
  let n := N_of_ascii c in
  if ((65 <=? n) && (n <=? 90))%N then ascii_of_N (n + 32) else c.

Fixpoint lower (s : string) : string :=
  match s with
  | EmptyString => EmptyString
  | String c s' => String (lower_ascii c) (lower s')
  end.

(** ** PostScheduler *)

(** a slot of the weekly table: (day_of_week, hour, minute) *)
Definition slot : Type := Z * Z * Z.

(** the attributes of a [PostScheduler] *)
Record PostScheduler : Type := {
  time_zone : string;
  optimal_times : gmap string (list slot)
}.

(** the three tables of [self.optimal_times] *)
Definition twitter_times : list slot :=
  [ (0, 9, 0); (1, 9, 0); (2, 9, 0); (3, 9, 0); (4, 9, 0);
    (0, 12, 0); (1, 12, 0); (2, 12, 0); (3, 12, 0); (4, 12, 0);
    (0, 17, 0); (1, 17, 0); (2, 17, 0); (3, 17, 0); (4, 17, 0);
    (5, 11, 0); (6, 11, 0) ].

Definition instagram_times : list slot :=
  [ (0, 10, 30); (1, 10, 30); (2, 10, 30); (3, 10, 30); (4, 10, 30);
    (0, 18, 0); (1, 18, 0); (2, 18, 0); (3, 18, 0); (4, 18, 0);
    (5, 11, 0); (5, 19, 0); (6, 11, 0); (6, 19, 0) ].

Definition linkedin_times : list slot :=
  [ (1, 10, 0); (1, 14, 0); (2, 10, 0); (2, 14, 0); (3, 10, 0); (3, 14, 0);
    (0, 11, 0); (4, 11, 0) ].

(** [PostScheduler.__init__] *)
Definition PostScheduler_init (tz : string) : PostScheduler :=
  {| time_zone := tz;
     optimal_times :=
       <["twitter" := twitter_times]>
         (<["instagram" := instagram_times]>
            (<["linkedin" := linkedin_times]> ∅)) |}.

(** order of Python on the tuples (hour, minute) *)
Definition tuple_leb (a b : Z * Z) : bool :=
  (a.1 <? b.1) || ((a.1 =? b.1) && (a.2 <=? b.2)).

Fixpoint insert_sorted (x : Z * Z) (l : list (Z * Z)) : list (Z * Z) :=
  match l with
  | [] => [x]
  | y :: l' => if tuple_leb x y then x :: l else y :: insert_sorted x l'
  end.

(** [list.sort()] on a list of (hour, minute) *)
Definition list_sort (l : list (Z * Z)) : list (Z * Z) :=
  foldr insert_sorted [] l.

(** [[(hour, minute) for day, hour, minute in platform_times if day == target_day]] *)
Definition times_of_day (platform_times : list slot) (target_day : Z) : list (Z * Z) :=
  (λ s : slot, (s.1.2, s.2)) <$> filter (λ s : slot, s.1.1 = target_day) platform_times.

(** the times of [day_times] later than the time of day of [from_time] *)
Definition future_times (from_time : datetime) (day_times : list (Z * Z)) : list (Z * Z) :=
  let current_hour := hour from_time in
  let current_minute := minute from_time in
  filter (λ hm : Z * Z, hm.1 > current_hour ∨ (hm.1 = current_hour ∧ hm.2 > current_minute))
         day_times.

(** [range(n)] *)
Definition range (n : Z) : list Z := Z.of_nat <$> seq 0 (Z.to_nat n).

(** the body of [for day_offset in range(max_days_ahead)], followed by the
    code after the loop when no iteration returns *)
Fixpoint for_day_offset (platform_times : list slot) (from_time : datetime)
    (offsets : list Z) : result datetime :=
  match offsets with
  | [] =>
      let default_time := from_time + mk_timedelta 1 0 0 in
      Ok (replace_s0 default_time)
  | day_offset :: rest =>
      let target_day := (weekday from_time + day_offset) mod 7 in
      let day_times := list_sort (times_of_day platform_times target_day) in
      let day_times :=
        if bool_decide (day_offset = 0) then future_times from_time day_times
        else day_times in
      match day_times with
      | (h, m) :: _ => replace_hm (from_time + mk_timedelta day_offset 0 0) h m
      | [] => for_day_offset platform_times from_time rest
      end
  end.

(** [PostScheduler.get_optimal_time]; [now] is the reading of
    [datetime.now()] *)
Definition get_optimal_time (now : datetime) (self : PostScheduler)
    (platform : string) (from_time : option datetime) (max_days_ahead : Z)
    : result datetime :=
  let platform := lower platform in
  let platform :=
    if bool_decide (is_Some (optimal_times self !! platform)) then platform
    else "twitter"%string in
  let from_time := default now from_time in
  platform_times ← getitem (optimal_times self) platform;
  for_day_offset platform_times from_time (range max_days_ahead).

(** [PostScheduler.get_bulk_schedule]: the loop [for _ in range(count)] *)
Fixpoint bulk_loop (now : datetime) (self : PostScheduler) (platform : string)
    (min_hours_between : Z) (n : nat) (schedule : list datetime)
    (current_time : datetime) : result (list datetime) :=
  match n with
  | O => Ok schedule
  | S n' =>
      next_time ← get_optimal_time now self platform (Some current_time) 7;
      let next_time :=
        match last schedule with
        | Some prev =>
            if total_seconds_lt (next_time - prev) (min_hours_between * 3600)
            then prev + mk_timedelta 0 min_hours_between 0
            else next_time
        | None => next_time
        end in
      bulk_loop now self platform min_hours_between n'
        (schedule ++ [next_time]) (next_time + mk_timedelta 0 0 1)
  end.

(** [PostScheduler.get_bulk_schedule] *)
Definition get_bulk_schedule (now : datetime) (self : PostScheduler)
    (platform : string) (count : Z) (from_time : option datetime)
    (min_hours_between : Z) : result (list datetime) :=
  let from_time := default now from_time in
  bulk_loop now self platform min_hours_between (Z.to_nat count) [] from_time.

(** [PostScheduler.get_multi_platform_schedule]: the loop over [platforms] *)
Fixpoint multi_loop (now : datetime) (self : PostScheduler)
    (stagger_minutes : Z) (platforms : list string)
    (schedule : gmap string datetime) (current_time : datetime)
    : result (gmap string datetime) :=
  match platforms with
  | [] => Ok schedule
  | platform :: rest =>
      next_time ← get_optimal_time now self platform (Some current_time) 7;
      let schedule := <[platform := next_time]> schedule in
      let current_time :=
        Z.max (current_time + mk_timedelta 0 0 stagger_minutes)
              (next_time + mk_timedelta 0 0 stagger_minutes) in
      multi_loop now self stagger_minutes rest schedule current_time
  end.

(** [PostScheduler.get_multi_platform_schedule] *)
Definition get_multi_platform_schedule (now : datetime) (self : PostScheduler)
    (platforms : list string) (from_time : option datetime)
    (stagger_minutes : Z) : result (gmap string datetime) :=
  let from_time := default now from_time in
  multi_loop now self stagger_minutes platforms ∅ from_time.

(** ** Orchestrator *)

(** an entry of the content pool; a dict without the key 'used' counts as
    unused ([c.get('used', False)]) *)
Record ContentItem : Type := {
  id : string;
  payload : string;
  created_at : datetime;
  used : bool;
  scheduled_time : option datetime
}.

(** [content_item['used'] = True] and
    [content_item['scheduled_time'] = posting_time.isoformat()] *)
Definition mark_used (c : ContentItem) (posting_time : datetime) : ContentItem :=
  {| id := id c; payload := payload c; created_at := created_at c;
     used := true; scheduled_time := Some posting_time |}.

(** the levels of the log *)
Inductive level : Type := INFO | WARNING | ERROR.

(** calls that leave the orchestrator *)
Inductive call : Type :=
  | ScanTrends (keywords : list string)
  | GenerateForPlatform (platform : string)
  | RequestApproval (platform post_id : string) (posting_time : datetime)
  | SchedulePost (platform post_id : string) (posting_time : datetime).

(** the configuration set by [Orchestrator.__init__] *)
Record Orchestrator : Type := {
  platforms : list string;
  keywords : list string;
  orchestrator_time_zone : string;
  human_review : bool;
  trend_scan_interval : Z;
  content_creation_interval : Z;
  max_posts_per_day : gmap string Z
}.

(** what a cycle reads and writes: the two time stamps of [self], the
    files of the data directory, the log and the calls made so far *)
Record World : Type := {
  last_trend_scan : option datetime;
  last_content_creation : option datetime;
  trend_report_file : option string;
  content_pool_file : option (gmap string (list ContentItem));
  log : list (level * string);
  calls : list call
}.

(** the collaborators and the surroundings of one cycle: the clock, the
    trend scanner, the content creator, the line typed at the approval
    prompt and the scheduler agent (the 'status' of the dict it returns) *)
Record Env : Type := {
  clock : datetime;
  trend_scanner_scan_trends : list string → result string;
  content_creator_generate_for_platform : string → string → result (option string);
  new_id : string → string;
  input : string → ContentItem → datetime → result string;
  scheduler_schedule_post :
    string → ContentItem → datetime → string → result (option string)
}.

(** Computations of the orchestrator: they read and write the world and
    may raise; what was written before an exception stays written. *)
Definition M (A : Type) : Type := World → result A * World.

Definition ret {A} (a : A) : M A := λ w, (Ok a, w).
Definition raise {A} (e : exn) : M A := λ w, (Raise e, w).
(** [m] then [k]; an exception of [m] skips [k] *)
Definition bind {A B} (m : M A) (k : A → M B) : M B := λ w,
  match m w with
  | (Ok a, w') => k a w'
  | (Raise e, w') => (Raise e, w')
  end.
(** [try: m except Exception as e: handler e] *)
Definition try_except {A} (m : M A) (handler : exn → M A) : M A := λ w,
  match m w with
  | (Ok a, w') => (Ok a, w')
  | (Raise e, w') => handler e w'
  end.
(** a call that does not touch the world *)
Definition lift {A} (r : result A) : M A := λ w, (r, w).

Notation "'let*' x := m 'in' k" := (bind m (λ x, k))
  (at level 10, x name, m at level 100, k at level 200).
Notation "m ;; k" := (bind m (λ _, k)) (at level 100, k at level 200, right associativity).

(** [self.logger.info], [.warning], [.error]; the messages are kept
    without the values formatted into them, the platform aside *)
Definition logger (lv : level) (msg : string) : M unit := λ w,
  (Ok tt, {| last_trend_scan := last_trend_scan w;
             last_content_creation := last_content_creation w;
             trend_report_file := trend_report_file w;
             content_pool_file := content_pool_file w;
             log := log w ++ [(lv, msg)];
             calls := calls w |}).

(** a call leaves the orchestrator *)
Definition record_call (c : call) : M unit := λ w,
  (Ok tt, {| last_trend_scan := last_trend_scan w;
             last_content_creation := last_content_creation w;
             trend_report_file := trend_report_file w;
             content_pool_file := content_pool_file w;
             log := log w;
             calls := calls w ++ [c] |}).

(** [self.last_trend_scan = datetime.now()] *)
Definition set_last_trend_scan (t : datetime) : M unit := λ w,
  (Ok tt, {| last_trend_scan := Some t;
             last_content_creation := last_content_creation w;
             trend_report_file := trend_report_file w;
             content_pool_file := content_pool_file w;
             log := log w;
             calls := calls w |}).

(** [self.last_content_creation = datetime.now()] *)
Definition set_last_content_creation (t : datetime) : M unit := λ w,
  (Ok tt, {| last_trend_scan := last_trend_scan w;
             last_content_creation := Some t;
             trend_report_file := trend_report_file w;
             content_pool_file := content_pool_file w;
             log := log w;
             calls := calls w |}).

(** [json.dump(trends, f)] on the trend report *)
Definition write_trend_report (trends : string) : M unit := λ w,
  (Ok tt, {| last_trend_scan := last_trend_scan w;
             last_content_creation := last_content_creation w;
             trend_report_file := Some trends;
             content_pool_file := content_pool_file w;
             log := log w;
             calls := calls w |}).

(** reading the world *)
Definition get {A} (f : World → A) : M A := λ w, (Ok (f w), w).

(** [Orchestrator._load_content_pool]: an unreadable file gives an empty
    list for each configured platform *)
Definition _load_content_pool (self : Orchestrator)
    : M (gmap string (list ContentItem)) :=
  let* file := get content_pool_file in
  match file with
  | Some content_pool => ret content_pool
  | None =>
      logger ERROR "Error loading content pool";;
      ret (list_to_map ((λ platform, (platform, [])) <$> platforms self))
  end.

(** [Orchestrator._save_content_pool] *)
Definition _save_content_pool (content_pool : gmap string (list ContentItem)) : M unit :=
  λ w,
  (Ok tt, {| last_trend_scan := last_trend_scan w;
             last_content_creation := last_content_creation w;
             trend_report_file := trend_report_file w;
             content_pool_file := Some content_pool;
             log := log w;
             calls := calls w |}).

(** [Orchestrator.scan_trends] *)
Definition scan_trends (self : Orchestrator) (env : Env) : M bool :=
  try_except
    (logger INFO "Starting trend scanning";;
     record_call (ScanTrends (keywords self));;
     let* trends := lift (trend_scanner_scan_trends env (keywords self)) in
     write_trend_report trends;;
     set_last_trend_scan (clock env);;
     logger INFO "Trend report saved";;
     ret true)
    (λ e, logger ERROR "Error scanning trends";; ret false).

(** the body of [for platform in self.platforms] in [create_content] *)
Definition generate_one (env : Env) (trend_data : string) (platform : string)
    (content_pool : gmap string (list ContentItem))
    : M (gmap string (list ContentItem)) :=
  try_except
    (logger INFO ("Generating content for " +:+ platform);;
     record_call (GenerateForPlatform platform);;
     let* content := lift (content_creator_generate_for_platform env platform trend_data) in
     match content with
     | Some text =>
         let content :=
           {| id := new_id env platform; payload := text; created_at := clock env;
              used := false; scheduled_time := None |} in
         let* items := lift (getitem content_pool platform) in
         logger INFO ("Added new content to pool for " +:+ platform);;
         ret (<[platform := items ++ [content]]> content_pool)
     | None =>
         logger WARNING ("Failed to generate content for " +:+ platform);;
         ret content_pool
     end)
    (λ e, logger ERROR ("Error generating content for " +:+ platform);;
          ret content_pool).

(** the loop [for platform in self.platforms] of [create_content] *)
Fixpoint generate_all (env : Env) (trend_data : string) (todo : list string)
    (content_pool : gmap string (list ContentItem))
    : M (gmap string (list ContentItem)) :=
  match todo with
  | [] => ret content_pool
  | platform :: rest =>
      let* content_pool := generate_one env trend_data platform content_pool in
      generate_all env trend_data rest content_pool
  end.

(** [Orchestrator.create_content] *)
Definition create_content (self : Orchestrator) (env : Env) : M bool :=
  try_except
    (logger INFO "Creating content";;
     let* report := get trend_report_file in
     let* scanned :=
       match report with
       | None =>
           logger ERROR "Trend report not found, scanning trends first";;
           scan_trends self env
       | Some _ => ret true
       end in
     if negb scanned then ret false else
     let* report := get trend_report_file in
     let* trend_data :=
       match report with
       | Some trend_data => ret trend_data
       | None => raise (FileNotFoundError "trend_report.json")
       end in
     let* content_pool := _load_content_pool self in
     let* content_pool := generate_all env trend_data (platforms self) content_pool in
     _save_content_pool content_pool;;
     set_last_content_creation (clock env);;
     logger INFO "Content creation completed";;
     ret true)
    (λ e, logger ERROR "Error creating content";; ret false).

(** [str.strip()] on strings of ASCII characters: the white space of
    ASCII is removed at both ends.  ([str.strip] also removes the white
    space of Unicode, such as U+00A0, which a string of this model does
    not hold.) *)
Definition is_space (c : ascii) : bool :=
  let n := N_of_ascii c in
  ((n =? 32) || ((9 <=? n) && (n <=? 13)) || ((28 <=? n) && (n <=? 31)))%N.

Fixpoint lstrip (s : string) : string :=
  match s with
  | EmptyString => EmptyString
  | String c s' => if is_space c then lstrip s' else s
  end.

Fixpoint rstrip (s : string) : string :=
  match s with
  | EmptyString => EmptyString
  | String c s' =>
      match rstrip s' with
      | EmptyString => if is_space c then EmptyString else String c EmptyString
      | r => String c r
      end
  end.

Definition strip (s : string) : string := lstrip (rstrip s).

(** [l[i]] on a list, for an index that is not negative *)
Definition list_getitem {A} (l : list A) (i : Z) : result A :=
  match l !! Z.to_nat i with
  | Some x => Ok x
  | None => Raise (IndexError "list index out of range")
  end.

(** [Orchestrator._request_human_approval] *)
Definition _request_human_approval (env : Env) (platform : string)
    (content : ContentItem) (posting_time : datetime) : M bool :=
  try_except
    (record_call (RequestApproval platform (id content) posting_time);;
     let* line := lift (input env platform content posting_time) in
     let response := strip (lower line) in
     ret (bool_decide (response = "y"%string ∨ response = "yes"%string)))
    (λ e, logger ERROR "Error during human approval";; ret false).

(** [[c for c in items if not c.get('used', False)]].  The list holds
    references to the entries of the pool: each entry comes with its
    position in [items], where a later assignment to it lands. *)
Definition unused_content (items : list ContentItem) : list (nat * ContentItem) :=
  filter (λ ic : nat * ContentItem, used ic.2 = false) (imap (λ i c, (i, c)) items).

(** the first loop of [schedule_posts]: is there unused content? *)
Fixpoint has_content (content_pool : gmap string (list ContentItem))
    (todo : list string) : result bool :=
  match todo with
  | [] => Ok false
  | platform :: rest =>
      items ← getitem content_pool platform;
      match unused_content items with
      | _ :: _ => Ok true
      | [] => has_content content_pool rest
      end
  end.

(** the body of [for i in range(posts_to_schedule)] *)
Definition schedule_item (self : Orchestrator) (env : Env) (platform : string)
    (unused : list (nat * ContentItem)) (posting_times : list datetime) (i : Z)
    (content_pool : gmap string (list ContentItem))
    : M (gmap string (list ContentItem)) :=
  let* entry := lift (list_getitem unused i) in
  let content_item := entry.2 in
  let* posting_time := lift (list_getitem posting_times i) in
  let* approved :=
    if human_review self
    then _request_human_approval env platform content_item posting_time
    else ret true in
  if negb approved then
    logger INFO ("Content was rejected by human review for " +:+ platform);;
    ret content_pool
  else
    logger INFO ("Scheduling post for " +:+ platform);;
    record_call (SchedulePost platform (id content_item) posting_time);;
    let* status :=
      lift (scheduler_schedule_post env platform content_item posting_time
              (id content_item)) in
    if bool_decide (status = Some "scheduled"%string) then
      logger INFO ("Successfully scheduled post for " +:+ platform);;
      ret (alter (alter (λ c, mark_used c posting_time) entry.1) platform content_pool)
    else
      logger ERROR ("Failed to schedule post for " +:+ platform);;
      ret content_pool.

(** the loop [for i in range(posts_to_schedule)] *)
Fixpoint schedule_items (self : Orchestrator) (env : Env) (platform : string)
    (unused : list (nat * ContentItem)) (posting_times : list datetime)
    (todo : list Z) (content_pool : gmap string (list ContentItem))
    : M (gmap string (list ContentItem)) :=
  match todo with
  | [] => ret content_pool
  | i :: rest =>
      let* content_pool :=
        schedule_item self env platform unused posting_times i content_pool in
      schedule_items self env platform unused posting_times rest content_pool
  end.

(** the body of the second [for platform in self.platforms] *)
Definition schedule_platform (self : Orchestrator) (env : Env) (platform : string)
    (content_pool : gmap string (list ContentItem))
    : M (gmap string (list ContentItem)) :=
  let* items := lift (getitem content_pool platform) in
  let unused := unused_content items in
  match unused with
  | [] =>
      logger WARNING ("No unused content available for " +:+ platform);;
      ret content_pool
  | _ :: _ =>
      let max_posts := default 1 (max_posts_per_day self !! platform) in
      let posts_to_schedule := Z.min (Z.of_nat (length unused)) max_posts in
      let post_scheduler := PostScheduler_init (orchestrator_time_zone self) in
      let* posting_times :=
        lift (get_bulk_schedule (clock env) post_scheduler platform posts_to_schedule
                (Some (clock env + mk_timedelta 0 0 15)) 3) in
      schedule_items self env platform unused posting_times
        (range posts_to_schedule) content_pool
  end.

(** the second loop [for platform in self.platforms] of [schedule_posts] *)
Fixpoint schedule_all (self : Orchestrator) (env : Env) (todo : list string)
    (content_pool : gmap string (list ContentItem))
    : M (gmap string (list ContentItem)) :=
  match todo with
  | [] => ret content_pool
  | platform :: rest =>
      let* content_pool := schedule_platform self env platform content_pool in
      schedule_all self env rest content_pool
  end.

(** [Orchestrator.schedule_posts] *)
Definition schedule_posts (self : Orchestrator) (env : Env) : M bool :=
  try_except
    (logger INFO "Scheduling posts from content pool";;
     let* content_pool := _load_content_pool self in
     let* has := lift (has_content content_pool (platforms self)) in
     let* reloaded :=
       if negb has then
         logger INFO "No unused content available in pool, creating new content";;
         let* created := create_content self env in
         if negb created then ret None
         else let* content_pool := _load_content_pool self in ret (Some content_pool)
       else ret (Some content_pool) in
     match reloaded with
     | None => ret false
     | Some content_pool =>
         let* content_pool := schedule_all self env (platforms self) content_pool in
         _save_content_pool content_pool;;
         logger INFO "Post scheduling completed";;
         ret true
     end)
    (λ e, logger ERROR "Error scheduling posts";; ret false).

(** [last is None or (now - last).total_seconds() > hours * 3600], the
    seconds compared exactly *)
Definition due (now : datetime) (last : option datetime) (hours : Z) : bool :=
  match last with
  | None => true
  | Some t => hours * 3600 * US_PER_SECOND <? now - t
  end.

(** [Orchestrator.run_daily_cycle] *)
Definition run_daily_cycle (self : Orchestrator) (env : Env) : M unit :=
  try_except
    (logger INFO "Starting daily cycle";;
     let* last := get last_trend_scan in
     let* scanned :=
       if due (clock env) last (trend_scan_interval self) then scan_trends self env
       else (logger INFO "Using recent trend data, skipping scan";; ret true) in
     if negb scanned then logger ERROR "Trend scanning failed, aborting cycle" else
     let* last := get last_content_creation in
     let* created :=
       if due (clock env) last (content_creation_interval self)
       then create_content self env
       else (logger INFO "Using recent content creation, skipping generation";; ret true) in
     if negb created then logger ERROR "Content creation failed, aborting cycle" else
     let* scheduled := schedule_posts self env in
     if negb scheduled then logger ERROR "Post scheduling failed" else
     logger INFO "Daily cycle completed successfully")
    (λ e, logger ERROR "Error in daily cycle").

(** successive invocations of [run_daily_cycle], one environment each *)
Fixpoint run_cycles (self : Orchestrator) (envs : list Env) (w : World) : World :=
  match envs with
  | [] => w
  | env :: rest => run_cycles self rest (run_daily_cycle self env w).2
  end.

(** ** Post dispatcher *)

(** Modelled from the spec: the scheduler agent
    (agents/scheduler/scheduler_agent.py) is not among the sources; the
    status of a scheduled post is the one of section 3 of the
    specification. *)
Inductive post_status : Type :=
  pending | approved | rejected | dispatched | retrying | failed.

(** Modelled from the spec: the answer of [PlatformPublisher.publish], of
    section 6 of the specification (the publisher is not among the
    sources). *)
Inductive publish_result : Type :=
  | PublishResult (remote_id : string)
  | TransientExternalError
  | PermanentExternalError.

(** Modelled from the spec: the record [ScheduledPost] of section 3 (the
    scheduler agent is not among the sources). *)
Record ScheduledPost : Type := {
  post_id : string;
  post_platform : string;
  content_ref : string;
  post_scheduled_time : datetime;
  status : post_status;
  attempt_count : nat
}.

(** Modelled from the spec: the state of the post dispatcher of section
    4.4 (the scheduler agent is not among the sources): its two settings,
    the log of scheduled posts keyed by [post_id], and, for the
    statements below, the statuses written to the log and the calls of
    [PlatformPublisher.publish] made, both in order. *)
Record PostDispatcher : Type := {
  dry_run : bool;
  max_retries : nat;
  post_log : gmap string ScheduledPost;
  transitions : list (string * post_status);
  publisher_calls : list (string * string)
}.

(** Modelled from the spec: a new dispatcher, with nothing scheduled. *)
Definition PostDispatcher_init (dry : bool) (retries : nat) : PostDispatcher :=
  {| dry_run := dry; max_retries := retries; post_log := ∅;
     transitions := []; publisher_calls := [] |}.

(** Modelled from the spec: writing a post, with its status, to the log
    of scheduled posts. *)
Definition persist (d : PostDispatcher) (p : ScheduledPost) : PostDispatcher :=
  {| dry_run := dry_run d; max_retries := max_retries d;
     post_log := <[post_id p := p]> (post_log d);
     transitions := transitions d ++ [(post_id p, status p)];
     publisher_calls := publisher_calls d |}.

(** Modelled from the spec: a post with a new status. *)
Definition with_status (p : ScheduledPost) (s : post_status) : ScheduledPost :=
  {| post_id := post_id p; post_platform := post_platform p;
     content_ref := content_ref p; post_scheduled_time := post_scheduled_time p;
     status := s; attempt_count := attempt_count p |}.

(** Modelled from the spec: a post after one more failed attempt. *)
Definition count_attempt (p : ScheduledPost) : ScheduledPost :=
  {| post_id := post_id p; post_platform := post_platform p;
     content_ref := content_ref p; post_scheduled_time := post_scheduled_time p;
     status := retrying; attempt_count := S (attempt_count p) |}.

(** Modelled from the spec: [schedule_post] of section 4.4, "creates a
    ScheduledPost with status=pending and persists it". *)
Definition schedule_post (d : PostDispatcher) (platform content : string)
    (scheduled_time : datetime) (post_id : string) : PostDispatcher :=
  persist d {| post_id := post_id; post_platform := platform; content_ref := content;
               post_scheduled_time := scheduled_time; status := pending;
               attempt_count := 0 |}.

(** Modelled from the spec: the publish call of section 4.4.  In dry-run
    mode it is simulated and succeeds, and the publisher is not called;
    otherwise the call is made, and recorded.  [publisher k] is the answer
    of the publisher to its call number [k]. *)
Definition publish (publisher : nat → string → string → publish_result)
    (d : PostDispatcher) (p : ScheduledPost) : publish_result * PostDispatcher :=
  if dry_run d then (PublishResult "dry_run", d)
  else
    (publisher (length (publisher_calls d)) (post_platform p) (content_ref p),
     {| dry_run := dry_run d; max_retries := max_retries d; post_log := post_log d;
        transitions := transitions d;
        publisher_calls := publisher_calls d ++ [(post_platform p, content_ref p)] |}).

(** Modelled from the spec: the attempts of section 4.4.  Success gives
    [dispatched]; a permanent error gives [failed]; a transient error
    counts an attempt, gives [retrying], and the call is retried until
    [attempt_count = max_retries], after which the post is [failed].
    [budget] bounds the number of retries left. *)
Fixpoint attempt (publisher : nat → string → string → publish_result)
    (budget : nat) (d : PostDispatcher) (p : ScheduledPost) : PostDispatcher :=
  let (outcome, d) := publish publisher d p in
  match outcome with
  | PublishResult _ => persist d (with_status p dispatched)
  | PermanentExternalError => persist d (with_status p failed)
  | TransientExternalError =>
      let p := count_attempt p in
      let d := persist d p in
      match budget with
      | S budget' =>
          if (attempt_count p =? max_retries d)%nat
          then persist d (with_status p failed)
          else attempt publisher budget' d p
      | O => persist d (with_status p failed)
      end
  end.

(** Modelled from the spec: what happens when the scheduled time of the
    post [post_id] arrives (section 4.4): a pending post is published. *)
Definition dispatch (publisher : nat → string → string → publish_result)
    (d : PostDispatcher) (post_id : string) : PostDispatcher :=
  match post_log d !! post_id with
  | Some p =>
      match status p with
      | pending => attempt publisher (max_retries d) d p
      | _ => d
      end
  | None => d
  end.

(** ** Well-formed slot tables *)

Definition wf_slot (s : slot) : Prop := 0 ≤ s.1.2 < 24 ∧ 0 ≤ s.2 < 60.

Definition wf_scheduler (self : PostScheduler) : Prop :=
  is_Some (optimal_times self !! "twitter"%string) ∧
  ∀ k l, optimal_times self !! k = Some l → Forall wf_slot l.

(** ** Predicates of the statements *)

(** [datetime.max], 9999-12-31T23:59:59.999999, and the values of Python's
    [datetime] on the time line *)
Definition datetime_max : datetime := 3652059 * US_PER_DAY - 1.
Definition in_range (t : datetime) : Prop := 0 ≤ t ≤ datetime_max.

(** a time without seconds and microseconds *)
Definition whole_minute (t : datetime) : Prop := t mod US_PER_MINUTE = 0.

(** every consecutive pair of [l] is in order and at least [gap] apart *)
Definition spaced (gap : timedelta) (l : list datetime) : Prop :=
  ∀ (i : nat) a b, l !! i = Some a → l !! S i = Some b → a ≤ b ∧ gap ≤ b - a.

(** any two platforms of [schedule] are at least [gap] apart *)
Definition staggered (gap : timedelta) (schedule : gmap string datetime) : Prop :=
  ∀ p q tp tq, p ≠ q → schedule !! p = Some tp → schedule !! q = Some tq →
    gap ≤ Z.abs (tp - tq).

(** the time [h:m] on the day [d] days after the day of [t] *)
Definition at_day_time (t : datetime) (d h m : Z) : datetime :=
  date_part t + d * US_PER_DAY + h * US_PER_HOUR + m * US_PER_MINUTE.

(** [m] appends to the calls only calls that satisfy [P], and a value it
    returns satisfies [R] *)
Definition emits {A} (m : M A) (P : call → Prop) (R : A → Prop) : Prop :=
  ∀ w, ∃ new, calls (m w).2 = calls w ++ new ∧ Forall P new
              ∧ ∀ a, (m w).1 = Ok a → R a.

(** the calls of the trend scanner and of the content creator *)
Definition is_scan (c : call) : Prop := ∃ k, c = ScanTrends k.
Definition is_generate (c : call) : Prop := ∃ p, c = GenerateForPlatform p.

(** the platform a scheduling call (approval request or schedule_post)
    is about *)
Definition call_platform (c : call) : option string :=
  match c with
  | RequestApproval p _ _ | SchedulePost p _ _ => Some p
  | _ => None
  end.

(** [platform] holds an unused entry in [pool] *)
Definition has_unused (pool : gmap string (list ContentItem)) (platform : string) : Prop :=
  ∃ items (i : nat) c, pool !! platform = Some items ∧ items !! i = Some c ∧ used c = false.

(** [pool'] has no unused entry that [pool] has not *)
Definition no_new_unused (pool pool' : gmap string (list ContentItem)) : Prop :=
  ∀ p, has_unused pool' p → has_unused pool p.

(** [w'] differs from [w] in the log and the calls at most *)
Definition same_data (w w' : World) : Prop :=
  last_trend_scan w' = last_trend_scan w
  ∧ last_content_creation w' = last_content_creation w
  ∧ trend_report_file w' = trend_report_file w
  ∧ content_pool_file w' = content_pool_file w.

(** the scan that precedes generation when no trend report is on file *)
Definition scan_first (self : Orchestrator) (w : World) : list call :=
  match trend_report_file w with
  | Some _ => []
  | None => [ScanTrends (keywords self)]
  end.

(** the line typed at the prompt is an approval *)
Definition approves (env : Env) (platform : string) (content : ContentItem)
    (posting_time : datetime) : Prop :=
  ∃ line, input env platform content posting_time = Ok line
          ∧ (strip (lower line) = "y"%string ∨ strip (lower line) = "yes"%string).

(** the calls of the approval gate *)
Definition is_approval_request (c : call) : Prop :=
  ∃ p i t, c = RequestApproval p i t.

(** [m] leaves the time stamps and the files as they are *)
Definition keeps_data {A} (m : M A) : Prop := ∀ w, same_data w (m w).2.

(** ** Scenarios *)

(** a scheduler whose table for "twitter" has been replaced by [slots] *)
Definition scheduler_with_twitter (slots : list slot) : PostScheduler :=
  {| time_zone := "UTC"; optimal_times := {[ "twitter"%string := slots ]} |}.

(** the slots of the second scenario: Monday 9:00 and Tuesday 9:00 *)
Definition mon_tue_slots : list slot := [(0, 9, 0); (1, 9, 0)].

(** an unused entry of the pool *)
Definition sample_item (i : string) : ContentItem :=
  {| id := i; payload := "text"; created_at := mk_datetime 2023 12 31 8 0;
     used := false; scheduled_time := None |}.

(** the default configuration, for two platforms *)
Definition sample_orchestrator : Orchestrator :=
  {| platforms := ["twitter"; "instagram"]%string;
     keywords := ["astronomy"; "physics"; "space"]%string;
     orchestrator_time_zone := "America/New_York";
     human_review := false;
     trend_scan_interval := 4;
     content_creation_interval := 24;
     max_posts_per_day :=
       <["twitter"%string := 5]> (<["instagram"%string := 2]>
         (<["linkedin"%string := 1]> ∅)) |}.

(** an environment at time [now] in which every collaborator answers, and
    the scheduler agent accepts every post but those of the platforms in
    [failing], for which its call raises *)
Definition sample_env (now : datetime) (failing : list string) : Env :=
  {| clock := now;
     trend_scanner_scan_trends := λ _, Ok "trends"%string;
     content_creator_generate_for_platform := λ _ _, Ok (Some "text"%string);
     new_id := λ platform, (platform +:+ "_1704096000_0a1b2c3d")%string;
     input := λ _ _ _, Ok "y"%string;
     scheduler_schedule_post := λ platform _ _ _,
       if bool_decide (platform ∈ failing)
       then Raise (ExternalError "schedule_post failed")
       else Ok (Some "scheduled"%string) |}.

(** a world one hour after a trend scan and a content creation, with
    [pool] on file *)
Definition sample_world (pool : gmap string (list ContentItem)) : World :=
  {| last_trend_scan := Some (mk_datetime 2024 1 1 7 0);
     last_content_creation := Some (mk_datetime 2024 1 1 7 0);
     trend_report_file := Some "trends"%string;
     content_pool_file := Some pool;
     log := [];
     calls := [] |}.

(** the entries of [platform] in the pool on file *)
Definition pool_on_file (w : World) (platform : string) : option (list ContentItem) :=
  content_pool_file w ≫= λ pool, pool !! platform.

(** pools on file for twitter and instagram *)
Definition pool_twitter_only_content : gmap string (list ContentItem) :=
  <["twitter"%string := [sample_item "a"]]> (<["instagram"%string := []]> ∅).

Definition pool_two_platforms : gmap string (list ContentItem) :=
  <["twitter"%string := [sample_item "a"]]>
    (<["instagram"%string := [sample_item "b"]]> ∅).

(** pools on file written for another list of platforms *)
Definition pool_without_twitter : gmap string (list ContentItem) :=
  <["instagram"%string := [sample_item "b"]]> ∅.

Definition pool_without_instagram : gmap string (list ContentItem) :=
  <["twitter"%string := [sample_item "a"]]> ∅.

(** Monday 2024-01-01, 08:00 and 10:00 *)
Definition monday_8 : datetime := mk_datetime 2024 1 1 8 0.
Definition monday_10 : datetime := mk_datetime 2024 1 1 10 0.


(** ** The planner on the range of Python's datetime *)

(** [t + d] for a datetime and a timedelta, as Python computes it: a sum
    outside the years 1 to 9999 raises [OverflowError].  For [t] in the
    range, a timedelta that cannot be built (more than 999999999 days)
    gives a sum outside the range too, and Python raises the same
    exception for it. *)
Definition datetime_add (t : datetime) (d : timedelta) : result datetime :=
  if bool_decide (in_range (t + d)) then Ok (t + d) else Raise OverflowError.

(** the loop of [get_optimal_time] and the code after it, with the range
    check of the two sums [from_time + timedelta(days=day_offset)] and
    [from_time + timedelta(days=1)]; the first is computed only for a day
    that has a slot *)
Fixpoint for_day_offset_checked (platform_times : list slot) (from_time : datetime)
    (offsets : list Z) : result datetime :=
  match offsets with
  | [] =>
      default_time ← datetime_add from_time (mk_timedelta 1 0 0);
      Ok (replace_s0 default_time)
  | day_offset :: rest =>
      let target_day := (weekday from_time + day_offset) mod 7 in
      let day_times := list_sort (times_of_day platform_times target_day) in
      let day_times :=
        if bool_decide (day_offset = 0) then future_times from_time day_times
        else day_times in
      match day_times with
      | (h, m) :: _ =>
          optimal_time ← datetime_add from_time (mk_timedelta day_offset 0 0);
          replace_hm optimal_time h m
      | [] => for_day_offset_checked platform_times from_time rest
      end
  end.

(** [PostScheduler.get_optimal_time] with the range checks *)
Definition get_optimal_time_checked (now : datetime) (self : PostScheduler)
    (platform : string) (from_time : option datetime) (max_days_ahead : Z)
    : result datetime :=
  let platform := lower platform in
  let platform :=
    if bool_decide (is_Some (optimal_times self !! platform)) then platform
    else "twitter"%string in
  let from_time := default now from_time in
  platform_times ← getitem (optimal_times self) platform;
  for_day_offset_checked platform_times from_time (range max_days_ahead).

(** the loop of [get_bulk_schedule] with the range checks of
    [schedule[-1] + timedelta(hours=min_hours_between)] and
    [next_time + timedelta(minutes=1)] *)
Fixpoint bulk_loop_checked (now : datetime) (self : PostScheduler) (platform : string)
    (min_hours_between : Z) (n : nat) (schedule : list datetime)
    (current_time : datetime) : result (list datetime) :=
  match n with
  | O => Ok schedule
  | S n' =>
      next_time ← get_optimal_time_checked now self platform (Some current_time) 7;
      next_time ←
        match last schedule with
        | Some prev =>
            if total_seconds_lt (next_time - prev) (min_hours_between * 3600)
            then datetime_add prev (mk_timedelta 0 min_hours_between 0)
            else Ok next_time
        | None => Ok next_time
        end;
      current_time ← datetime_add next_time (mk_timedelta 0 0 1);
      bulk_loop_checked now self platform min_hours_between n'
        (schedule ++ [next_time]) current_time
  end.

(** [PostScheduler.get_bulk_schedule] with the range checks *)
Definition get_bulk_schedule_checked (now : datetime) (self : PostScheduler)
    (platform : string) (count : Z) (from_time : option datetime)
    (min_hours_between : Z) : result (list datetime) :=
  let from_time := default now from_time in
  bulk_loop_checked now self platform min_hours_between (Z.to_nat count) [] from_time.

(** the loop of [get_multi_platform_schedule] with the range checks of the
    two arguments of [max] *)
Fixpoint multi_loop_checked (now : datetime) (self : PostScheduler)
    (stagger_minutes : Z) (platforms : list string)
    (schedule : gmap string datetime) (current_time : datetime)
    : result (gmap string datetime) :=
  match platforms with
  | [] => Ok schedule
  | platform :: rest =>
      next_time ← get_optimal_time_checked now self platform (Some current_time) 7;
      let schedule := <[platform := next_time]> schedule in
      staggered_current ← datetime_add current_time (mk_timedelta 0 0 stagger_minutes);
      staggered_next ← datetime_add next_time (mk_timedelta 0 0 stagger_minutes);
      multi_loop_checked now self stagger_minutes rest schedule
        (Z.max staggered_current staggered_next)
  end.

(** [PostScheduler.get_multi_platform_schedule] with the range checks *)
Definition get_multi_platform_schedule_checked (now : datetime) (self : PostScheduler)
    (platforms : list string) (from_time : option datetime)
    (stagger_minutes : Z) : result (gmap string datetime) :=
  let from_time := default now from_time in
  multi_loop_checked now self stagger_minutes platforms ∅ from_time.

(** ** Strings of ASCII characters *)

(** the strings on which [lower] is [str.lower] and [strip] is
    [str.strip]: every character is below 128 *)
Fixpoint ascii_only (s : string) : bool :=
  match s with
  | EmptyString => true
  | String c s' => (N_of_ascii c <? 128)%N && ascii_only s'
  end.
(** ** Further predicates of the planner *)

(** the table [get_optimal_time] reads for [platform]: the one of its
    lower-case name, or the one of "twitter" *)
Definition table_of (self : PostScheduler) (platform : string) : option (list slot) :=
  if bool_decide (is_Some (optimal_times self !! lower platform))
  then optimal_times self !! lower platform
  else optimal_times self !! "twitter"%string.

(** [t] is an occurrence of the weekly slot [s] *)
Definition on_slot (s : slot) (t : datetime) : Prop :=
  weekday t = s.1.1 ∧ hour t = s.1.2 ∧ minute t = s.2 ∧ whole_minute t.

(** Python's order on the tuples (hour, minute), as a relation *)
Definition tuple_le (a b : Z * Z) : Prop := a.1 < b.1 ∨ (a.1 = b.1 ∧ a.2 ≤ b.2).

(** the times of day left at [day_offset] in [get_optimal_time] *)
Definition day_times_at (platform_times : list slot) (from_time : datetime)
    (day_offset : Z) : list (Z * Z) :=
  let day_times :=
    list_sort (times_of_day platform_times ((weekday from_time + day_offset) mod 7)) in
  if bool_decide (day_offset = 0) then future_times from_time day_times else day_times.


(** ** Predicates of the orchestrator's traces *)

(** [m] appends to the calls a list that satisfies [G], and a value it
    returns satisfies [R] *)
Definition runs {A} (m : M A) (G : list call → Prop) (R : A → Prop) : Prop :=
  ∀ w, ∃ new, calls (m w).2 = calls w ++ new ∧ G new
              ∧ ∀ a, (m w).1 = Ok a → R a.

(** the calls of [scheduler.schedule_post] for [platform] *)
Definition is_post_for (platform : string) (c : call) : bool :=
  match c with
  | SchedulePost p _ _ => bool_decide (p = platform)
  | _ => false
  end.

Definition posts_for (platform : string) (l : list call) : nat :=
  length (filter (λ c, is_post_for platform c) l).

(** every call of [scheduler.schedule_post] comes right after the
    approval request for the same entry and time, answered with an
    approval *)
Definition gated (env : Env) (l : list call) : Prop :=
  ∀ (i : nat) p pid t, l !! i = Some (SchedulePost p pid t) →
    ∃ (j : nat) c, i = S j ∧ l !! j = Some (RequestApproval p pid t)
                   ∧ id c = pid ∧ approves env p c t.

(** the posting time of a scheduling call *)
Definition call_time (c : call) : option datetime :=
  match c with
  | RequestApproval _ _ t | SchedulePost _ _ t => Some t
  | _ => None
  end.

(** an orchestrator that asks for approval *)
Definition reviewing_orchestrator : Orchestrator :=
  {| platforms := ["twitter"; "instagram"]%string;
     keywords := ["astronomy"]%string;
     orchestrator_time_zone := "America/New_York";
     human_review := true;
     trend_scan_interval := 4;
     content_creation_interval := 24;
     max_posts_per_day := <["twitter"%string := 5]> (<["instagram"%string := 2]> ∅) |}.

(** ** Predicates of the content pool *)

(** what [create_content] adds for [platform]: the content generated,
    with its time stamp, its id and ['used'] false; nothing when the
    content creator gives no content or raises *)
Definition generated (env : Env) (trend_data : string) (platform : string)
    : list ContentItem :=
  match content_creator_generate_for_platform env platform trend_data with
  | Ok (Some text) =>
      [ {| id := new_id env platform; payload := text; created_at := clock env;
           used := false; scheduled_time := None |} ]
  | _ => []
  end.

(** [c'] is [c], or [c] was unused and [c'] is [c] marked as used for a
    posting time more than fifteen minutes after [now] *)
Definition item_kept (now : datetime) (c c' : ContentItem) : Prop :=
  c' = c ∨ (used c = false
            ∧ ∃ t, now + 15 * US_PER_MINUTE < t ∧ c' = mark_used c t).

(** [pool'] has the keys and the entries of [pool], some of them marked *)
Definition pool_kept (now : datetime) (pool pool' : gmap string (list ContentItem)) : Prop :=
  ∀ p, option_Forall2 (Forall2 (item_kept now)) (pool !! p) (pool' !! p).

(** ** The answer at the approval prompt *)

(** a string of white space only *)
Fixpoint all_space (s : string) : bool :=
  match s with
  | EmptyString => true
  | String c s' => is_space c && all_space s'
  end.

(** ** Orchestrator._init_content_pool *)

Definition _init_content_pool (self : Orchestrator) : M unit :=
  let content_pool : gmap string (list ContentItem) :=
    list_to_map ((λ platform, (platform, [])) <$> platforms self) in
  try_except
    (_save_content_pool content_pool;;
     logger INFO "Initialized empty content pool")
    (λ e, logger ERROR "Error initializing content pool").

(** ** Orchestrator.start *)

(** the methods registered with the [schedule] module *)
Inductive job : Type := RunDailyCycle | ScanTrendsJob.

(** [self.running], the jobs registered with [schedule], each with the
    hour and the minute of [every().day.at], and whether the scheduler
    thread was started *)
Record Service : Type := {
  running : bool;
  jobs : list (Z * Z * job);
  scheduler_thread : bool
}.

(** [range(start, stop, step)] *)
Definition range3 (start stop step : Z) : result (list Z) :=
  if bool_decide (step = 0) then Raise (ValueError "range() arg 3 must not be zero")
  else
    let n := if bool_decide (0 < step)
             then (stop - start + step - 1) / step
             else (start - stop - step - 1) / (- step) in
    Ok ((λ k : nat, start + Z.of_nat k * step) <$> seq 0 (Z.to_nat n)).

(** [Orchestrator.start]: the daily cycle is registered for 08:00 and a
    trend scan for each hour of [range(8, 20, self.trend_scan_interval)],
    then a first cycle is run and the scheduler thread is started *)
Definition start (self : Orchestrator) (env : Env) (s : Service) (w : World)
    : Service * World :=
  if running s then (s, (logger WARNING "Orchestrator already running" w).2)
  else
    let registered := jobs s ++ [(8, 0, RunDailyCycle)] in
    let failed (w' : World) :=
      ({| running := false; jobs := registered; scheduler_thread := scheduler_thread s |},
       (logger ERROR "Error starting orchestrator" w').2) in
    match range3 8 20 (trend_scan_interval self) with
    | Ok hours =>
        let registered := registered ++ ((λ hour, (hour, 0, ScanTrendsJob)) <$> hours) in
        match run_daily_cycle self env w with
        | (Ok _, w') =>
            ({| running := true; jobs := registered; scheduler_thread := true |},
             (logger INFO "Orchestrator started" w').2)
        | (Raise e, w') =>
            ({| running := false; jobs := registered;
                scheduler_thread := scheduler_thread s |},
             (logger ERROR "Error starting orchestrator" w').2)
        end
    | Raise e => failed w
    end.

(** ** The posts planned for a platform *)

(** the calls of [scheduler.schedule_post] that the scheduling step makes
    for [platform] when no review is asked and nothing fails: one for
    each of the first unused entries of the pool, as many as the cap
    allows, at the times of the bulk schedule *)
Definition planned_posts (self : Orchestrator) (env : Env)
    (content_pool : gmap string (list ContentItem)) (platform : string) : list call :=
  match content_pool !! platform with
  | Some items =>
      let unused := unused_content items in
      let max_posts := default 1 (max_posts_per_day self !! platform) in
      let posts_to_schedule := Z.min (Z.of_nat (length unused)) max_posts in
      match get_bulk_schedule (clock env) (PostScheduler_init (orchestrator_time_zone self))
              platform posts_to_schedule (Some (clock env + mk_timedelta 0 0 15)) 3 with
      | Ok posting_times =>
          zip_with (λ entry t, SchedulePost platform (id entry.2) t) unused posting_times
      | Raise _ => []
      end
  | None => []
  end.
(** * Properties of the time slot planner *)

(** ** The calendar and the strings on examples *)

Example monday_2024_01_01 :
  weekday (mk_datetime 2024 1 1 10 0) = 0 ∧ hour (mk_datetime 2024 1 1 10 0) = 10
  ∧ minute (mk_datetime 2024 1 1 10 0) = 0 ∧ ymd2ord 2024 1 1 = 738886.
Proof. done. Qed.

Example friday_9999_12_31 :
  mk_datetime 9999 12 31 23 59 + 59 * US_PER_SECOND + 999999 = datetime_max
  ∧ weekday datetime_max = 4.
Proof. done. Qed.

Example lower_mixed_case : lower "LinkedIn" = "linkedin"%string.
Proof. done. Qed.

Example strip_reply : strip (lower "  YES ") = "yes"%string ∧ strip " " = EmptyString.
Proof. done. Qed.

Section datetime_facts.
Implicit Types t : datetime.

Lemma time_of_day_bounds t :
  date_part t + hour t * US_PER_HOUR + minute t * US_PER_MINUTE ≤ t
  < date_part t + hour t * US_PER_HOUR + minute t * US_PER_MINUTE + US_PER_MINUTE.
Proof.
  unfold date_part, hour, minute, US_PER_DAY, US_PER_HOUR, US_PER_MINUTE, US_PER_SECOND.
  Z.div_mod_to_equations. lia.
Qed.

Lemma hour_range t : 0 ≤ hour t < 24.
Proof. unfold hour. apply Z.mod_pos_bound. lia. Qed.

Lemma minute_range t : 0 ≤ minute t < 60.
Proof. unfold minute. apply Z.mod_pos_bound. lia. Qed.

Lemma date_part_add_days t d :
  date_part (t + mk_timedelta d 0 0) = date_part t + d * US_PER_DAY.
Proof.
  unfold date_part, mk_timedelta.
  replace (t + (d * US_PER_DAY + 0 * US_PER_HOUR + 0 * US_PER_MINUTE))
    with (t + d * US_PER_DAY) by lia.
  rewrite Z.div_add by (unfold US_PER_DAY, US_PER_HOUR, US_PER_MINUTE, US_PER_SECOND; lia).
  lia.
Qed.

Lemma date_part_le t : date_part t ≤ t < date_part t + US_PER_DAY.
Proof.
  unfold date_part, US_PER_DAY, US_PER_HOUR, US_PER_MINUTE, US_PER_SECOND.
  Z.div_mod_to_equations. lia.
Qed.

Lemma replace_s0_bounds t : replace_s0 t ≤ t < replace_s0 t + US_PER_MINUTE.
Proof.
  unfold replace_s0, US_PER_MINUTE, US_PER_SECOND.
  Z.div_mod_to_equations. lia.
Qed.

Lemma replace_hm_ok t h m :
  0 ≤ h < 24 → 0 ≤ m < 60 →
  replace_hm t h m = Ok (date_part t + h * US_PER_HOUR + m * US_PER_MINUTE).
Proof.
  intros Hh Hm. unfold replace_hm.
  rewrite !bool_decide_eq_true_2 by done. done.
Qed.
End datetime_facts.

Section planner_facts.
Implicit Types (t : datetime) (l : list (Z * Z)) (pt : list slot).

Lemma elem_of_insert_sorted x y l : x ∈ insert_sorted y l ↔ x = y ∨ x ∈ l.
Proof.
  induction l as [|z l IH]; simpl.
  - rewrite list_elem_of_singleton, elem_of_nil. tauto.
  - destruct (tuple_leb y z).
    + by rewrite elem_of_cons.
    + rewrite !elem_of_cons, IH. tauto.
Qed.

Lemma elem_of_list_sort x l : x ∈ list_sort l ↔ x ∈ l.
Proof.
  induction l as [|y l IH]; simpl; [done|].
  by rewrite elem_of_insert_sorted, IH, elem_of_cons.
Qed.

Lemma length_insert_sorted y l : length (insert_sorted y l) = S (length l).
Proof.
  induction l as [|z l IH]; simpl; [done|].
  destruct (tuple_leb y z); simpl; congruence.
Qed.

Lemma times_of_day_wf pt day hm :
  Forall wf_slot pt → hm ∈ times_of_day pt day → 0 ≤ hm.1 < 24 ∧ 0 ≤ hm.2 < 60.
Proof.
  intros Hwf Hin. unfold times_of_day in Hin.
  apply list_elem_of_fmap in Hin as (s & -> & Hs).
  apply list_elem_of_filter in Hs as [_ Hs].
  rewrite Forall_forall in Hwf. apply (Hwf s Hs).
Qed.

Lemma range_nonneg n o : o ∈ range n → 0 ≤ o.
Proof.
  unfold range. intros Hin.
  apply list_elem_of_fmap in Hin as (k & -> & _). lia.
Qed.

(** Both exits of the loop give a time after [from_time]: a slot of a
    later day, a later slot of the same day, or the day after. *)
Lemma for_day_offset_later pt t offsets :
  Forall wf_slot pt → (∀ o, o ∈ offsets → 0 ≤ o) →
  ∃ r, for_day_offset pt t offsets = Ok r ∧ t < r.
Proof.
  intros Hwf. induction offsets as [|o rest IH]; intros Hpos; simpl.
  - eexists; split; [done|].
    pose proof (replace_s0_bounds (t + mk_timedelta 1 0 0)) as Hb.
    unfold mk_timedelta, US_PER_DAY, US_PER_HOUR, US_PER_MINUTE, US_PER_SECOND in *. lia.
  - assert (0 ≤ o) as Ho by (apply Hpos, list_elem_of_here).
    destruct (if bool_decide (o = 0) then _ else _) as [|[h m] tl] eqn:Hday.
    { apply IH. intros o' Ho'. by apply Hpos, list_elem_of_further. }
    assert ((h, m) ∈ list_sort (times_of_day pt ((weekday t + o) mod 7)) ∧
            (o = 0 → h > hour t ∨ (h = hour t ∧ m > minute t))) as [Hin Hfut].
    { case_bool_decide as Ho0.
      - assert ((h, m) ∈ future_times t
                  (list_sort (times_of_day pt ((weekday t + o) mod 7)))) as Hin
          by (rewrite Hday; apply list_elem_of_here).
        unfold future_times in Hin.
        apply list_elem_of_filter in Hin as [Hc Hin]. simpl in Hc. done.
      - split; [rewrite Hday; apply list_elem_of_here | done]. }
    apply (proj1 (elem_of_list_sort _ _)) in Hin.
    apply (times_of_day_wf _ _ _ Hwf) in Hin as [Hh Hm]. simpl in Hh, Hm.
    rewrite replace_hm_ok by done. eexists; split; [done|].
    rewrite date_part_add_days.
    pose proof (time_of_day_bounds t) as Hb.
    pose proof (date_part_le t) as Hd.
    pose proof (hour_range t) as Hhr. pose proof (minute_range t) as Hmr.
    unfold US_PER_DAY, US_PER_HOUR, US_PER_MINUTE, US_PER_SECOND in *.
    destruct (decide (o = 0)) as [->|Hne]; [|lia].
    destruct Hfut as [Hgt | [-> Hgt]]; [done| |]; lia.
Qed.

Lemma default_scheduler_wf tz : wf_scheduler (PostScheduler_init tz).
Proof.
  split; [by eexists|]. intros k l. simpl.
  rewrite !lookup_insert. repeat case_decide; intros [= <-] || intros [=];
    repeat (constructor; [unfold wf_slot; simpl; lia|]); constructor.
Qed.

(** A well-formed scheduler answers every request, with a later time. *)
Lemma get_optimal_time_later now self platform from_time max_days_ahead :
  wf_scheduler self →
  ∃ r, get_optimal_time now self platform from_time max_days_ahead = Ok r
       ∧ default now from_time < r.
Proof.
  intros [[tw Htw] Hwf]. unfold get_optimal_time.
  case_bool_decide as Hk.
  - destruct Hk as [pt Hpt]. unfold getitem. rewrite Hpt. simpl.
    apply for_day_offset_later; [by eapply Hwf | apply range_nonneg].
  - unfold getitem. rewrite Htw. simpl.
    apply for_day_offset_later; [by eapply Hwf | apply range_nonneg].
Qed.

(** The answer is at most [max_days_ahead] days (one day at least) after
    [from_time]: for a [from_time] of Python's range that far from
    [datetime.max], the answer and the dates computed on the way are in
    the range too. *)
Lemma for_day_offset_bounded pt t offsets d r :
  Forall wf_slot pt → (∀ o, o ∈ offsets → 0 ≤ o < d) →
  for_day_offset pt t offsets = Ok r → r ≤ t + Z.max 1 d * US_PER_DAY.
Proof.
  intros Hwf. induction offsets as [|o rest IH]; intros Hpos; simpl.
  - intros [= <-]. pose proof (replace_s0_bounds (t + mk_timedelta 1 0 0)) as Hb.
    unfold mk_timedelta, US_PER_DAY, US_PER_HOUR, US_PER_MINUTE, US_PER_SECOND in *. nia.
  - assert (0 ≤ o < d) as Ho by (apply Hpos, list_elem_of_here).
    destruct (if bool_decide (o = 0) then _ else _) as [|[h m] tl] eqn:Hday.
    { apply IH. intros o' Ho'. by apply Hpos, list_elem_of_further. }
    assert ((h, m) ∈ list_sort (times_of_day pt ((weekday t + o) mod 7))) as Hin.
    { case_bool_decide.
      - assert ((h, m) ∈ future_times t
                  (list_sort (times_of_day pt ((weekday t + o) mod 7)))) as Hin
          by (rewrite Hday; apply list_elem_of_here).
        unfold future_times in Hin. by apply list_elem_of_filter in Hin as [_ Hin].
      - rewrite Hday. apply list_elem_of_here. }
    apply (proj1 (elem_of_list_sort _ _)) in Hin.
    apply (times_of_day_wf _ _ _ Hwf) in Hin as [Hh Hm]. simpl in Hh, Hm.
    rewrite replace_hm_ok by done. intros [= <-].
    rewrite date_part_add_days. pose proof (date_part_le t) as Hd.
    unfold US_PER_DAY, US_PER_HOUR, US_PER_MINUTE, US_PER_SECOND in *. nia.
Qed.

Lemma range_bounds n o : o ∈ range n → 0 ≤ o < n.
Proof.
  unfold range. intros Hin.
  apply list_elem_of_fmap in Hin as (k & -> & Hk).
  apply elem_of_seq in Hk. lia.
Qed.

Lemma get_optimal_time_in_range now self platform from_time max_days_ahead r :
  wf_scheduler self →
  get_optimal_time now self platform from_time max_days_ahead = Ok r →
  in_range (default now from_time) →
  in_range (default now from_time + Z.max 1 max_days_ahead * US_PER_DAY) →
  in_range r.
Proof.
  intros Hwf Hr Ht Hmax.
  destruct (get_optimal_time_later now self platform from_time max_days_ahead Hwf)
    as (r' & Hr' & Hlater).
  rewrite Hr in Hr'. injection Hr' as <-.
  assert (r ≤ default now from_time + Z.max 1 max_days_ahead * US_PER_DAY) as Hle.
  { destruct Hwf as [[tw Htw] Hwf]. unfold get_optimal_time, getitem in Hr.
    case_bool_decide as Hk.
    - destruct Hk as [pt Hpt]. rewrite Hpt in Hr. simpl in Hr.
      eapply for_day_offset_bounded; [by eapply Hwf | apply range_bounds | exact Hr].
    - rewrite Htw in Hr. simpl in Hr.
      eapply for_day_offset_bounded; [by eapply Hwf | apply range_bounds | exact Hr]. }
  unfold in_range in *. lia.
Qed.

(** The answer has no seconds and no microseconds. *)
Lemma for_day_offset_whole_minute pt t offsets r :
  for_day_offset pt t offsets = Ok r → whole_minute r.
Proof.
  unfold whole_minute. induction offsets as [|o rest IH]; simpl.
  - intros [= <-]. unfold replace_s0. apply Z_mod_mult.
  - destruct (if bool_decide (o = 0) then _ else _) as [|[h m] tl]; [done|].
    unfold replace_hm. repeat case_bool_decide; intros [= <-].
    unfold date_part.
    replace (_ / US_PER_DAY * US_PER_DAY + h * US_PER_HOUR + m * US_PER_MINUTE)
      with ((((t + mk_timedelta o 0 0) / US_PER_DAY * 24 + h) * 60 + m) * US_PER_MINUTE)
      by (unfold US_PER_DAY, US_PER_HOUR; lia).
    apply Z_mod_mult.
Qed.

Lemma get_optimal_time_whole_minute now self platform from_time max_days_ahead r :
  get_optimal_time now self platform from_time max_days_ahead = Ok r → whole_minute r.
Proof.
  unfold get_optimal_time, getitem.
  destruct (optimal_times self !! _) as [pt|]; [|by intros [=]]. simpl.
  apply for_day_offset_whole_minute.
Qed.
End planner_facts.

(** ** The range of datetime *)

Section checked_planner.
Implicit Types (t r : datetime) (pt : list slot).

Lemma datetime_add_Ok t d r :
  datetime_add t d = Ok r ↔ r = t + d ∧ in_range (t + d).
Proof.
  unfold datetime_add. case_bool_decide as Hr.
  - split; [by intros [= <-] | by intros [-> _]].
  - split; [by intros [=] | by intros [_ ?]].
Qed.

(** the last microsecond of a day, and of a minute, is [datetime_max] at
    most when the day, and the minute, starts in the range *)
Lemma in_range_of_day t h m :
  0 ≤ t → 0 ≤ h < 24 → 0 ≤ m < 60 →
  date_part t + h * US_PER_HOUR + m * US_PER_MINUTE ≤ datetime_max → in_range t.
Proof.
  unfold in_range, date_part, datetime_max. intros Ht Hh Hm Hle.
  split; [done|].
  pose proof (Z.mul_div_le t US_PER_DAY) as Hlow.
  pose proof (Z.mul_succ_div_gt t US_PER_DAY) as Hhigh.
  unfold US_PER_DAY, US_PER_HOUR, US_PER_MINUTE, US_PER_SECOND in *. lia.
Qed.

Lemma in_range_of_minute t :
  0 ≤ t → replace_s0 t ≤ datetime_max → in_range t.
Proof.
  unfold in_range, replace_s0, datetime_max. intros Ht Hle. split; [done|].
  pose proof (Z.mul_succ_div_gt t US_PER_MINUTE) as Hhigh.
  unfold US_PER_DAY, US_PER_HOUR, US_PER_MINUTE, US_PER_SECOND in *. lia.
Qed.

(** what the checked loop returns, the loop on the time line returns *)
Lemma for_day_offset_checked_Ok pt t offsets r :
  for_day_offset_checked pt t offsets = Ok r → for_day_offset pt t offsets = Ok r.
Proof.
  induction offsets as [|o rest IH]; simpl.
  - destruct (datetime_add t (mk_timedelta 1 0 0)) as [x|e] eqn:Hadd; [|done].
    apply datetime_add_Ok in Hadd as [-> _]. done.
  - destruct (if bool_decide (o = 0) then _ else _) as [|[h m] tl]; [done|].
    destruct (datetime_add t (mk_timedelta o 0 0)) as [x|e] eqn:Hadd; [|done].
    apply datetime_add_Ok in Hadd as [-> _]. done.
Qed.

(** an exception of the checked loop that the loop on the time line does
    not raise is an [OverflowError] *)
Lemma for_day_offset_checked_Raise pt t offsets e :
  for_day_offset_checked pt t offsets = Raise e →
  e = OverflowError ∨ for_day_offset pt t offsets = Raise e.
Proof.
  induction offsets as [|o rest IH]; simpl.
  - unfold datetime_add. case_bool_decide; [done|]. intros [= <-]. by left.
  - destruct (if bool_decide (o = 0) then _ else _) as [|[h m] tl]; [done|].
    unfold datetime_add. case_bool_decide; simpl; [by right|]. intros [= <-]. by left.
Qed.

(** an answer of the loop on the time line that is [datetime.max] at most
    is the answer of the checked loop *)
Lemma for_day_offset_checked_in_range pt t offsets r :
  Forall wf_slot pt → 0 ≤ t → (∀ o, o ∈ offsets → 0 ≤ o) →
  for_day_offset pt t offsets = Ok r → r ≤ datetime_max →
  for_day_offset_checked pt t offsets = Ok r.
Proof.
  intros Hwf Ht. induction offsets as [|o rest IH]; intros Hpos; simpl.
  - intros [= <-] Hmax.
    assert (in_range (t + mk_timedelta 1 0 0)) as Hin.
    { apply in_range_of_minute; [|done].
      unfold mk_timedelta, US_PER_DAY, US_PER_HOUR, US_PER_MINUTE, US_PER_SECOND. lia. }
    unfold datetime_add. by rewrite bool_decide_eq_true_2.
  - assert (0 ≤ o) as Ho by (apply Hpos, list_elem_of_here).
    destruct (if bool_decide (o = 0) then _ else _) as [|[h m] tl] eqn:Hday.
    { apply IH. intros o' Ho'. by apply Hpos, list_elem_of_further. }
    assert ((h, m) ∈ list_sort (times_of_day pt ((weekday t + o) mod 7))) as Hin.
    { case_bool_decide.
      - assert ((h, m) ∈ future_times t
                  (list_sort (times_of_day pt ((weekday t + o) mod 7)))) as Hin
          by (rewrite Hday; apply list_elem_of_here).
        unfold future_times in Hin. by apply list_elem_of_filter in Hin as [_ Hin].
      - rewrite Hday. apply list_elem_of_here. }
    apply (proj1 (elem_of_list_sort _ _)) in Hin.
    apply (times_of_day_wf _ _ _ Hwf) in Hin as [Hh Hm]. simpl in Hh, Hm.
    rewrite replace_hm_ok by done. intros [= <-] Hmax.
    assert (in_range (t + mk_timedelta o 0 0)) as Hadd.
    { apply (in_range_of_day _ h m); [|done..].
      unfold mk_timedelta, US_PER_DAY, US_PER_HOUR, US_PER_MINUTE, US_PER_SECOND. lia. }
    unfold datetime_add. rewrite bool_decide_eq_true_2 by done. simpl.
    by rewrite replace_hm_ok.
Qed.

Lemma get_optimal_time_checked_Ok now self platform from_time max_days_ahead r :
  get_optimal_time_checked now self platform from_time max_days_ahead = Ok r →
  get_optimal_time now self platform from_time max_days_ahead = Ok r.
Proof.
  unfold get_optimal_time_checked, get_optimal_time, getitem.
  destruct (optimal_times self !! _) as [pt|]; [|done]. simpl.
  apply for_day_offset_checked_Ok.
Qed.

Lemma get_optimal_time_checked_in_range now self platform from_time max_days_ahead r :
  wf_scheduler self → 0 ≤ default now from_time →
  get_optimal_time now self platform from_time max_days_ahead = Ok r →
  r ≤ datetime_max →
  get_optimal_time_checked now self platform from_time max_days_ahead = Ok r.
Proof.
  intros [_ Hwf] Ht. unfold get_optimal_time_checked, get_optimal_time, getitem.
  destruct (optimal_times self !! _) as [pt|] eqn:Hpt; [|done]. simpl.
  apply for_day_offset_checked_in_range; [by eapply Hwf | done | apply range_nonneg].
Qed.

(** the answer on the time line is at most [max_days_ahead] days, one day
    at least, after [from_time] *)
Lemma get_optimal_time_upper now self platform from_time max_days_ahead r :
  wf_scheduler self →
  get_optimal_time now self platform from_time max_days_ahead = Ok r →
  r ≤ default now from_time + Z.max 1 max_days_ahead * US_PER_DAY.
Proof.
  intros [_ Hwf]. unfold get_optimal_time, getitem.
  destruct (optimal_times self !! _) as [pt|] eqn:Hpt; [|done]. simpl.
  intros Hr.
  eapply for_day_offset_bounded; [by eapply Hwf | apply range_bounds | exact Hr].
Qed.

(** with room for the days scanned before [datetime.max], the checked
    planner answers, as the planner on the time line does *)
Lemma get_optimal_time_checked_returns now self platform from_time max_days_ahead :
  wf_scheduler self → 0 ≤ default now from_time →
  default now from_time + Z.max 1 max_days_ahead * US_PER_DAY ≤ datetime_max →
  ∃ r, get_optimal_time_checked now self platform from_time max_days_ahead = Ok r
       ∧ get_optimal_time now self platform from_time max_days_ahead = Ok r
       ∧ default now from_time < r
       ∧ r ≤ default now from_time + Z.max 1 max_days_ahead * US_PER_DAY.
Proof.
  intros Hwf Ht Hroom.
  destruct (get_optimal_time_later now self platform from_time max_days_ahead Hwf)
    as (r & Hr & Hlater).
  pose proof (get_optimal_time_upper _ _ _ _ _ _ Hwf Hr) as Hupper.
  exists r. split_and!; [|done..].
  apply get_optimal_time_checked_in_range; [done | done | done | lia].
Qed.
End checked_planner.

(** At the end of the range the call raises: from Friday 9999-12-31,
    18:00, the next slot of twitter is on a Saturday that no datetime
    holds. *)
Lemma get_optimal_time_at_datetime_max :
  in_range (mk_datetime 9999 12 31 18 0)
  ∧ get_optimal_time_checked 0 (PostScheduler_init "UTC") "twitter"
      (Some (mk_datetime 9999 12 31 18 0)) 7 = Raise OverflowError
  ∧ get_optimal_time_checked 0 (PostScheduler_init "UTC") "twitter"
      (Some (mk_datetime 9999 12 31 8 0)) 7 = Ok (mk_datetime 9999 12 31 9 0).
Proof. split; [by vm_compute|]. by split. Qed.

(** C1. For every platform string, every [max_days_ahead >= 1] and every
    [from_time], a datetime that [get_optimal_time] returns is strictly
    later than [from_time]; and it returns one, through a matching slot or
    through the fallback after the loop, for every [from_time] that
    leaves [max_days_ahead] days before [datetime.max] (past that, Python's
    date arithmetic raises [OverflowError]). *)
Theorem get_optimal_time_strictly_future now tz platform from_time max_days_ahead :
  1 ≤ max_days_ahead →
  (∀ r, get_optimal_time_checked now (PostScheduler_init tz) platform from_time
          max_days_ahead = Ok r →
        default now from_time < r)
  ∧ (in_range (default now from_time) →
     default now from_time + max_days_ahead * US_PER_DAY ≤ datetime_max →
     ∃ r, get_optimal_time_checked now (PostScheduler_init tz) platform from_time
            max_days_ahead = Ok r
          ∧ default now from_time < r ∧ in_range r).
Proof.
  intros Hd. split.
  - intros r Hr%get_optimal_time_checked_Ok.
    destruct (get_optimal_time_later now (PostScheduler_init tz) platform from_time
                max_days_ahead (default_scheduler_wf tz)) as (r' & Hr' & Hlater).
    rewrite Hr in Hr'. by injection Hr' as <-.
  - intros [Hlow _] Hroom.
    destruct (get_optimal_time_checked_returns now (PostScheduler_init tz) platform
                from_time max_days_ahead (default_scheduler_wf tz) Hlow)
      as (r & Hr & _ & Hlater & Hupper); [by rewrite Z.max_r by lia|].
    rewrite Z.max_r in Hupper by lia.
    exists r. split_and!; [done | done |]. unfold in_range. lia.
Qed.

(** ** Bulk schedules *)

Section bulk_facts.
Implicit Types (l schedule : list datetime) (t : datetime).

Lemma spaced_snoc gap l x :
  spaced gap l →
  (∀ prev, last l = Some prev → prev ≤ x ∧ gap ≤ x - prev) →
  spaced gap (l ++ [x]).
Proof.
  intros Hl Hx i a b Ha Hb.
  destruct (decide (S i < length l)%nat) as [Hlt|Hge].
  - rewrite lookup_app_l in Ha by lia. rewrite lookup_app_l in Hb by lia.
    by eapply Hl.
  - assert (S i = length l) as Hi.
    { apply lookup_lt_Some in Hb. rewrite length_app in Hb. simpl in Hb. lia. }
    rewrite lookup_app_l in Ha by lia.
    rewrite Hi, list_lookup_middle in Hb by done. injection Hb as <-.
    apply Hx. rewrite last_lookup, <- Hi. done.
Qed.

Lemma bulk_loop_spaced now self platform gap_hours (n : nat) schedule t :
  wf_scheduler self → 0 ≤ gap_hours →
  spaced (gap_hours * US_PER_HOUR) schedule →
  (∀ prev, last schedule = Some prev → prev ≤ t) →
  ∃ l, bulk_loop now self platform gap_hours n schedule t = Ok l
       ∧ length l = (length schedule + n)%nat
       ∧ spaced (gap_hours * US_PER_HOUR) l.
Proof.
  intros Hwf Hgap. revert schedule t.
  induction n as [|n IH]; intros schedule t Hsp Hlast; simpl.
  - exists schedule. split_and!; [done | lia | done].
  - destruct (get_optimal_time_later now self platform (Some t) 7 Hwf)
      as (r & -> & Hr). simpl in Hr. simpl.
    match goal with |- context [bulk_loop _ _ _ _ _ (_ ++ [?x]) _] => set (next := x) end.
    destruct (IH (schedule ++ [next]) (next + mk_timedelta 0 0 1)) as (l & Hl & Hlen & Hspl).
    + apply spaced_snoc; [done|]. intros prev Hprev. subst next.
      rewrite Hprev. specialize (Hlast _ Hprev).
      unfold total_seconds_lt. destruct (Z.ltb_spec (r - prev) (gap_hours * 3600 * US_PER_SECOND)).
      * unfold mk_timedelta, US_PER_HOUR, US_PER_MINUTE, US_PER_SECOND. lia.
      * unfold US_PER_HOUR, US_PER_MINUTE, US_PER_SECOND in *. lia.
    + intros prev. rewrite last_snoc. intros [= <-].
      unfold mk_timedelta, US_PER_MINUTE, US_PER_SECOND. lia.
    + exists l. split_and!; [done | | done].
      rewrite Hlen, length_app. simpl. lia.
Qed.

(** The entries of a bulk schedule are whole minutes: the differences
    that [get_bulk_schedule] compares through [total_seconds] are exact. *)
Lemma bulk_loop_whole_minutes now self platform gap_hours (n : nat) schedule t l :
  Forall whole_minute schedule →
  bulk_loop now self platform gap_hours n schedule t = Ok l → Forall whole_minute l.
Proof.
  revert schedule t. induction n as [|n IH]; intros schedule t Hs; simpl.
  - by intros [= <-].
  - destruct (get_optimal_time now self platform (Some t) 7) as [r|e] eqn:Hr;
      [|by intros [=]]. simpl.
    apply IH. apply Forall_app. split; [done|]. constructor; [|constructor].
    apply get_optimal_time_whole_minute in Hr.
    destruct (last schedule) as [prev|] eqn:Hprev; [|done].
    destruct (total_seconds_lt _ _); [|done].
    assert (whole_minute prev) as Hp.
    { rewrite Forall_forall in Hs. apply Hs. rewrite last_lookup in Hprev.
      by eapply list_elem_of_lookup_2. }
    unfold whole_minute, mk_timedelta in *.
    replace (prev + (0 * US_PER_DAY + gap_hours * US_PER_HOUR + 0 * US_PER_MINUTE))
      with (prev + gap_hours * 60 * US_PER_MINUTE) by (unfold US_PER_HOUR; lia).
    by rewrite Z_mod_plus_full.
Qed.
End bulk_facts.

Section checked_bulk.
Implicit Types (l schedule : list datetime) (t : datetime).

(** what the checked loop returns, the loop on the time line returns *)
Lemma bulk_loop_checked_Ok now self platform gap (n : nat) schedule t l :
  bulk_loop_checked now self platform gap n schedule t = Ok l →
  bulk_loop now self platform gap n schedule t = Ok l.
Proof.
  revert schedule t. induction n as [|n IH]; intros schedule t; simpl; [done|].
  destruct (get_optimal_time_checked now self platform (Some t) 7) as [r|e] eqn:Hr;
    [|done].
  apply get_optimal_time_checked_Ok in Hr. rewrite Hr. simpl.
  destruct (last schedule) as [prev|].
  - destruct (total_seconds_lt (r - prev) (gap * 3600)); simpl.
    + destruct (datetime_add prev (mk_timedelta 0 gap 0)) as [x|e] eqn:Hx; [|done].
      apply datetime_add_Ok in Hx as [-> _]. simpl.
      destruct (datetime_add _ (mk_timedelta 0 0 1)) as [c|e] eqn:Hc; [|done].
      apply datetime_add_Ok in Hc as [-> _]. simpl. apply IH.
    + destruct (datetime_add r (mk_timedelta 0 0 1)) as [c|e] eqn:Hc; [|done].
      apply datetime_add_Ok in Hc as [-> _]. simpl. apply IH.
  - simpl. destruct (datetime_add r (mk_timedelta 0 0 1)) as [c|e] eqn:Hc; [|done].
    apply datetime_add_Ok in Hc as [-> _]. simpl. apply IH.
Qed.

(** with room before [datetime.max] for [n] posts, each at most seven
    days or the forced gap after the one before, plus a minute, the
    checked loop returns *)
Lemma bulk_loop_checked_returns now self platform gap (n : nat) schedule t :
  wf_scheduler self → 0 ≤ t →
  (∀ prev, last schedule = Some prev → 0 ≤ prev ≤ t) →
  t + Z.of_nat n * (Z.max (7 * US_PER_DAY) (gap * US_PER_HOUR) + US_PER_MINUTE)
    ≤ datetime_max →
  ∃ l, bulk_loop_checked now self platform gap n schedule t = Ok l.
Proof.
  intros Hwf. set (step := Z.max (7 * US_PER_DAY) (gap * US_PER_HOUR) + US_PER_MINUTE).
  assert (7 * US_PER_DAY + US_PER_MINUTE ≤ step
          ∧ gap * US_PER_HOUR + US_PER_MINUTE ≤ step ∧ 0 ≤ step
          ∧ 0 < US_PER_MINUTE) as Hstep
    by (subst step; unfold US_PER_DAY, US_PER_HOUR, US_PER_MINUTE, US_PER_SECOND; lia).
  clearbody step. revert schedule t. induction n as [|n IH]; intros schedule t Ht Hlast Hroom; simpl.
  { by eexists. }
  replace (Z.of_nat (S n) * step) with (Z.of_nat n * step + step) in Hroom by lia.
  assert (0 ≤ Z.of_nat n * step) as Hn by (apply Z.mul_nonneg_nonneg; lia).
  destruct (get_optimal_time_checked_returns now self platform (Some t) 7 Hwf)
    as (r & -> & _ & Hlater & Hupper); simpl in *; [done | lia |].
  replace (Z.max 1 7) with 7 in Hupper by done.
  assert (∃ next, match last schedule with
                  | Some prev =>
                      if total_seconds_lt (r - prev) (gap * 3600)
                      then datetime_add prev (mk_timedelta 0 gap 0)
                      else Ok r
                  | None => Ok r
                  end = Ok next
                  ∧ t < next ∧ next + US_PER_MINUTE ≤ t + step) as (next & -> & Hnext & Hend).
  { destruct (last schedule) as [prev|]; [|exists r; split; [done | lia]].
    specialize (Hlast _ eq_refl). unfold total_seconds_lt.
    destruct (Z.ltb_spec (r - prev) (gap * 3600 * US_PER_SECOND)) as [Hlt|Hge];
      [|exists r; split; [done | lia]].
    exists (prev + mk_timedelta 0 gap 0).
    assert (t < prev + mk_timedelta 0 gap 0
            ∧ prev + mk_timedelta 0 gap 0 + US_PER_MINUTE ≤ t + step) as [? ?].
    { unfold mk_timedelta, US_PER_HOUR, US_PER_MINUTE, US_PER_SECOND in *. lia. }
    split_and!; [|done..]. unfold datetime_add.
    rewrite bool_decide_eq_true_2; [done|]. unfold in_range. lia. }
  simpl. unfold datetime_add at 1.
  rewrite bool_decide_eq_true_2
    by (unfold in_range, mk_timedelta, US_PER_MINUTE, US_PER_SECOND in *; lia).
  simpl. apply IH.
  - unfold mk_timedelta, US_PER_MINUTE, US_PER_SECOND in *. lia.
  - intros prev. rewrite last_snoc. intros [= <-].
    unfold mk_timedelta, US_PER_MINUTE, US_PER_SECOND in *. lia.
  - unfold mk_timedelta, US_PER_MINUTE, US_PER_SECOND in *. lia.
Qed.
End checked_bulk.

(** C3. For every platform, count [N >= 0], start time and gap [G >= 0],
    a list that [get_bulk_schedule] returns has exactly [N] datetimes, is
    non-decreasing and has consecutive entries at least [G] hours apart;
    and it returns one for every start time that leaves room before
    [datetime.max] for [N] posts, each seven days or [G] hours, and one
    minute, after the one before (past that, Python's date arithmetic
    raises [OverflowError]). *)
Theorem get_bulk_schedule_count_and_gaps now tz platform N from_time G :
  0 ≤ N → 0 ≤ G →
  (∀ l, get_bulk_schedule_checked now (PostScheduler_init tz) platform N from_time G = Ok l →
     Z.of_nat (length l) = N
     ∧ ∀ (i : nat) a b, l !! i = Some a → l !! S i = Some b →
         a ≤ b ∧ G * US_PER_HOUR ≤ b - a)
  ∧ (in_range (default now from_time) →
     default now from_time
       + N * (Z.max (7 * US_PER_DAY) (G * US_PER_HOUR) + US_PER_MINUTE) ≤ datetime_max →
     ∃ l, get_bulk_schedule_checked now (PostScheduler_init tz) platform N from_time G = Ok l
       ∧ Z.of_nat (length l) = N
       ∧ ∀ (i : nat) a b, l !! i = Some a → l !! S i = Some b →
           a ≤ b ∧ G * US_PER_HOUR ≤ b - a).
Proof.
  intros HN HG.
  assert (∀ l, get_bulk_schedule_checked now (PostScheduler_init tz) platform N
                 from_time G = Ok l →
            Z.of_nat (length l) = N
            ∧ ∀ (i : nat) a b, l !! i = Some a → l !! S i = Some b →
                a ≤ b ∧ G * US_PER_HOUR ≤ b - a) as Hreturned.
  { intros l Hl. unfold get_bulk_schedule_checked in Hl.
    apply bulk_loop_checked_Ok in Hl.
    destruct (bulk_loop_spaced now (PostScheduler_init tz) platform G (Z.to_nat N) []
                (default now from_time)) as (l' & Hl' & Hlen & Hsp).
    - apply default_scheduler_wf.
    - done.
    - intros i a b Ha. by rewrite lookup_nil in Ha.
    - intros prev [=].
    - rewrite Hl in Hl'. injection Hl' as <-.
      split; [simpl in Hlen; lia | exact Hsp]. }
  split; [exact Hreturned|].
  intros [Hlow _] Hroom.
  destruct (bulk_loop_checked_returns now (PostScheduler_init tz) platform G (Z.to_nat N) []
              (default now from_time) (default_scheduler_wf tz) Hlow) as [l Hl].
  - intros prev [=].
  - by rewrite Z2Nat.id.
  - exists l. split; [exact Hl | by apply Hreturned].
Qed.

(** ** Schedules over several platforms *)

Section multi_facts.
Implicit Types (schedule : gmap string datetime) (t : datetime).

Lemma multi_loop_staggered now self stagger platforms schedule t :
  wf_scheduler self → 0 ≤ stagger →
  staggered (stagger * US_PER_MINUTE) schedule →
  (∀ p tp, schedule !! p = Some tp → tp + stagger * US_PER_MINUTE ≤ t) →
  ∃ m, multi_loop now self stagger platforms schedule t = Ok m
       ∧ staggered (stagger * US_PER_MINUTE) m.
Proof.
  intros Hwf Hst. revert schedule t.
  induction platforms as [|platform rest IH]; intros schedule t Hsp Hcur; simpl.
  - by exists schedule.
  - destruct (get_optimal_time_later now self platform (Some t) 7 Hwf)
      as (r & -> & Hr). simpl in Hr. simpl.
    apply IH.
    + intros p q tp tq Hpq Hp Hq.
      destruct (decide (platform = p)) as [<-|Hp'];
        destruct (decide (platform = q)) as [<-|Hq']; [done | | |].
      * rewrite lookup_insert_eq in Hp. rewrite lookup_insert_ne in Hq by done.
        injection Hp as <-. specialize (Hcur _ _ Hq). lia.
      * rewrite lookup_insert_eq in Hq. rewrite lookup_insert_ne in Hp by done.
        injection Hq as <-. specialize (Hcur _ _ Hp). lia.
      * rewrite lookup_insert_ne in Hp, Hq by done.
        exact (Hsp p q tp tq Hpq Hp Hq).
    + intros p tp Hp. unfold mk_timedelta.
      destruct (decide (platform = p)) as [<-|Hp'].
      * rewrite lookup_insert_eq in Hp. injection Hp as <-. lia.
      * rewrite lookup_insert_ne in Hp by done. specialize (Hcur _ _ Hp).
        unfold US_PER_MINUTE, US_PER_SECOND in *. lia.
Qed.
End multi_facts.

Section checked_multi.
Implicit Types (schedule : gmap string datetime) (t : datetime).

(** what the checked loop returns, the loop on the time line returns *)
Lemma multi_loop_checked_Ok now self stagger platforms schedule t m :
  multi_loop_checked now self stagger platforms schedule t = Ok m →
  multi_loop now self stagger platforms schedule t = Ok m.
Proof.
  revert schedule t. induction platforms as [|platform rest IH]; intros schedule t; simpl;
    [done|].
  destruct (get_optimal_time_checked now self platform (Some t) 7) as [r|e] eqn:Hr;
    [|done].
  apply get_optimal_time_checked_Ok in Hr. rewrite Hr. simpl.
  destruct (datetime_add t (mk_timedelta 0 0 stagger)) as [a|e] eqn:Ha; [|done].
  apply datetime_add_Ok in Ha as [-> _]. simpl.
  destruct (datetime_add r (mk_timedelta 0 0 stagger)) as [b|e] eqn:Hb; [|done].
  apply datetime_add_Ok in Hb as [-> _]. simpl. apply IH.
Qed.

(** with room before [datetime.max] for seven days and the stagger for
    each platform, the checked loop returns *)
Lemma multi_loop_checked_returns now self stagger platforms schedule t :
  wf_scheduler self → 0 ≤ stagger → 0 ≤ t →
  t + Z.of_nat (length platforms) * (7 * US_PER_DAY + stagger * US_PER_MINUTE)
    ≤ datetime_max →
  ∃ m, multi_loop_checked now self stagger platforms schedule t = Ok m.
Proof.
  intros Hwf Hst. set (step := 7 * US_PER_DAY + stagger * US_PER_MINUTE).
  assert (7 * US_PER_DAY + stagger * US_PER_MINUTE = step
          ∧ 0 ≤ stagger * US_PER_MINUTE ∧ 0 ≤ step) as (Hstep & Hpos & Hstep0)
    by (subst step; unfold US_PER_DAY, US_PER_HOUR, US_PER_MINUTE, US_PER_SECOND; lia).
  clearbody step. revert schedule t.
  induction platforms as [|platform rest IH]; intros schedule t Ht Hroom; simpl.
  { by eexists. }
  simpl length in Hroom.
  replace (Z.of_nat (S (length rest)) * step)
    with (Z.of_nat (length rest) * step + step) in Hroom by lia.
  assert (0 ≤ Z.of_nat (length rest) * step) as Hn by (apply Z.mul_nonneg_nonneg; lia).
  destruct (get_optimal_time_checked_returns now self platform (Some t) 7 Hwf)
    as (r & -> & _ & Hlater & Hupper); simpl in *; [done | lia |].
  replace (Z.max 1 7) with 7 in Hupper by done.
  unfold datetime_add, mk_timedelta.
  rewrite !bool_decide_eq_true_2 by (unfold in_range; lia). simpl.
  apply IH; lia.
Qed.
End checked_multi.

(** C4. For every list of platforms, start time and
    [stagger_minutes >= 0], any two distinct platforms of a mapping that
    [get_multi_platform_schedule] returns are at least [stagger_minutes]
    apart, whatever their own optimal slots are; and it returns one for
    every start time that leaves room before [datetime.max] for seven
    days and the stagger for each platform (past that, Python's date
    arithmetic raises [OverflowError]). *)
Theorem get_multi_platform_schedule_staggered now tz platforms from_time stagger_minutes :
  0 ≤ stagger_minutes →
  (∀ m, get_multi_platform_schedule_checked now (PostScheduler_init tz) platforms
          from_time stagger_minutes = Ok m →
     ∀ p q tp tq, p ≠ q → m !! p = Some tp → m !! q = Some tq →
       stagger_minutes * US_PER_MINUTE ≤ Z.abs (tp - tq))
  ∧ (in_range (default now from_time) →
     default now from_time
       + Z.of_nat (length platforms) * (7 * US_PER_DAY + stagger_minutes * US_PER_MINUTE)
       ≤ datetime_max →
     ∃ m, get_multi_platform_schedule_checked now (PostScheduler_init tz) platforms
            from_time stagger_minutes = Ok m
       ∧ ∀ p q tp tq, p ≠ q → m !! p = Some tp → m !! q = Some tq →
           stagger_minutes * US_PER_MINUTE ≤ Z.abs (tp - tq)).
Proof.
  intros Hst.
  assert (∀ m, get_multi_platform_schedule_checked now (PostScheduler_init tz) platforms
                 from_time stagger_minutes = Ok m →
            ∀ p q tp tq, p ≠ q → m !! p = Some tp → m !! q = Some tq →
              stagger_minutes * US_PER_MINUTE ≤ Z.abs (tp - tq)) as Hreturned.
  { intros m Hm. unfold get_multi_platform_schedule_checked in Hm.
    apply multi_loop_checked_Ok in Hm.
    destruct (multi_loop_staggered now (PostScheduler_init tz) stagger_minutes platforms ∅
                (default now from_time)) as (m' & Hm' & Hsp).
    - apply default_scheduler_wf.
    - done.
    - intros p q tp tq _ Hp. by rewrite lookup_empty in Hp.
    - intros p tp Hp. by rewrite lookup_empty in Hp.
    - rewrite Hm in Hm'. by injection Hm' as <-. }
  split; [exact Hreturned|].
  intros [Hlow _] Hroom.
  destruct (multi_loop_checked_returns now (PostScheduler_init tz) stagger_minutes platforms
              ∅ (default now from_time) (default_scheduler_wf tz) Hst Hlow Hroom)
    as [m Hm].
  exists m. split; [exact Hm | by apply Hreturned].
Qed.

(** ** Platform names *)

Lemma lower_ascii_idemp c : lower_ascii (lower_ascii c) = lower_ascii c.
Proof. by destruct c as [[] [] [] [] [] [] [] []]. Qed.

Lemma lower_idemp s : lower (lower s) = lower s.
Proof.
  induction s as [|c s IH]; simpl; [done|].
  by rewrite lower_ascii_idemp, IH.
Qed.

Lemma default_scheduler_keys tz k :
  is_Some (optimal_times (PostScheduler_init tz) !! k) ↔
  k = "twitter"%string ∨ k = "instagram"%string ∨ k = "linkedin"%string.
Proof.
  simpl. rewrite !lookup_insert. repeat case_decide; subst.
  - split; [auto | by eexists].
  - split; [auto | by eexists].
  - split; [auto | by eexists].
  - rewrite lookup_empty. split; [by intros [? [=]] | intros [?|[?|?]]; done].
Qed.

(** C10. The platform name, a string of ASCII characters, is used
    case-insensitively: the answer for [p] is the answer for [lower p];
    and a name whose lower-case form is none of "twitter", "instagram",
    "linkedin" gets the answer for "twitter".  Answers are compared with
    the exceptions they may be. *)
Theorem get_optimal_time_platform_lower now tz p from_time max_days_ahead :
  ascii_only p = true →
  get_optimal_time_checked now (PostScheduler_init tz) p from_time max_days_ahead
  = get_optimal_time_checked now (PostScheduler_init tz) (lower p) from_time max_days_ahead
  ∧ (lower p ≠ "twitter"%string → lower p ≠ "instagram"%string →
     lower p ≠ "linkedin"%string →
     get_optimal_time_checked now (PostScheduler_init tz) p from_time max_days_ahead
     = get_optimal_time_checked now (PostScheduler_init tz) "twitter" from_time
         max_days_ahead).
Proof.
  intros _. split.
  - unfold get_optimal_time_checked. by rewrite lower_idemp.
  - intros Ht Hi Hl. unfold get_optimal_time_checked.
    rewrite (bool_decide_eq_false_2 (is_Some (_ !! lower p))).
    + done.
    + rewrite default_scheduler_keys. tauto.
Qed.

Lemma get_optimal_time_platform_lower_witness :
  ascii_only "FaceBook" = true
  ∧ lower "FaceBook" ≠ "twitter"%string ∧ lower "FaceBook" ≠ "instagram"%string
  ∧ lower "FaceBook" ≠ "linkedin"%string
  ∧ get_optimal_time_checked 0 (PostScheduler_init "UTC") "FaceBook" None 7
    = get_optimal_time_checked 0 (PostScheduler_init "UTC") "twitter" None 7.
Proof.
  split_and!; [reflexivity | by vm_compute..|].
  apply (get_optimal_time_platform_lower 0 "UTC" "FaceBook" None 7);
    [reflexivity | by vm_compute..].
Defined.

(** ** Scenarios with a reduced slot table *)

Section scenarios.
Variable now : datetime.

Lemma get_optimal_time_twitter_table slots from_time d :
  get_optimal_time now (scheduler_with_twitter slots) "twitter" (Some from_time) d
  = for_day_offset slots from_time (range d).
Proof. done. Qed.

(** the week of a Monday holds no slot of the table [(Mon, 9, 0)] after
    09:00 of that Monday *)
Lemma monday_slot_missed t :
  weekday t = 0 → hour t = 10 → minute t = 0 →
  for_day_offset [(0, 9, 0)] t (range 7) = Ok (replace_s0 (t + mk_timedelta 1 0 0)).
Proof.
  intros Hw Hh Hm. unfold range. simpl seq. simpl fmap.
  unfold for_day_offset, future_times. rewrite Hw, Hh, Hm. done.
Qed.
End scenarios.

Section clock_fields.

Lemma weekday_at_day_time t d h m :
  0 ≤ h < 24 → 0 ≤ m < 60 →
  weekday (at_day_time t d h m) = (weekday t + d) mod 7.
Proof.
  intros Hh Hm. unfold weekday, at_day_time, date_part.
  replace (t / US_PER_DAY * US_PER_DAY + d * US_PER_DAY + h * US_PER_HOUR + m * US_PER_MINUTE)
    with ((h * US_PER_HOUR + m * US_PER_MINUTE) + (t / US_PER_DAY + d) * US_PER_DAY) by lia.
  rewrite Z.div_add by done.
  rewrite (Z.div_small (_ + _)) by
    (unfold US_PER_DAY, US_PER_HOUR, US_PER_MINUTE, US_PER_SECOND; lia).
  rewrite Z.add_0_l. by rewrite Zplus_mod_idemp_l.
Qed.

Lemma hour_at_day_time t d h m :
  0 ≤ h < 24 → 0 ≤ m < 60 → hour (at_day_time t d h m) = h.
Proof.
  intros Hh Hm. unfold hour, at_day_time, date_part.
  replace (t / US_PER_DAY * US_PER_DAY + d * US_PER_DAY + h * US_PER_HOUR + m * US_PER_MINUTE)
    with (m * US_PER_MINUTE + ((t / US_PER_DAY + d) * 24 + h) * US_PER_HOUR)
    by (unfold US_PER_DAY; lia).
  rewrite Z.div_add by done.
  rewrite (Z.div_small (_ * _)) by
    (unfold US_PER_HOUR, US_PER_MINUTE, US_PER_SECOND; lia).
  rewrite Z.add_0_l, Z.add_comm, Z_mod_plus_full. by apply Z.mod_small.
Qed.

Lemma minute_at_day_time t d h m :
  0 ≤ h < 24 → 0 ≤ m < 60 → minute (at_day_time t d h m) = m.
Proof.
  intros Hh Hm. unfold minute, at_day_time, date_part.
  replace (t / US_PER_DAY * US_PER_DAY + d * US_PER_DAY + h * US_PER_HOUR + m * US_PER_MINUTE)
    with ((((t / US_PER_DAY + d) * 24 + h) * 60 + m) * US_PER_MINUTE)
    by (unfold US_PER_DAY, US_PER_HOUR; lia).
  rewrite Z.div_mul by done.
  rewrite Z.add_comm, Z_mod_plus_full. by apply Z.mod_small.
Qed.

Lemma date_part_at_day_time t d h m :
  0 ≤ h < 24 → 0 ≤ m < 60 →
  date_part (at_day_time t d h m) = date_part t + d * US_PER_DAY.
Proof.
  intros Hh Hm. unfold at_day_time, date_part.
  replace (t / US_PER_DAY * US_PER_DAY + d * US_PER_DAY + h * US_PER_HOUR + m * US_PER_MINUTE)
    with ((h * US_PER_HOUR + m * US_PER_MINUTE) + (t / US_PER_DAY + d) * US_PER_DAY) by lia.
  rewrite Z.div_add by done.
  rewrite (Z.div_small (_ + _)) by
    (unfold US_PER_DAY, US_PER_HOUR, US_PER_MINUTE, US_PER_SECOND; lia).
  lia.
Qed.

(** a time with time of day [h:m], seconds aside, truncated to the minute *)
Lemma replace_s0_next_day t :
  replace_s0 (t + mk_timedelta 1 0 0) = at_day_time t 1 (hour t) (minute t).
Proof.
  unfold replace_s0, at_day_time, mk_timedelta, date_part, hour, minute,
    US_PER_DAY, US_PER_HOUR, US_PER_MINUTE, US_PER_SECOND.
  Z.div_mod_to_equations. lia.
Qed.
End clock_fields.

(** C6, as amended.  With the single slot (Monday, 9, 0) for "twitter" and
    [from_time] a Monday at 10:00, the seven days scanned (that Monday to
    the following Sunday) hold no later slot, and [get_optimal_time]
    returns the fallback: the next day, a Tuesday, at 10:00, which is later
    than [from_time]. *)
Theorem single_slot_monday_fallback now t :
  weekday t = 0 → hour t = 10 → minute t = 0 →
  ∃ r, get_optimal_time now (scheduler_with_twitter [(0, 9, 0)]) "twitter" (Some t) 7 = Ok r
       ∧ r = replace_s0 (t + mk_timedelta 1 0 0)
       ∧ weekday r = 1 ∧ hour r = 10 ∧ minute r = 0
       ∧ t < r.
Proof.
  intros Hw Hh Hm. eexists. split; [|split; [reflexivity|]].
  - rewrite get_optimal_time_twitter_table. by apply monday_slot_missed.
  - rewrite replace_s0_next_day, Hh, Hm.
    rewrite weekday_at_day_time, hour_at_day_time, minute_at_day_time by lia.
    rewrite Hw. split_and!; [done..|].
    pose proof (date_part_le t). unfold at_day_time.
    unfold US_PER_DAY, US_PER_HOUR, US_PER_MINUTE, US_PER_SECOND in *. lia.
Qed.

Lemma single_slot_monday_fallback_witness :
  weekday (mk_datetime 2024 1 1 10 0) = 0 ∧ hour (mk_datetime 2024 1 1 10 0) = 10
  ∧ minute (mk_datetime 2024 1 1 10 0) = 0 ∧
  ∃ r, get_optimal_time 0 (scheduler_with_twitter [(0, 9, 0)]) "twitter"
         (Some (mk_datetime 2024 1 1 10 0)) 7 = Ok r
       ∧ r = replace_s0 (mk_datetime 2024 1 1 10 0 + mk_timedelta 1 0 0)
       ∧ weekday r = 1 ∧ hour r = 10 ∧ minute r = 0
       ∧ mk_datetime 2024 1 1 10 0 < r.
Proof.
  split_and!; [reflexivity..|].
  apply (single_slot_monday_fallback 0 (mk_datetime 2024 1 1 10 0)); reflexivity.
Defined.

(** C6, as stated, fails: from Monday 2024-01-01 10:00 the answer is
    Tuesday 2024-01-02 10:00, not Monday 2024-01-08 09:00. *)
Lemma single_slot_monday_not_next_week :
  let t := mk_datetime 2024 1 1 10 0 in
  weekday t = 0 ∧ hour t = 10 ∧ minute t = 0 ∧
  get_optimal_time 0 (scheduler_with_twitter [(0, 9, 0)]) "twitter" (Some t) 7
    = Ok (mk_datetime 2024 1 2 10 0) ∧
  get_optimal_time 0 (scheduler_with_twitter [(0, 9, 0)]) "twitter" (Some t) 7
    ≠ Ok (mk_datetime 2024 1 8 9 0) ∧
  mk_datetime 2024 1 8 9 0 = t + mk_timedelta 7 (-1) 0.
Proof. by vm_compute. Qed.

Section two_slot_scenario.
Variable now : datetime.

Lemma mon_tue_first t :
  weekday t = 0 → hour t = 8 → minute t = 0 →
  for_day_offset mon_tue_slots t (range 7) = Ok (at_day_time t 0 9 0).
Proof.
  intros Hw Hh Hm. unfold range. simpl seq. simpl fmap.
  unfold for_day_offset, future_times. rewrite Hw, Hh, Hm. simpl.
  rewrite replace_hm_ok, date_part_add_days by lia. done.
Qed.

Lemma mon_tue_second t :
  weekday t = 0 →
  for_day_offset mon_tue_slots (at_day_time t 0 9 1) (range 7)
  = Ok (at_day_time t 1 9 0).
Proof.
  intros Hw. unfold range. simpl seq. simpl fmap.
  unfold for_day_offset, future_times.
  rewrite weekday_at_day_time, hour_at_day_time, minute_at_day_time, Hw by lia. simpl.
  rewrite replace_hm_ok, date_part_add_days, date_part_at_day_time by lia.
  unfold at_day_time. f_equal. lia.
Qed.

Lemma mon_tue_third t :
  weekday t = 0 →
  for_day_offset mon_tue_slots (at_day_time t 1 9 1) (range 7)
  = Ok (at_day_time t 7 9 0).
Proof.
  intros Hw. unfold range. simpl seq. simpl fmap.
  unfold for_day_offset, future_times.
  rewrite weekday_at_day_time, hour_at_day_time, minute_at_day_time, Hw by lia. simpl.
  rewrite replace_hm_ok, date_part_add_days, date_part_at_day_time by lia.
  unfold at_day_time. f_equal. lia.
Qed.

Lemma at_day_time_plus_minute t d h m :
  at_day_time t d h m + mk_timedelta 0 0 1 = at_day_time t d h (m + 1).
Proof. unfold at_day_time, mk_timedelta. lia. Qed.
End two_slot_scenario.

(** C7, as amended.  With slots for "twitter" at Monday 9:00 and Tuesday
    9:00 only, [get_bulk_schedule("twitter", 3, Monday 08:00, 24)] returns
    Monday 09:00, Tuesday 09:00 and the Monday of the following week at
    09:00: the third lookup finds the next Monday slot, six days after the
    second entry, so the 24-hour minimum gap is not forced. *)
Theorem bulk_schedule_mon_tue now t :
  weekday t = 0 → hour t = 8 → minute t = 0 →
  get_bulk_schedule now (scheduler_with_twitter mon_tue_slots) "twitter" 3 (Some t) 24
  = Ok [at_day_time t 0 9 0; at_day_time t 1 9 0; at_day_time t 7 9 0].
Proof.
  intros Hw Hh Hm. unfold get_bulk_schedule.
  change (Z.to_nat 3) with 3%nat. cbn [bulk_loop default].
  rewrite get_optimal_time_twitter_table, mon_tue_first by done. simpl.
  rewrite at_day_time_plus_minute. simpl (0 + 1).
  rewrite get_optimal_time_twitter_table, mon_tue_second by done. simpl.
  unfold total_seconds_lt.
  rewrite (proj2 (Z.ltb_ge _ _)) by (unfold at_day_time, US_PER_DAY, US_PER_HOUR,
    US_PER_MINUTE, US_PER_SECOND; lia).
  rewrite at_day_time_plus_minute. simpl (0 + 1).
  rewrite get_optimal_time_twitter_table, mon_tue_third by done. simpl.
  rewrite (proj2 (Z.ltb_ge _ _)) by (unfold at_day_time, US_PER_DAY, US_PER_HOUR,
    US_PER_MINUTE, US_PER_SECOND; lia).
  done.
Qed.

Lemma bulk_schedule_mon_tue_witness :
  weekday (mk_datetime 2024 1 1 8 0) = 0 ∧ hour (mk_datetime 2024 1 1 8 0) = 8
  ∧ minute (mk_datetime 2024 1 1 8 0) = 0
  ∧ get_bulk_schedule 0 (scheduler_with_twitter mon_tue_slots) "twitter" 3
      (Some (mk_datetime 2024 1 1 8 0)) 24
    = Ok [mk_datetime 2024 1 1 9 0; mk_datetime 2024 1 2 9 0; mk_datetime 2024 1 8 9 0].
Proof.
  split_and!; [reflexivity..|].
  exact (bulk_schedule_mon_tue 0 (mk_datetime 2024 1 1 8 0) eq_refl eq_refl eq_refl).
Defined.

(** C7, as stated, fails: from Monday 2024-01-01 08:00 the third entry is
    Monday 2024-01-08 09:00, not Wednesday 2024-01-03 09:00. *)
Lemma bulk_schedule_mon_tue_not_wednesday :
  let t := mk_datetime 2024 1 1 8 0 in
  weekday t = 0 ∧ hour t = 8 ∧ minute t = 0 ∧
  get_bulk_schedule 0 (scheduler_with_twitter mon_tue_slots) "twitter" 3 (Some t) 24
    = Ok [mk_datetime 2024 1 1 9 0; mk_datetime 2024 1 2 9 0; mk_datetime 2024 1 8 9 0] ∧
  get_bulk_schedule 0 (scheduler_with_twitter mon_tue_slots) "twitter" 3 (Some t) 24
    ≠ Ok [mk_datetime 2024 1 1 9 0; mk_datetime 2024 1 2 9 0; mk_datetime 2024 1 3 9 0].
Proof. by vm_compute. Qed.

(** ** Witnesses for the planner theorems *)

Lemma get_optimal_time_strictly_future_witness :
  1 ≤ 1
  ∧ in_range (default 0 (Some (mk_datetime 2024 1 5 18 30)))
  ∧ default 0 (Some (mk_datetime 2024 1 5 18 30)) + 1 * US_PER_DAY ≤ datetime_max
  ∧ ∃ r, get_optimal_time_checked 0 (PostScheduler_init "UTC") "LinkedIn"
           (Some (mk_datetime 2024 1 5 18 30)) 1 = Ok r
       ∧ default 0 (Some (mk_datetime 2024 1 5 18 30)) < r ∧ in_range r.
Proof.
  assert (in_range (default 0 (Some (mk_datetime 2024 1 5 18 30)))) as Hin
    by (split; by vm_compute).
  assert (default 0 (Some (mk_datetime 2024 1 5 18 30)) + 1 * US_PER_DAY ≤ datetime_max)
    as Hroom by (by vm_compute).
  split; [lia|]. split; [exact Hin|]. split; [exact Hroom|].
  apply (get_optimal_time_strictly_future 0 "UTC" "LinkedIn"
           (Some (mk_datetime 2024 1 5 18 30)) 1); [lia | exact Hin | exact Hroom].
Defined.

Lemma get_bulk_schedule_count_and_gaps_witness :
  0 ≤ 3 ∧ 0 ≤ 8
  ∧ in_range (default 0 (Some (mk_datetime 2024 1 1 8 0)))
  ∧ default 0 (Some (mk_datetime 2024 1 1 8 0))
      + 3 * (Z.max (7 * US_PER_DAY) (8 * US_PER_HOUR) + US_PER_MINUTE) ≤ datetime_max
  ∧ ∃ l, get_bulk_schedule_checked 0 (PostScheduler_init "UTC") "twitter" 3
           (Some (mk_datetime 2024 1 1 8 0)) 8 = Ok l
       ∧ Z.of_nat (length l) = 3
       ∧ ∀ (i : nat) a b, l !! i = Some a → l !! S i = Some b →
           a ≤ b ∧ 8 * US_PER_HOUR ≤ b - a.
Proof.
  assert (in_range (default 0 (Some (mk_datetime 2024 1 1 8 0)))) as Hin
    by (split; by vm_compute).
  assert (default 0 (Some (mk_datetime 2024 1 1 8 0))
            + 3 * (Z.max (7 * US_PER_DAY) (8 * US_PER_HOUR) + US_PER_MINUTE) ≤ datetime_max)
    as Hroom by (by vm_compute).
  split; [lia|]. split; [lia|]. split; [exact Hin|]. split; [exact Hroom|].
  apply (get_bulk_schedule_count_and_gaps 0 "UTC" "twitter" 3
           (Some (mk_datetime 2024 1 1 8 0)) 8); [lia | lia | exact Hin | exact Hroom].
Defined.

Lemma get_multi_platform_schedule_staggered_witness :
  0 ≤ 15
  ∧ in_range (default 0 (Some (mk_datetime 2024 1 6 10 0)))
  ∧ default 0 (Some (mk_datetime 2024 1 6 10 0))
      + Z.of_nat (length ["twitter"; "instagram"; "linkedin"]%string)
        * (7 * US_PER_DAY + 15 * US_PER_MINUTE) ≤ datetime_max
  ∧ ∃ m, get_multi_platform_schedule_checked 0 (PostScheduler_init "UTC")
           ["twitter"; "instagram"; "linkedin"]%string
           (Some (mk_datetime 2024 1 6 10 0)) 15 = Ok m
       ∧ ∀ p q tp tq, p ≠ q → m !! p = Some tp → m !! q = Some tq →
           15 * US_PER_MINUTE ≤ Z.abs (tp - tq).
Proof.
  assert (in_range (default 0 (Some (mk_datetime 2024 1 6 10 0)))) as Hin
    by (split; by vm_compute).
  assert (default 0 (Some (mk_datetime 2024 1 6 10 0))
            + Z.of_nat (length ["twitter"; "instagram"; "linkedin"]%string)
              * (7 * US_PER_DAY + 15 * US_PER_MINUTE) ≤ datetime_max)
    as Hroom by (by vm_compute).
  split; [lia|]. split; [exact Hin|]. split; [exact Hroom|].
  apply (get_multi_platform_schedule_staggered 0 "UTC"
           ["twitter"; "instagram"; "linkedin"]%string
           (Some (mk_datetime 2024 1 6 10 0)) 15); [lia | exact Hin | exact Hroom].
Defined.

(** * Properties of the orchestrator *)

(** ** Reasoning about computations *)

Section emits_rules.
Context {A B : Type}.
Implicit Types (P : call → Prop).

Lemma emits_ret (a : A) P (R : A → Prop) : R a → emits (ret a) P R.
Proof.
  intros Ha w. exists []. simpl. rewrite app_nil_r.
  split_and!; [done | constructor | by intros ? [= <-]].
Qed.

Lemma emits_raise e P (R : A → Prop) : emits (raise e) P R.
Proof.
  intros w. exists []. simpl. rewrite app_nil_r.
  split_and!; [done | constructor | by intros ? [=]].
Qed.

Lemma emits_lift (r : result A) P (R : A → Prop) :
  (∀ a, r = Ok a → R a) → emits (lift r) P R.
Proof.
  intros Hr w. exists []. simpl. rewrite app_nil_r.
  split_and!; [done | constructor | done].
Qed.

Lemma emits_get (f : World → A) P : emits (get f) P (λ _, True).
Proof.
  intros w. exists []. simpl. rewrite app_nil_r.
  split_and!; [done | constructor | done].
Qed.

Lemma emits_bind (m : M A) (k : A → M B) P (R : A → Prop) (R' : B → Prop) :
  emits m P R → (∀ a, R a → emits (k a) P R') → emits (bind m k) P R'.
Proof.
  intros Hm Hk w. destruct (Hm w) as (new & Hc & HP & HR).
  unfold bind. destruct (m w) as [[a|e] w1]; simpl in *.
  - destruct (Hk a (HR a eq_refl) w1) as (new' & Hc' & HP' & HR').
    exists (new ++ new'). rewrite Hc', Hc, app_assoc.
    split_and!; [done | by apply Forall_app | done].
  - exists new. split_and!; [done | done | by intros ? [=]].
Qed.

Lemma emits_try (m : M A) (h : exn → M A) P (R : A → Prop) :
  emits m P R → (∀ e, emits (h e) P R) → emits (try_except m h) P R.
Proof.
  intros Hm Hh w. destruct (Hm w) as (new & Hc & HP & HR).
  unfold try_except. destruct (m w) as [[a|e] w1]; simpl in *.
  - exists new. split_and!; [done | done | by intros ? [= <-]; apply HR].
  - destruct (Hh e w1) as (new' & Hc' & HP' & HR').
    exists (new ++ new'). rewrite Hc', Hc, app_assoc.
    split_and!; [done | by apply Forall_app | done].
Qed.

Lemma emits_weaken (m : M A) (P Q : call → Prop) (R R' : A → Prop) :
  emits m P R → (∀ c, P c → Q c) → (∀ a, R a → R' a) → emits m Q R'.
Proof.
  intros Hm HPQ HR w. destruct (Hm w) as (new & Hc & HP & HR1).
  exists new. split_and!; [done | by eapply Forall_impl | auto].
Qed.
End emits_rules.

Lemma emits_logger lv msg P : emits (logger lv msg) P (λ _, True).
Proof.
  intros w. exists []. simpl. rewrite app_nil_r.
  split_and!; [done | constructor | done].
Qed.

Lemma emits_record_call c (P : call → Prop) : P c → emits (record_call c) P (λ _, True).
Proof.
  intros Hc w. exists [c]. simpl.
  split_and!; [done | by repeat constructor | done].
Qed.

Lemma emits_set_last_trend_scan t P : emits (set_last_trend_scan t) P (λ _, True).
Proof.
  intros w. exists []. simpl. rewrite app_nil_r.
  split_and!; [done | constructor | done].
Qed.

Lemma emits_set_last_content_creation t P :
  emits (set_last_content_creation t) P (λ _, True).
Proof.
  intros w. exists []. simpl. rewrite app_nil_r.
  split_and!; [done | constructor | done].
Qed.

Lemma emits_write_trend_report t P : emits (write_trend_report t) P (λ _, True).
Proof.
  intros w. exists []. simpl. rewrite app_nil_r.
  split_and!; [done | constructor | done].
Qed.

Lemma emits_save_content_pool pool P : emits (_save_content_pool pool) P (λ _, True).
Proof.
  intros w. exists []. simpl. rewrite app_nil_r.
  split_and!; [done | constructor | done].
Qed.

Lemma emits_load_content_pool self P : emits (_load_content_pool self) P (λ _, True).
Proof.
  intros w. exists []. unfold _load_content_pool, bind, get.
  destruct (content_pool_file w); simpl; rewrite app_nil_r;
    (split_and!; [done | constructor | done]).
Qed.

Lemma emits_ret_any {A} (a : A) P : emits (ret a) P (λ _, True).
Proof. by apply emits_ret. Qed.

Lemma emits_lift_any {A} (r : result A) P : emits (lift r) P (λ _, True).
Proof. by apply emits_lift. Qed.

(** steps that add no call and return nothing of interest *)
Ltac emits_step :=
  first
    [ apply emits_logger | apply emits_set_last_trend_scan
    | apply emits_set_last_content_creation | apply emits_write_trend_report
    | apply emits_save_content_pool | apply emits_load_content_pool
    | apply emits_get | apply emits_raise
    | apply emits_ret_any | apply emits_lift_any
    | (apply emits_ret; done) | (apply emits_lift; done) ].

Ltac emits_seq :=
  repeat first
    [ emits_step
    | eapply emits_bind; [emits_step | intros ? _] ].

(** ** The calls of each step *)

Section pool_facts.
Implicit Types (pool : gmap string (list ContentItem)) (items : list ContentItem).

Lemma elem_of_unused_content items (i : nat) c :
  (i, c) ∈ unused_content items ↔ items !! i = Some c ∧ used c = false.
Proof.
  unfold unused_content. rewrite list_elem_of_filter. simpl.
  rewrite elem_of_lookup_imap. split.
  - intros [Hu (j & y & [= -> ->] & Hl)]. done.
  - intros [Hl Hu]. split; [done|]. by exists i, c.
Qed.

Lemma unused_content_cons items e rest :
  unused_content items = e :: rest → items !! e.1 = Some e.2 ∧ used e.2 = false.
Proof.
  intros Heq. destruct e as [i c]. simpl.
  apply elem_of_unused_content. rewrite Heq. apply list_elem_of_here.
Qed.

Lemma unused_content_nil items (i : nat) c :
  unused_content items = [] → items !! i = Some c → used c = true.
Proof.
  intros Hnil Hl. destruct (used c) eqn:Hu; [done|].
  assert ((i, c) ∈ unused_content items) as Hin by by apply elem_of_unused_content.
  rewrite Hnil in Hin. by apply elem_of_nil in Hin.
Qed.

Lemma has_unused_mark pool platform (idx : nat) t p :
  has_unused (alter (alter (λ c, mark_used c t) idx) platform pool) p →
  has_unused pool p.
Proof.
  intros (items & i & c & Hp & Hi & Hu).
  destruct (decide (platform = p)) as [<-|Hne].
  - rewrite lookup_alter_eq in Hp.
    destruct (pool !! platform) as [items0|] eqn:H0; [|done].
    injection Hp as <-.
    destruct (decide (idx = i)) as [<-|Hi'].
    + rewrite list_lookup_alter_eq in Hi.
      destruct (items0 !! idx); [|done]. injection Hi as <-. done.
    + rewrite list_lookup_alter_ne in Hi by done.
      by exists items0, i, c.
  - rewrite lookup_alter_ne in Hp by done. by exists items, i, c.
Qed.

Lemma no_new_unused_refl pool : no_new_unused pool pool.
Proof. by intros p. Qed.

Lemma no_new_unused_mark pool0 pool platform (idx : nat) t :
  no_new_unused pool0 pool →
  no_new_unused pool0 (alter (alter (λ c, mark_used c t) idx) platform pool).
Proof. intros H0 p Hp. by eapply H0, has_unused_mark. Qed.
End pool_facts.

Section step_calls.
Variables (self : Orchestrator) (env : Env).
Implicit Types (pool : gmap string (list ContentItem)).

Lemma scan_trends_emits : emits (scan_trends self env) is_scan (λ _, True).
Proof.
  unfold scan_trends. apply emits_try; [|intros e; emits_seq].
  eapply emits_bind; [emits_step | intros ? _].
  eapply emits_bind; [apply emits_record_call; by eexists | intros ? _].
  emits_seq.
Qed.

Lemma generate_one_emits td platform pool :
  emits (generate_one env td platform pool) is_generate (λ _, True).
Proof.
  unfold generate_one. apply emits_try; [|intros e; emits_seq].
  eapply emits_bind; [emits_step | intros ? _].
  eapply emits_bind; [apply emits_record_call; by eexists | intros ? _].
  eapply emits_bind; [emits_step | intros [text|] _]; emits_seq.
Qed.

Lemma generate_all_emits td todo pool :
  emits (generate_all env td todo pool) is_generate (λ _, True).
Proof.
  revert pool. induction todo as [|platform rest IH]; intros pool; simpl.
  - emits_step.
  - eapply emits_bind; [apply generate_one_emits | intros ? _; apply IH].
Qed.

Lemma create_content_emits :
  emits (create_content self env) (λ c, is_scan c ∨ is_generate c) (λ _, True).
Proof.
  unfold create_content. apply emits_try; [|intros e; emits_seq].
  eapply emits_bind; [emits_step | intros ? _].
  eapply emits_bind; [emits_step | intros report _].
  eapply emits_bind with (R := λ _, True).
  { destruct report; [emits_step|].
    eapply emits_bind; [emits_step | intros ? _].
    eapply emits_weaken; [apply scan_trends_emits | by left | done]. }
  intros scanned _. destruct scanned; simpl; [|emits_step].
  eapply emits_bind; [emits_step | intros report' _].
  eapply emits_bind with (R := λ _, True); [destruct report'; emits_step | intros td _].
  eapply emits_bind; [emits_step | intros pool _].
  eapply emits_bind with (R := λ _, True).
  { eapply emits_weaken; [apply generate_all_emits | by right | done]. }
  intros pool' _. emits_seq.
Qed.

Lemma request_human_approval_emits platform content posting_time :
  emits (_request_human_approval env platform content posting_time)
    (λ c, call_platform c = Some platform) (λ _, True).
Proof.
  unfold _request_human_approval. apply emits_try; [|intros e; emits_seq].
  eapply emits_bind; [by apply emits_record_call | intros ? _].
  emits_seq.
Qed.

Lemma schedule_item_emits pool0 platform unused posting_times i pool :
  no_new_unused pool0 pool →
  emits (schedule_item self env platform unused posting_times i pool)
    (λ c, call_platform c = Some platform) (no_new_unused pool0).
Proof.
  intros H0. unfold schedule_item.
  eapply emits_bind; [emits_step | intros entry _].
  eapply emits_bind; [emits_step | intros posting_time _].
  eapply emits_bind with (R := λ _, True).
  { destruct (human_review self); [apply request_human_approval_emits | emits_step]. }
  intros approved _. destruct approved; simpl.
  - eapply emits_bind; [emits_step | intros ? _].
    eapply emits_bind; [by apply emits_record_call | intros ? _].
    eapply emits_bind; [emits_step | intros status _].
    case_bool_decide.
    + eapply emits_bind; [emits_step | intros ? _].
      apply emits_ret. by apply no_new_unused_mark.
    + eapply emits_bind; [emits_step | intros ? _]. by apply emits_ret.
  - eapply emits_bind; [emits_step | intros ? _]. by apply emits_ret.
Qed.

Lemma schedule_items_emits pool0 platform unused posting_times todo pool :
  no_new_unused pool0 pool →
  emits (schedule_items self env platform unused posting_times todo pool)
    (λ c, call_platform c = Some platform) (no_new_unused pool0).
Proof.
  revert pool. induction todo as [|i rest IH]; intros pool H0; simpl.
  - by apply emits_ret.
  - eapply emits_bind; [by apply schedule_item_emits | intros pool' H'; by apply IH].
Qed.

(** a platform gets scheduling calls only if it holds unused content *)
Lemma schedule_platform_emits pool0 platform pool :
  no_new_unused pool0 pool →
  emits (schedule_platform self env platform pool)
    (λ c, call_platform c = Some platform ∧ has_unused pool0 platform)
    (no_new_unused pool0).
Proof.
  intros H0. unfold schedule_platform.
  eapply emits_bind with (R := λ items, pool !! platform = Some items).
  { apply emits_lift. unfold getitem. intros items.
    destruct (pool !! platform); by intros [= <-]. }
  intros items Hitems.
  destruct (unused_content items) as [|e rest] eqn:Hun.
  - eapply emits_bind; [emits_step | intros ? _]. by apply emits_ret.
  - assert (has_unused pool0 platform) as Hhas.
    { apply H0. apply unused_content_cons in Hun as [? ?].
      by exists items, e.1, e.2. }
    eapply emits_bind; [emits_step | intros posting_times _].
    eapply emits_weaken; [by apply schedule_items_emits | | done].
    intros c Hc. done.
Qed.

Lemma schedule_all_emits pool0 todo pool :
  no_new_unused pool0 pool →
  emits (schedule_all self env todo pool)
    (λ c, ∃ p, call_platform c = Some p ∧ has_unused pool0 p)
    (no_new_unused pool0).
Proof.
  revert pool. induction todo as [|platform rest IH]; intros pool H0; simpl.
  - by apply emits_ret.
  - eapply emits_bind.
    + eapply emits_weaken; [by apply schedule_platform_emits | | done].
      intros c Hc. by exists platform.
    + intros pool' H'. by apply IH.
Qed.
End step_calls.

(** ** Content creation *)

Section content_creation.
Variables (self : Orchestrator) (env : Env).
Implicit Types (pool : gmap string (list ContentItem)) (w : World).

(** Generation for one platform never raises: a failure is logged, and
    the pool is passed on as it was. *)
Lemma generate_one_runs td platform pool w :
  ∃ pool' w', generate_one env td platform pool w = (Ok pool', w')
    ∧ calls w' = calls w ++ [GenerateForPlatform platform]
    ∧ same_data w w'
    ∧ (∀ e, content_creator_generate_for_platform env platform td = Raise e →
         pool' = pool
         ∧ (ERROR, "Error generating content for " +:+ platform) ∈ log w').
Proof.
  unfold generate_one, try_except, bind, logger, record_call, lift, ret, same_data.
  simpl.
  destruct (content_creator_generate_for_platform env platform td) as [[text|]|e]; simpl.
  - destruct (getitem pool platform) as [items|e]; simpl; by eexists _, _.
  - by eexists _, _.
  - eexists _, _. split_and!; try done. intros ? _. split; [done|]. simpl.
    rewrite elem_of_app. right. apply list_elem_of_here.
Qed.

(** Generation is attempted for every platform, in order, whatever
    happens for the platforms before it. *)
Lemma generate_all_runs td todo pool w :
  ∃ pool' w', generate_all env td todo pool w = (Ok pool', w')
    ∧ calls w' = calls w ++ (GenerateForPlatform <$> todo)
    ∧ same_data w w'.
Proof.
  revert pool w. induction todo as [|platform rest IH]; intros pool w; simpl.
  - eexists _, _. split_and!; [done | by rewrite app_nil_r | done].
  - destruct (generate_one_runs td platform pool w) as (pool1 & w1 & H1 & Hc1 & Hd1 & _).
    destruct (IH pool1 w1) as (pool2 & w2 & H2 & Hc2 & Hd2).
    exists pool2, w2. unfold bind. rewrite H1, H2.
    split_and!; [done | by rewrite Hc2, Hc1, <- app_assoc |].
    unfold same_data in *. destruct Hd1 as (? & ? & ? & ?), Hd2 as (? & ? & ? & ?).
    split_and!; congruence.
Qed.

Lemma load_content_pool_runs w :
  ∃ pool w', _load_content_pool self w = (Ok pool, w')
    ∧ calls w' = calls w ∧ same_data w w'
    ∧ (∀ pool0, content_pool_file w = Some pool0 → pool = pool0 ∧ w' = w).
Proof.
  unfold _load_content_pool, bind, get, same_data.
  destruct (content_pool_file w) eqn:Hf; simpl.
  - eexists _, _. split_and!; try done. by intros ? [= <-].
  - eexists _, _. split_and!; try done.
Qed.

(** [create_content] with a trend report on file *)
Lemma create_content_with_report w td :
  trend_report_file w = Some td →
  ∃ w', create_content self env w = (Ok true, w')
    ∧ calls w' = calls w ++ (GenerateForPlatform <$> platforms self)
    ∧ is_Some (content_pool_file w').
Proof.
  intros Htd. unfold create_content, try_except.
  repeat (unfold bind at 1; simpl; rewrite ?Htd).
  match goal with |- context [_load_content_pool self ?w0] =>
    destruct (load_content_pool_runs w0) as (pool0 & w2 & -> & Hc2 & _) end.
  destruct (generate_all_runs td (platforms self) pool0 w2) as (pool' & w3 & -> & Hc3 & _).
  eexists. split_and!; [done | simpl; by rewrite Hc3, Hc2 | by eexists].
Qed.

(** [create_content] without a trend report: the trends are scanned
    first, and nothing is generated when the scan fails *)
Lemma create_content_without_report w :
  trend_report_file w = None →
  ∃ w', calls w' = calls w ++ ScanTrends (keywords self) ::
          match trend_scanner_scan_trends env (keywords self) with
          | Ok _ => GenerateForPlatform <$> platforms self
          | Raise _ => []
          end
    ∧ match trend_scanner_scan_trends env (keywords self) with
      | Ok _ => create_content self env w = (Ok true, w') ∧ is_Some (content_pool_file w')
      | Raise _ => create_content self env w = (Ok false, w')
      end.
Proof.
  intros Htd. unfold create_content, try_except.
  repeat (unfold bind at 1; simpl; rewrite ?Htd).
  unfold scan_trends, try_except.
  repeat (unfold bind at 1; simpl).
  unfold lift. destruct (trend_scanner_scan_trends env (keywords self)) as [tr|e]; simpl.
  - repeat (unfold bind at 1; simpl).
    match goal with |- context [_load_content_pool self ?w0] =>
      destruct (load_content_pool_runs w0) as (pool0 & w2 & -> & Hc2 & _) end.
    destruct (generate_all_runs tr (platforms self) pool0 w2) as (pool' & w3 & -> & Hc3 & _).
    eexists. split; [|split; [done | by eexists]].
    simpl. rewrite Hc3, Hc2. simpl. by rewrite <- app_assoc.
  - repeat (unfold bind at 1; simpl). eexists. split; [|done]. done.
Qed.
End content_creation.

(** ** The scheduling step and content generation *)

(** C5, as amended.  In the scheduling step, content generation is forced
    only when the search for unused content ends without finding any for
    any configured platform: then [create_content] runs before any
    scheduling, with a trend scan first when no trend report is on file
    and one generation call for every configured platform, in order; if
    that scan fails, nothing is generated or scheduled and the step
    returns [False].  When the search finds unused content, nothing is
    generated and a platform that has no unused content in the pool is
    skipped: every call made is an approval request or a call of the
    scheduler agent for a platform that holds unused content.  When the
    search fails on a configured platform that is not a key of the pool,
    nothing is generated or scheduled and the step returns [False]. *)
Theorem schedule_posts_generation_policy self env w pool :
  content_pool_file w = Some pool →
  (has_content pool (platforms self) = Ok true →
     ∃ new, calls (schedule_posts self env w).2 = calls w ++ new
       ∧ Forall (λ c, ∃ p, call_platform c = Some p ∧ has_unused pool p) new)
  ∧ (has_content pool (platforms self) = Ok false →
     is_Some (trend_report_file w)
       ∨ succeeds (trend_scanner_scan_trends env (keywords self)) →
     ∃ rest, calls (schedule_posts self env w).2
               = calls w ++ scan_first self w
                   ++ (GenerateForPlatform <$> platforms self) ++ rest
       ∧ Forall (λ c, is_Some (call_platform c)) rest)
  ∧ (has_content pool (platforms self) = Ok false →
     trend_report_file w = None →
     ¬ succeeds (trend_scanner_scan_trends env (keywords self)) →
     (schedule_posts self env w).1 = Ok false
     ∧ calls (schedule_posts self env w).2 = calls w ++ [ScanTrends (keywords self)]
     ∧ content_pool_file (schedule_posts self env w).2 = Some pool)
  ∧ (∀ e, has_content pool (platforms self) = Raise e →
     (schedule_posts self env w).1 = Ok false
     ∧ calls (schedule_posts self env w).2 = calls w
     ∧ content_pool_file (schedule_posts self env w).2 = Some pool).
Proof.
  intros Hfile. split_and!.
  - intros Hhas. unfold schedule_posts, try_except.
    unfold bind at 1. simpl.
    match goal with |- context [bind (_load_content_pool self) ?k ?w0] =>
      destruct (load_content_pool_runs self w0) as (pool1 & w1 & Hl & _ & _ & Hsame);
      destruct (Hsame pool Hfile) as [-> ->]; unfold bind at 1; rewrite Hl
    end.
    unfold bind at 1. unfold lift at 1. rewrite Hhas. simpl.
    unfold bind at 1. simpl. unfold bind at 1.
    match goal with |- context [schedule_all self env _ pool ?w0] =>
      destruct (schedule_all_emits self env pool (platforms self) pool
                  (no_new_unused_refl pool) w0) as (new & Hc & Hnew & _);
      destruct (schedule_all self env (platforms self) pool w0) as [[pool'|e] w2]
    end; simpl in *; exists new; by rewrite Hc.
  - intros Hhas Hscan. unfold schedule_posts, try_except.
    unfold bind at 1. simpl.
    match goal with |- context [bind (_load_content_pool self) ?k ?w0] =>
      destruct (load_content_pool_runs self w0) as (pool1 & w1 & Hl & _ & _ & Hsame);
      destruct (Hsame pool Hfile) as [-> ->]; unfold bind at 1; rewrite Hl
    end.
    unfold bind at 1. unfold lift at 1. rewrite Hhas. simpl.
    unfold bind at 1. unfold bind at 1. unfold bind at 1. simpl.
    match goal with |- context [create_content self env ?w0] =>
      assert (∃ w2, create_content self env w0 = (Ok true, w2)
                ∧ calls w2 = calls w ++ scan_first self w
                    ++ (GenerateForPlatform <$> platforms self)
                ∧ is_Some (content_pool_file w2)) as (w2 & -> & Hc2 & [pool2 Hp2])
    end.
    { unfold scan_first. destruct (trend_report_file w) as [td|] eqn:Htd.
      - match goal with |- context [create_content self env ?w0] =>
          destruct (create_content_with_report self env w0 td eq_refl) as (w2 & ? & ? & ?) end.
        by exists w2.
      - destruct Hscan as [[? [=]]|[tr Htr]].
        match goal with |- context [create_content self env ?w0] =>
          destruct (create_content_without_report self env w0 eq_refl) as (w2 & Hc & Hr) end.
        rewrite Htr in Hc, Hr. destruct Hr as [? ?]. by exists w2. }
    simpl. unfold bind at 1.
    destruct (load_content_pool_runs self w2) as (pool3 & w3 & Hl3 & _ & _ & Hsame3).
    destruct (Hsame3 pool2 Hp2) as [-> ->]. rewrite Hl3. simpl.
    unfold bind at 1.
    destruct (schedule_all_emits self env pool2 (platforms self) pool2
                (no_new_unused_refl pool2) w2) as (new & Hc & Hnew & _).
    exists new. split.
    + destruct (schedule_all self env (platforms self) pool2 w2) as [[pool'|e] w4];
        simpl in *; rewrite Hc, Hc2; by rewrite <- !app_assoc.
    + eapply Forall_impl; [exact Hnew|]. intros c (p & -> & _). by eexists.
  - intros Hhas Hreport Hscan.
    unfold schedule_posts, create_content, scan_trends, _load_content_pool, try_except,
      bind, get, lift, logger, record_call, ret.
    simpl. rewrite Hfile. simpl. rewrite Hhas. simpl. rewrite Hreport. simpl.
    destruct (trend_scanner_scan_trends env (keywords self)) as [trends|e'];
      [by destruct Hscan; eexists|].
    simpl. by rewrite ?Hfile.
  - intros e Hhas.
    unfold schedule_posts, _load_content_pool, try_except, bind, get, lift, logger, ret.
    simpl. rewrite Hfile. simpl. rewrite Hhas. simpl. by rewrite ?Hfile.
Qed.

(** ** Failures *)

Section failures.
Variables (self : Orchestrator) (env : Env).

Lemma try_except_returns {A} (m : M A) (h : exn → M A) w :
  (∀ e w1, succeeds (h e w1).1) → succeeds (try_except m h w).1.
Proof.
  intros Hh. unfold try_except. destruct (m w) as [[a|e] w1]; [by exists a | apply Hh].
Qed.

(** no method of the cycle lets an exception out *)
Lemma scan_trends_returns w : succeeds (scan_trends self env w).1.
Proof. apply try_except_returns. intros e w1. by exists false. Qed.

Lemma create_content_returns w : succeeds (create_content self env w).1.
Proof. apply try_except_returns. intros e w1. by exists false. Qed.

Lemma schedule_posts_returns w : succeeds (schedule_posts self env w).1.
Proof. apply try_except_returns. intros e w1. by exists false. Qed.

Lemma run_daily_cycle_returns w : (run_daily_cycle self env w).1 = Ok tt.
Proof.
  unfold run_daily_cycle.
  match goal with |- (try_except ?m ?h w).1 = _ =>
    destruct (try_except_returns m h w) as [[] Hu]; [by intros; exists tt | exact Hu]
  end.
Qed.

(** an exception raised for one platform ends the scheduling loop: the
    platforms after it are not reached *)
Lemma schedule_all_stops platform rest pool w e w1 :
  schedule_platform self env platform pool w = (Raise e, w1) →
  schedule_all self env (platform :: rest) pool w = (Raise e, w1).
Proof. intros H. simpl. unfold bind. by rewrite H. Qed.
End failures.

(** ** Scenarios of the scheduling step *)

(** C5, as stated, fails: with an unused entry for twitter and none for
    instagram the scheduling step generates nothing; instagram is skipped
    with a warning and its pool stays empty. *)
Lemma instagram_skipped_without_generation :
  let w := sample_world pool_twitter_only_content in
  let w' := (schedule_posts sample_orchestrator (sample_env monday_8 []) w).2 in
  pool_on_file w "instagram" = Some []
  ∧ (schedule_posts sample_orchestrator (sample_env monday_8 []) w).1 = Ok true
  ∧ calls w' = [SchedulePost "twitter" "a" (mk_datetime 2024 1 1 9 0)]
  ∧ (GenerateForPlatform "instagram" ∉ calls w')
  ∧ (WARNING, "No unused content available for instagram"%string) ∈ log w'
  ∧ pool_on_file w' "instagram" = Some [].
Proof.
  vm_compute. split_and!; try done.
  - intros H. apply list_elem_of_singleton in H. discriminate.
  - do 3 apply list_elem_of_further. apply list_elem_of_here.
Qed.

Lemma schedule_posts_generation_policy_witness :
  content_pool_file (sample_world pool_twitter_only_content)
    = Some pool_twitter_only_content
  ∧ has_content pool_twitter_only_content (platforms sample_orchestrator) = Ok true
  ∧ ∃ new, calls (schedule_posts sample_orchestrator (sample_env monday_8 [])
                    (sample_world pool_twitter_only_content)).2 = [] ++ new
      ∧ Forall (λ c, ∃ p, call_platform c = Some p
                          ∧ has_unused pool_twitter_only_content p) new.
Proof.
  split_and!; [reflexivity..|].
  apply (schedule_posts_generation_policy sample_orchestrator (sample_env monday_8 [])
           (sample_world pool_twitter_only_content) pool_twitter_only_content);
    reflexivity.
Defined.

(** C8, at a failing input.  Twitter and instagram both hold an unused
    entry.  When every call is answered both are scheduled; when the
    scheduler agent raises for twitter the cycle ends at the handler of
    [schedule_posts]: instagram is never reached and its entry stays
    unused.  The same happens when the pool on file has no key for
    twitter. *)
Theorem scheduling_failure_skips_remaining_platforms :
  let w := sample_world pool_two_platforms in
  let served := (run_daily_cycle sample_orchestrator (sample_env monday_8 []) w).2 in
  let w' := (run_daily_cycle sample_orchestrator (sample_env monday_8 ["twitter"%string]) w).2 in
  let v' := (run_daily_cycle sample_orchestrator (sample_env monday_8 [])
               (sample_world pool_without_twitter)).2 in
  calls served = [SchedulePost "twitter" "a" (mk_datetime 2024 1 1 9 0);
                SchedulePost "instagram" "b" (mk_datetime 2024 1 1 10 30)]
  ∧ calls w' = [SchedulePost "twitter" "a" (mk_datetime 2024 1 1 9 0)]
  ∧ pool_on_file w' "instagram" = Some [sample_item "b"]
  ∧ (ERROR, "Error scheduling posts"%string) ∈ log w'
  ∧ calls v' = []
  ∧ pool_on_file v' "instagram" = Some [sample_item "b"]
  ∧ (ERROR, "Error scheduling posts"%string) ∈ log v'.
Proof.
  vm_compute. split_and!; try done.
  - do 5 apply list_elem_of_further. apply list_elem_of_here.
  - do 4 apply list_elem_of_further. apply list_elem_of_here.
Qed.

(** C2, at a failing input.  The pool on file has an unused entry [a] for
    twitter and no key for instagram.  In the cycle of 08:00 the entry is
    handed to the scheduler agent, which answers 'scheduled'; the lookup
    for instagram then raises, and the pool, with its mark, is not saved.
    In the cycle of 10:00 the same entry is scheduled again.  The same
    happens when the scheduler agent raises for a later platform. *)
Theorem entry_scheduled_twice_after_failure :
  let envs := [sample_env monday_8 []; sample_env monday_10 []] in
  let w' := run_cycles sample_orchestrator envs (sample_world pool_without_instagram) in
  let failing := [sample_env monday_8 ["instagram"%string];
                  sample_env monday_10 ["instagram"%string]] in
  let v' := run_cycles sample_orchestrator failing (sample_world pool_two_platforms) in
  calls w' = [SchedulePost "twitter" "a" (mk_datetime 2024 1 1 9 0);
              SchedulePost "twitter" "a" (mk_datetime 2024 1 1 12 0)]
  ∧ (∀ now t, scheduler_schedule_post (sample_env now []) "twitter" (sample_item "a") t "a"
              = Ok (Some "scheduled"%string))
  ∧ pool_on_file w' "twitter" = Some [sample_item "a"]
  ∧ used (sample_item "a") = false
  ∧ calls v' = [SchedulePost "twitter" "a" (mk_datetime 2024 1 1 9 0);
                SchedulePost "instagram" "b" (mk_datetime 2024 1 1 10 30);
                SchedulePost "twitter" "a" (mk_datetime 2024 1 1 12 0);
                SchedulePost "instagram" "b" (mk_datetime 2024 1 1 10 30)]
  ∧ pool_on_file v' "twitter" = Some [sample_item "a"].
Proof. by vm_compute. Qed.

(** ** The approval gate *)

Section keeps_data_rules.
Context {A B : Type}.

Lemma same_data_refl w : same_data w w.
Proof. by unfold same_data. Qed.

Lemma same_data_trans w1 w2 w3 : same_data w1 w2 → same_data w2 w3 → same_data w1 w3.
Proof.
  unfold same_data. intros (? & ? & ? & ?) (? & ? & ? & ?). split_and!; congruence.
Qed.

Lemma keeps_ret (a : A) : keeps_data (ret a).
Proof. intros w. apply same_data_refl. Qed.

Lemma keeps_lift (r : result A) : keeps_data (lift r).
Proof. intros w. apply same_data_refl. Qed.

Lemma keeps_bind (m : M A) (k : A → M B) :
  keeps_data m → (∀ a, keeps_data (k a)) → keeps_data (bind m k).
Proof.
  intros Hm Hk w. specialize (Hm w). unfold bind.
  destruct (m w) as [[a|e] w1]; simpl in *; [|done].
  eapply same_data_trans; [exact Hm | apply Hk].
Qed.

Lemma keeps_try (m : M A) (h : exn → M A) :
  keeps_data m → (∀ e, keeps_data (h e)) → keeps_data (try_except m h).
Proof.
  intros Hm Hh w. specialize (Hm w). unfold try_except.
  destruct (m w) as [[a|e] w1]; simpl in *; [done|].
  eapply same_data_trans; [exact Hm | apply Hh].
Qed.
End keeps_data_rules.

Lemma keeps_logger lv msg : keeps_data (logger lv msg).
Proof. by intros w. Qed.

Lemma keeps_record_call c : keeps_data (record_call c).
Proof. by intros w. Qed.

Ltac keeps_seq :=
  repeat first
    [ apply keeps_logger | apply keeps_record_call | apply keeps_ret | apply keeps_lift
    | apply keeps_bind; [|intros ?] | apply keeps_try; [|intros ?] ].

Section approval_gate.
Variables (self : Orchestrator) (env : Env).
Implicit Types (pool : gmap string (list ContentItem)).

Lemma request_human_approval_keeps platform content t :
  keeps_data (_request_human_approval env platform content t).
Proof. unfold _request_human_approval. keeps_seq. Qed.

Lemma schedule_item_keeps platform unused times i pool :
  keeps_data (schedule_item self env platform unused times i pool).
Proof.
  unfold schedule_item. keeps_seq.
  - destruct (human_review self); [apply request_human_approval_keeps | keeps_seq].
  - destruct (negb _); keeps_seq. case_bool_decide; keeps_seq.
Qed.

Lemma schedule_items_keeps platform unused times todo pool :
  keeps_data (schedule_items self env platform unused times todo pool).
Proof.
  revert pool. induction todo as [|i rest IH]; intros pool; simpl; [keeps_seq|].
  apply keeps_bind; [apply schedule_item_keeps | intros ?; apply IH].
Qed.

Lemma schedule_platform_keeps platform pool :
  keeps_data (schedule_platform self env platform pool).
Proof.
  unfold schedule_platform. keeps_seq.
  destruct (unused_content _); keeps_seq. apply schedule_items_keeps.
Qed.

(** the scheduling loop writes no file: what it marks lives in the pool
    it returns *)
Lemma schedule_all_keeps todo pool : keeps_data (schedule_all self env todo pool).
Proof.
  revert pool. induction todo as [|platform rest IH]; intros pool; simpl; [keeps_seq|].
  apply keeps_bind; [apply schedule_platform_keeps | intros ?; apply IH].
Qed.

Hypothesis review : human_review self = true.
Hypothesis rejects : ∀ platform content t, ¬ approves env platform content t.

Lemma request_human_approval_rejects platform content t :
  emits (_request_human_approval env platform content t)
    is_approval_request (λ approved, approved = false).
Proof.
  unfold _request_human_approval. apply emits_try.
  - eapply emits_bind; [apply emits_record_call; by eexists _, _, _ | intros ? _].
    eapply emits_bind with (R := λ line, input env platform content t = Ok line).
    { by apply emits_lift. }
    intros line Hline. apply emits_ret. apply bool_decide_eq_false_2.
    intros Hyes. apply (rejects platform content t). by exists line.
  - intros e. eapply emits_bind; [emits_step | intros ? _]. by apply emits_ret.
Qed.

Lemma schedule_item_rejected platform unused times i pool :
  emits (schedule_item self env platform unused times i pool)
    is_approval_request (λ pool', pool' = pool).
Proof.
  unfold schedule_item. rewrite review.
  eapply emits_bind; [emits_step | intros entry _].
  eapply emits_bind; [emits_step | intros posting_time _].
  eapply emits_bind; [apply request_human_approval_rejects | intros approved ->].
  simpl. eapply emits_bind; [emits_step | intros ? _]. by apply emits_ret.
Qed.

Lemma schedule_items_rejected platform unused times todo pool :
  emits (schedule_items self env platform unused times todo pool)
    is_approval_request (λ pool', pool' = pool).
Proof.
  induction todo as [|i rest IH]; simpl; [by apply emits_ret|].
  eapply emits_bind; [apply schedule_item_rejected | by intros ? ->].
Qed.

Lemma schedule_all_rejected todo pool :
  emits (schedule_all self env todo pool) is_approval_request (λ pool', pool' = pool).
Proof.
  induction todo as [|platform rest IH]; simpl; [by apply emits_ret|].
  eapply emits_bind with (R := λ pool', pool' = pool); [|by intros ? ->].
  unfold schedule_platform.
  eapply emits_bind; [emits_step | intros items _].
  destruct (unused_content items).
  - eapply emits_bind; [emits_step | intros ? _]. by apply emits_ret.
  - eapply emits_bind; [emits_step | intros ? _]. apply schedule_items_rejected.
Qed.

(** When the approval gate answers no, the entries offered stay unused:
    the scheduling step hands nothing to the scheduler agent and leaves
    the pool on file as it is, so the next cycle offers them again. *)
Lemma rejected_entries_stay_unused w pool :
  content_pool_file w = Some pool →
  has_content pool (platforms self) = Ok true →
  content_pool_file (schedule_posts self env w).2 = Some pool
  ∧ ∃ new, calls (schedule_posts self env w).2 = calls w ++ new
           ∧ Forall is_approval_request new.
Proof.
  intros Hfile Hhas.
  remember (schedule_posts self env w) as res eqn:Hres.
  unfold schedule_posts, try_except in Hres.
  unfold bind at 1 in Hres. simpl in Hres.
  match type of Hres with context [bind (_load_content_pool self) ?k ?w0] =>
    destruct (load_content_pool_runs self w0) as (pool1 & w1 & Hl & _ & _ & Hsame);
    destruct (Hsame pool Hfile) as [-> ->]; unfold bind at 1 in Hres; rewrite Hl in Hres
  end.
  unfold bind at 1 in Hres. unfold lift at 1 in Hres. rewrite Hhas in Hres.
  simpl in Hres. unfold bind at 1 in Hres. simpl in Hres. unfold bind at 1 in Hres.
  match type of Hres with context [schedule_all self env _ pool ?w0] =>
    destruct (schedule_all_rejected (platforms self) pool w0) as (new & Hc & Hnew & Hret);
    pose proof (schedule_all_keeps (platforms self) pool w0) as (_ & _ & _ & Hkeep);
    destruct (schedule_all self env (platforms self) pool w0) as [[pool'|e] w2]
  end; simpl in *; subst res; simpl.
  - rewrite (Hret pool' eq_refl). split; [done|]. exists new. by rewrite Hc.
  - rewrite Hkeep. split; [done|]. exists new. by rewrite Hc.
Qed.
End approval_gate.

Section marking.
Variables (self : Orchestrator) (env : Env).
Implicit Types (pool : gmap string (list ContentItem)).

Lemma bind_Ok_inv {A B} (m : M A) (k : A → M B) w b w' :
  bind m k w = (Ok b, w') → ∃ a w1, m w = (Ok a, w1) ∧ k a w1 = (Ok b, w').
Proof.
  unfold bind. destruct (m w) as [[a|e] w1]; [|by intros [=]]. by exists a, w1.
Qed.

Lemma lift_Ok_inv {A} (r : result A) w a w1 :
  lift r w = (Ok a, w1) → r = Ok a ∧ w1 = w.
Proof. by intros [= -> ->]. Qed.

Lemma request_human_approval_true platform content t w w1 :
  _request_human_approval env platform content t w = (Ok true, w1) →
  approves env platform content t.
Proof.
  unfold _request_human_approval, try_except, bind, lift, record_call, logger, ret.
  simpl. destruct (input env platform content t) as [line|e] eqn:Hin; simpl;
    [|by intros [=]].
  intros [= Hyes _]. apply bool_decide_eq_true_1 in Hyes. by exists line.
Qed.

(** An entry is marked used only after the scheduler agent has answered
    'scheduled' for it, and, under human review, after its approval; in
    every other case the pool is passed on as it was. *)
Lemma schedule_item_marks_after_success platform unused times i pool w pool' w' :
  schedule_item self env platform unused times i pool w = (Ok pool', w') →
  pool' = pool
  ∨ ∃ entry t,
      list_getitem unused i = Ok entry ∧ list_getitem times i = Ok t
      ∧ (human_review self = true → approves env platform entry.2 t)
      ∧ scheduler_schedule_post env platform entry.2 t (id entry.2)
        = Ok (Some "scheduled"%string)
      ∧ SchedulePost platform (id entry.2) t ∈ calls w'
      ∧ pool' = alter (alter (λ c, mark_used c t) entry.1) platform pool.
Proof.
  unfold schedule_item. intros H.
  apply bind_Ok_inv in H as (entry & w1 & [Hentry ->]%lift_Ok_inv & H).
  apply bind_Ok_inv in H as (t & w1 & [Ht ->]%lift_Ok_inv & H).
  apply bind_Ok_inv in H as (approved & w1 & Happ & H).
  destruct approved; simpl in H.
  - apply bind_Ok_inv in H as ([] & w2 & _ & H).
    apply bind_Ok_inv in H as ([] & w3 & Hcall & H).
    apply bind_Ok_inv in H as (status & w4 & [Hst ->]%lift_Ok_inv & H).
    case_bool_decide as Hsched.
    + apply bind_Ok_inv in H as ([] & w5 & Hlog & H).
      injection H as <- <-. right. exists entry, t. subst status.
      split_and!; try done.
      * intros Hrev. rewrite Hrev in Happ. by eapply request_human_approval_true.
      * injection Hlog as <-. injection Hcall as <-. simpl.
        rewrite elem_of_app. right. apply list_elem_of_here.
    + apply bind_Ok_inv in H as ([] & w5 & _ & H). injection H as <- <-. by left.
  - apply bind_Ok_inv in H as ([] & w2 & _ & H). injection H as <- <-. by left.
Qed.
End marking.

(** * Properties of the post dispatcher *)

Section dispatcher_facts.
Variable publisher : nat → string → string → publish_result.

Lemma dispatch_scheduled d platform content t pid :
  dispatch publisher (schedule_post d platform content t pid) pid
  = attempt publisher (max_retries d) (schedule_post d platform content t pid)
      {| post_id := pid; post_platform := platform; content_ref := content;
         post_scheduled_time := t; status := pending; attempt_count := 0 |}.
Proof.
  unfold dispatch, schedule_post, persist. simpl.
  by rewrite lookup_insert_eq.
Qed.

(** in dry-run mode one attempt settles the post, and the publisher is
    not called *)
Lemma attempt_dry_run budget d p :
  dry_run d = true →
  attempt publisher budget d p = persist d (with_status p dispatched).
Proof.
  intros Hdry. destruct budget; simpl; unfold publish; by rewrite Hdry.
Qed.

(** a real run whose first publish call succeeds *)
Lemma attempt_success budget d p remote_id :
  dry_run d = false →
  publisher (length (publisher_calls d)) (post_platform p) (content_ref p)
    = PublishResult remote_id →
  transitions (attempt publisher budget d p)
    = transitions d ++ [(post_id p, dispatched)]
  ∧ publisher_calls (attempt publisher budget d p)
    = publisher_calls d ++ [(post_platform p, content_ref p)].
Proof.
  intros Hdry Hpub. destruct budget; simpl; unfold publish; by rewrite Hdry, Hpub.
Qed.
End dispatcher_facts.

(** C9. With [dry_run] set, [schedule_post] followed by the dispatch of
    the post ends in status [dispatched] without any call of the
    publisher, and the statuses written are those of a real run whose
    publish call succeeds: [pending], then [dispatched]. *)
Theorem dry_run_dispatches_without_publisher publisher d platform content t pid :
  dry_run d = true →
  let d' := dispatch publisher (schedule_post d platform content t pid) pid in
  (status <$> post_log d' !! pid) = Some dispatched
  ∧ publisher_calls d' = publisher_calls d
  ∧ transitions d' = transitions d ++ [(pid, pending); (pid, dispatched)]
  ∧ ∀ real succeeding remote_id,
      dry_run real = false → transitions real = transitions d →
      (∀ k, succeeding k platform content = PublishResult remote_id) →
      transitions (dispatch succeeding (schedule_post real platform content t pid) pid)
      = transitions d'.
Proof.
  intros Hdry d'. subst d'. rewrite dispatch_scheduled.
  rewrite attempt_dry_run by done. simpl.
  rewrite lookup_insert_eq. split_and!; [done | done | by rewrite <- app_assoc |].
  intros real succeeding remote_id Hreal Htr Hsucc.
  rewrite dispatch_scheduled.
  edestruct (attempt_success succeeding (max_retries real)
               (schedule_post real platform content t pid)) as [-> _];
    [done | apply Hsucc |].
  simpl. by rewrite Htr, <- app_assoc.
Qed.

Lemma dry_run_dispatches_without_publisher_witness :
  let d := PostDispatcher_init true 3 in
  let d' := dispatch (λ _ _ _, PermanentExternalError)
              (schedule_post d "twitter" "text" (mk_datetime 2024 1 1 9 0) "twitter_1")
              "twitter_1" in
  dry_run d = true
  ∧ (status <$> post_log d' !! "twitter_1"%string) = Some dispatched
  ∧ publisher_calls d' = []
  ∧ transitions d' = [("twitter_1"%string, pending); ("twitter_1"%string, dispatched)].
Proof.
  destruct (dry_run_dispatches_without_publisher (λ _ _ _, PermanentExternalError)
              (PostDispatcher_init true 3) "twitter" "text"
              (mk_datetime 2024 1 1 9 0) "twitter_1" eq_refl) as (H1 & H2 & H3 & _).
  split_and!; [reflexivity | exact H1 | exact H2 | exact H3].
Defined.

(** * Further properties of the time slot planner *)

(** ** Sorting *)

Section sorting_facts.
Implicit Types (l : list (Z * Z)) (x y z : Z * Z).

Lemma tuple_leb_le x y : tuple_leb x y = true ↔ tuple_le x y.
Proof.
  unfold tuple_leb, tuple_le.
  rewrite orb_true_iff, andb_true_iff, Z.ltb_lt, Z.eqb_eq, Z.leb_le. tauto.
Qed.

Lemma tuple_le_total x y : tuple_le x y ∨ tuple_le y x.
Proof. unfold tuple_le. lia. Qed.

Lemma tuple_le_trans x y z : tuple_le x y → tuple_le y z → tuple_le x z.
Proof. unfold tuple_le. lia. Qed.

Lemma insert_sorted_sorted x l :
  StronglySorted tuple_le l → StronglySorted tuple_le (insert_sorted x l).
Proof.
  induction 1 as [|y l Hl IH Hy]; simpl.
  - repeat constructor.
  - destruct (tuple_leb x y) eqn:Hxy.
    + apply tuple_leb_le in Hxy. constructor; [by constructor|].
      constructor; [done|]. eapply Forall_impl; [exact Hy|].
      intros z Hz. by eapply tuple_le_trans.
    + constructor; [done|]. apply Forall_forall. intros z Hz.
      apply elem_of_insert_sorted in Hz as [->|Hz].
      * destruct (tuple_le_total x y) as [Hle|Hle]; [|done].
        apply tuple_leb_le in Hle. congruence.
      * rewrite Forall_forall in Hy. by apply Hy.
Qed.

(** [list.sort()] sorts. *)
Lemma list_sort_sorted l : StronglySorted tuple_le (list_sort l).
Proof.
  induction l as [|x l IH]; simpl; [constructor|]. by apply insert_sorted_sorted.
Qed.

Lemma filter_sorted (P : Z * Z → Prop) `{∀ x, Decision (P x)} l :
  StronglySorted tuple_le l → StronglySorted tuple_le (filter P l).
Proof.
  induction 1 as [|y l Hl IH Hy]; [constructor|].
  rewrite filter_cons. destruct (decide (P y)); [|done].
  constructor; [done|]. apply Forall_forall. intros z Hz.
  apply list_elem_of_filter in Hz as [_ Hz]. rewrite Forall_forall in Hy. by apply Hy.
Qed.

(** the first element of a sorted list is the least *)
Lemma sorted_head_least x l y :
  StronglySorted tuple_le (x :: l) → y ∈ x :: l → tuple_le x y.
Proof.
  intros Hs Hy. apply StronglySorted_inv in Hs as [_ Hx].
  apply elem_of_cons in Hy as [->|Hy].
  - unfold tuple_le. lia.
  - rewrite Forall_forall in Hx. by apply Hx.
Qed.
End sorting_facts.

(** ** What [get_optimal_time] returns *)

Section answer_facts.
Implicit Types (t : datetime) (pt : list slot) (offsets : list Z).

Lemma for_day_offset_cons pt t o rest :
  for_day_offset pt t (o :: rest)
  = match day_times_at pt t o with
    | (h, m) :: _ => replace_hm (t + mk_timedelta o 0 0) h m
    | [] => for_day_offset pt t rest
    end.
Proof. done. Qed.

Lemma day_times_at_sorted pt t o : StronglySorted tuple_le (day_times_at pt t o).
Proof.
  unfold day_times_at. case_bool_decide.
  - unfold future_times. apply filter_sorted, list_sort_sorted.
  - apply list_sort_sorted.
Qed.

Lemma elem_of_day_times_at pt t o h m :
  (h, m) ∈ day_times_at pt t o ↔
  (h, m) ∈ times_of_day pt ((weekday t + o) mod 7)
  ∧ (o = 0 → h > hour t ∨ (h = hour t ∧ m > minute t)).
Proof.
  unfold day_times_at. case_bool_decide as Ho.
  - unfold future_times. rewrite list_elem_of_filter, elem_of_list_sort. simpl. tauto.
  - rewrite elem_of_list_sort. tauto.
Qed.

Lemma elem_of_times_of_day pt day h m :
  (h, m) ∈ times_of_day pt day ↔ (day, h, m) ∈ pt.
Proof.
  unfold times_of_day. rewrite list_elem_of_fmap. split.
  - intros ([[d' h'] m'] & [= -> ->] & Hs).
    apply list_elem_of_filter in Hs as [Hd Hs]. simpl in Hd. by subst.
  - intros Hs. exists (day, h, m). split; [done|].
    by apply list_elem_of_filter.
Qed.

Lemma replace_hm_at_day_time t o h m :
  0 ≤ h < 24 → 0 ≤ m < 60 →
  replace_hm (t + mk_timedelta o 0 0) h m = Ok (at_day_time t o h m).
Proof.
  intros Hh Hm. rewrite replace_hm_ok, date_part_add_days by done. done.
Qed.

(** The answer is the first time of day left on the first day offset that
    has one, or else the fallback. *)
Lemma for_day_offset_answer pt t offsets r :
  Forall wf_slot pt → for_day_offset pt t offsets = Ok r →
  (∃ before o after h m tl,
      offsets = before ++ o :: after
      ∧ (∀ o', o' ∈ before → day_times_at pt t o' = [])
      ∧ day_times_at pt t o = (h, m) :: tl
      ∧ r = at_day_time t o h m)
  ∨ ((∀ o', o' ∈ offsets → day_times_at pt t o' = [])
     ∧ r = replace_s0 (t + mk_timedelta 1 0 0)).
Proof.
  intros Hwf. induction offsets as [|o rest IH].
  - intros [= <-]. right. split; [|done]. intros o' Ho'. by apply elem_of_nil in Ho'.
  - rewrite for_day_offset_cons.
    destruct (day_times_at pt t o) as [|[h m] tl] eqn:Hday.
    + intros Hr. destruct (IH Hr) as [(before & o1 & after & h & m & tl & -> & Hb & Hd & ->)|[Hall ->]].
      * left. exists (o :: before), o1, after, h, m, tl. split_and!; try done.
        intros o' [->|Ho']%elem_of_cons; [done | by apply Hb].
      * right. split; [|done]. intros o' [->|Ho']%elem_of_cons; [done | by apply Hall].
    + assert ((h, m) ∈ day_times_at pt t o) as Hin by (rewrite Hday; apply list_elem_of_here).
      apply elem_of_day_times_at in Hin as [Hin _].
      apply (times_of_day_wf _ _ _ Hwf) in Hin as [Hh Hm]. simpl in Hh, Hm.
      rewrite replace_hm_at_day_time by done. intros [= <-].
      left. exists [], o, rest, h, m, tl. split_and!; try done.
      intros o' Ho'. by apply elem_of_nil in Ho'.
Qed.

Lemma on_slot_at_day_time pt t o h m :
  Forall wf_slot pt → (h, m) ∈ times_of_day pt ((weekday t + o) mod 7) →
  on_slot ((weekday t + o) mod 7, h, m) (at_day_time t o h m).
Proof.
  intros Hwf Hin. pose proof (times_of_day_wf _ _ _ Hwf Hin) as [Hh Hm]. simpl in Hh, Hm.
  unfold on_slot. simpl.
  rewrite weekday_at_day_time, hour_at_day_time, minute_at_day_time by done.
  split_and!; try done. unfold whole_minute, at_day_time, date_part.
  replace (t / US_PER_DAY * US_PER_DAY + o * US_PER_DAY + h * US_PER_HOUR + m * US_PER_MINUTE)
    with ((((t / US_PER_DAY + o) * 24 + h) * 60 + m) * US_PER_MINUTE)
    by (unfold US_PER_DAY, US_PER_HOUR; lia).
  apply Z_mod_mult.
Qed.

(** an occurrence of a slot, seen from the day of [t] *)
Lemma on_slot_decompose t s u :
  wf_slot s → on_slot s u →
  u = at_day_time t (u / US_PER_DAY - t / US_PER_DAY) s.1.2 s.2
  ∧ s.1.1 = (weekday t + (u / US_PER_DAY - t / US_PER_DAY)) mod 7.
Proof.
  intros [Hh Hm] (Hw & Hhu & Hmu & Hwhole). split.
  - pose proof (time_of_day_bounds u) as Hb. rewrite Hhu, Hmu in Hb.
    unfold whole_minute in Hwhole. unfold at_day_time, date_part in *.
    assert (u = u / US_PER_DAY * US_PER_DAY + s.1.2 * US_PER_HOUR + s.2 * US_PER_MINUTE).
    { unfold US_PER_DAY, US_PER_HOUR, US_PER_MINUTE, US_PER_SECOND in *.
      Z.div_mod_to_equations. lia. }
    lia.
  - rewrite <- Hw. unfold weekday.
    replace (u / US_PER_DAY) with (t / US_PER_DAY + (u / US_PER_DAY - t / US_PER_DAY)) at 1 by lia.
    by rewrite Zplus_mod_idemp_l.
Qed.
End answer_facts.

Section earliest_slot.
Implicit Types (t u : datetime) (pt : list slot).

Lemma range_lookup d (i : nat) x : range d !! i = Some x → x = Z.of_nat i.
Proof.
  unfold range. rewrite list_lookup_fmap. intros Hx.
  destruct (seq 0 (Z.to_nat d) !! i) as [k|] eqn:Hk; [|done].
  apply lookup_seq in Hk as [-> _]. by injection Hx as <-.
Qed.

Lemma range_split_lt d before o after x :
  range d = before ++ o :: after → x ∈ after → o < x.
Proof.
  intros Heq Hx. apply list_elem_of_lookup in Hx as [j Hj].
  assert (range d !! length before = Some o) as Ho
    by (rewrite Heq; apply list_lookup_middle; done).
  assert (range d !! (length before + S j)%nat = Some x) as Hx.
  { rewrite Heq, lookup_app_r by lia.
    replace (length before + S j - length before)%nat with (S j) by lia. done. }
  apply range_lookup in Ho, Hx. lia.
Qed.

Lemma get_optimal_time_table now self platform from_time d :
  get_optimal_time now self platform from_time d
  = match table_of self platform with
    | Some pt => for_day_offset pt (default now from_time) (range d)
    | None => Raise (KeyError "twitter")
    end.
Proof.
  unfold get_optimal_time, table_of, getitem. case_bool_decide as Hk.
  - by destruct Hk as [pt ->].
  - by destruct (optimal_times self !! "twitter"%string).
Qed.

Lemma table_of_wf self platform pt :
  wf_scheduler self → table_of self platform = Some pt → Forall wf_slot pt.
Proof.
  intros [_ Hwf]. unfold table_of. case_bool_decide; intros Hpt; by eapply Hwf.
Qed.

(** a slot occurrence after [t], in the days scanned, is among the times
    of day left at its day offset *)
Lemma slot_in_window pt t d s u :
  Forall wf_slot pt → s ∈ pt → on_slot s u → t < u → u < date_part t + d * US_PER_DAY →
  let o := u / US_PER_DAY - t / US_PER_DAY in
  o ∈ range d ∧ (s.1.2, s.2) ∈ day_times_at pt t o ∧ u = at_day_time t o s.1.2 s.2.
Proof.
  intros Hwf Hs Hon Hlater Hwin o.
  assert (wf_slot s) as Hwfs by (rewrite Forall_forall in Hwf; by apply Hwf).
  destruct (on_slot_decompose t s u Hwfs Hon) as [Hu Hday]. fold o in Hu, Hday.
  assert (0 ≤ o < d) as Ho.
  { subst o. unfold date_part in Hwin.
    unfold US_PER_DAY, US_PER_HOUR, US_PER_MINUTE, US_PER_SECOND in *.
    Z.div_mod_to_equations. nia. }
  split_and!; [| |done].
  - unfold range. apply list_elem_of_fmap. exists (Z.to_nat o). split; [lia|].
    apply elem_of_seq. lia.
  - apply elem_of_day_times_at. split.
    + apply (proj2 (elem_of_times_of_day _ _ _ _)). rewrite <- Hday.
      by destruct s as [[??]?].
    + intros Ho0. pose proof (time_of_day_bounds t) as Hb.
      pose proof (hour_range t). pose proof (minute_range t).
      destruct Hwfs as [Hh Hm]. rewrite Hu, Ho0 in Hlater. unfold at_day_time in Hlater.
      unfold US_PER_DAY, US_PER_HOUR, US_PER_MINUTE, US_PER_SECOND in *. lia.
Qed.
End earliest_slot.

(** X1. [get_optimal_time] returns the earliest slot: when an occurrence
    [u] of a slot of the platform's table lies after [from_time] within
    the days scanned (the day of [from_time] and the [max_days_ahead - 1]
    days after it), the answer is an occurrence of a slot of the table and
    is not later than [u]. *)
Theorem get_optimal_time_earliest_slot now self platform from_time max_days_ahead pt r s u :
  wf_scheduler self → table_of self platform = Some pt →
  get_optimal_time now self platform from_time max_days_ahead = Ok r →
  s ∈ pt → on_slot s u → default now from_time < u →
  u < date_part (default now from_time) + max_days_ahead * US_PER_DAY →
  r ≤ u ∧ ∃ s', s' ∈ pt ∧ on_slot s' r.
Proof.
  intros Hself Htable Hr Hs Hon Hlater Hwin.
  pose proof (table_of_wf _ _ _ Hself Htable) as Hwf.
  rewrite get_optimal_time_table, Htable in Hr.
  set (t := default now from_time) in *.
  destruct (slot_in_window pt t max_days_ahead s u Hwf Hs Hon Hlater Hwin)
    as (Ho & Hin & Hu).
  set (ou := u / US_PER_DAY - t / US_PER_DAY) in *.
  destruct (for_day_offset_answer pt t _ r Hwf Hr)
    as [(before & o & after & h & m & tl & Hsplit & Hbefore & Hday & ->)|[Hnone _]].
  - assert ((h, m) ∈ day_times_at pt t o) as Hhm by (rewrite Hday; apply list_elem_of_here).
    pose proof Hhm as [Hhm' _]%elem_of_day_times_at.
    pose proof (times_of_day_wf _ _ _ Hwf Hhm') as [Hh Hm]. simpl in Hh, Hm.
    split.
    + rewrite Hsplit in Ho. apply elem_of_app in Ho as [Ho|Ho].
      { rewrite (Hbefore _ Ho) in Hin. by apply elem_of_nil in Hin. }
      assert (wf_slot s) as [Hsh Hsm] by (rewrite Forall_forall in Hwf; by apply Hwf).
      apply elem_of_cons in Ho as [Ho|Ho].
      * rewrite Ho, Hday in Hin.
        pose proof (sorted_head_least (h, m) tl _
                      ltac:(rewrite <- Hday; apply day_times_at_sorted) Hin) as Hle.
        rewrite Hu, Ho. unfold tuple_le in Hle. simpl in Hle. unfold at_day_time.
        unfold US_PER_DAY, US_PER_HOUR, US_PER_MINUTE, US_PER_SECOND. lia.
      * pose proof (range_split_lt _ _ _ _ _ Hsplit Ho) as Hlt.
        rewrite Hu. unfold at_day_time.
        unfold US_PER_DAY, US_PER_HOUR, US_PER_MINUTE, US_PER_SECOND. nia.
    + exists ((weekday t + o) mod 7, h, m). split.
      * by apply (proj1 (elem_of_times_of_day _ _ _ _)).
      * by apply (on_slot_at_day_time pt).
  - rewrite (Hnone _ Ho) in Hin. by apply elem_of_nil in Hin.
Qed.

(** X2. When no slot of the table occurs after [from_time] in the days
    scanned, [get_optimal_time] returns [from_time] plus one day, cut to
    the minute: the hour and minute of [from_time], on the next weekday.
    When one does, the answer is an occurrence of a slot before the end
    of the days scanned. *)
Theorem get_optimal_time_fallback_iff now self platform from_time max_days_ahead pt r :
  wf_scheduler self → table_of self platform = Some pt →
  get_optimal_time now self platform from_time max_days_ahead = Ok r →
  let t := default now from_time in
  ((∀ s u, s ∈ pt → on_slot s u → t < u →
           u < date_part t + max_days_ahead * US_PER_DAY → False)
   → r = at_day_time t 1 (hour t) (minute t)
     ∧ weekday r = (weekday t + 1) mod 7 ∧ hour r = hour t ∧ minute r = minute t)
  ∧ ((∃ s u, s ∈ pt ∧ on_slot s u ∧ t < u ∧ u < date_part t + max_days_ahead * US_PER_DAY)
     → ∃ s', s' ∈ pt ∧ on_slot s' r
             ∧ r < date_part t + max_days_ahead * US_PER_DAY).
Proof.
  intros Hself Htable Hr t.
  pose proof (table_of_wf _ _ _ Hself Htable) as Hwf.
  rewrite get_optimal_time_table, Htable in Hr. fold t in Hr.
  pose proof (hour_range t) as Hhr. pose proof (minute_range t) as Hmr.
  destruct (for_day_offset_answer pt t _ r Hwf Hr)
    as [(before & o & after & h & m & tl & Hsplit & Hbefore & Hday & ->)|[Hnone ->]].
  - assert ((h, m) ∈ day_times_at pt t o) as Hhm by (rewrite Hday; apply list_elem_of_here).
    pose proof Hhm as [Hhm' Hfut]%elem_of_day_times_at.
    pose proof (times_of_day_wf _ _ _ Hwf Hhm') as [Hh Hm]. simpl in Hh, Hm.
    assert (o ∈ range max_days_ahead) as Ho
      by (rewrite Hsplit, elem_of_app, elem_of_cons; tauto).
    apply range_bounds in Ho.
    assert (t < at_day_time t o h m < date_part t + max_days_ahead * US_PER_DAY) as Hwin.
    { pose proof (time_of_day_bounds t) as Hb. pose proof (date_part_le t) as Hd.
      unfold at_day_time.
      unfold US_PER_DAY, US_PER_HOUR, US_PER_MINUTE, US_PER_SECOND in *.
      destruct (decide (o = 0)) as [->|Hne]; [|nia].
      destruct Hfut as [Hgt | [-> Hgt]]; [done| |]; nia. }
    split.
    + intros Hno. exfalso.
      apply (Hno ((weekday t + o) mod 7, h, m) (at_day_time t o h m)); try tauto.
      * by apply (proj1 (elem_of_times_of_day _ _ _ _)).
      * by apply (on_slot_at_day_time pt).
    + intros _. exists ((weekday t + o) mod 7, h, m). split_and!; [| |tauto].
      * by apply (proj1 (elem_of_times_of_day _ _ _ _)).
      * by apply (on_slot_at_day_time pt).
  - split.
    + intros _. rewrite replace_s0_next_day.
      rewrite weekday_at_day_time, hour_at_day_time, minute_at_day_time by done. done.
    + intros (s & u & Hs & Hon & Hlater & Hwin). exfalso.
      destruct (slot_in_window pt t max_days_ahead s u Hwf Hs Hon Hlater Hwin)
        as (Ho & Hin & _).
      rewrite (Hnone _ Ho) in Hin. by apply elem_of_nil in Hin.
Qed.

(** ** The built-in tables *)

Section builtin_tables.
Implicit Types (t : datetime) (pt : list slot).

Lemma default_table_of tz platform :
  table_of (PostScheduler_init tz) platform = Some twitter_times
  ∨ table_of (PostScheduler_init tz) platform = Some instagram_times
  ∨ table_of (PostScheduler_init tz) platform = Some linkedin_times.
Proof.
  unfold table_of. case_bool_decide as Hk; [|by left].
  apply default_scheduler_keys in Hk as [-> | [-> | ->]]; auto.
Qed.

(** every weekday is followed, within three days, by a day with a slot *)
Lemma builtin_day_within_three pt w :
  pt = twitter_times ∨ pt = instagram_times ∨ pt = linkedin_times →
  0 ≤ w < 7 →
  ∃ o hm, 1 ≤ o ≤ 3 ∧ hm ∈ times_of_day pt ((w + o) mod 7).
Proof.
  intros Hpt Hw.
  assert (w = 0 ∨ w = 1 ∨ w = 2 ∨ w = 3 ∨ w = 4 ∨ w = 5 ∨ w = 6)
    as [-> | [-> | [-> | [-> | [-> | [-> | ->]]]]]] by lia;
    destruct Hpt as [-> | [-> | ->]];
    first [ exists 1; eexists; split; [lia|]; vm_compute; apply list_elem_of_here
          | exists 2; eexists; split; [lia|]; vm_compute; apply list_elem_of_here
          | exists 3; eexists; split; [lia|]; vm_compute; apply list_elem_of_here ].
Qed.
End builtin_tables.

(** with the built-in tables and a window of four days or more, the
    planner on the time line answers with a slot of the table *)
Lemma builtin_tables_slot now tz platform from_time max_days_ahead :
  4 ≤ max_days_ahead →
  ∃ r pt s,
    get_optimal_time now (PostScheduler_init tz) platform from_time max_days_ahead = Ok r
    ∧ table_of (PostScheduler_init tz) platform = Some pt
    ∧ s ∈ pt ∧ on_slot s r
    ∧ r < date_part (default now from_time) + 4 * US_PER_DAY.
Proof.
  intros Hd. set (t := default now from_time).
  destruct (get_optimal_time_later now (PostScheduler_init tz) platform from_time
              max_days_ahead (default_scheduler_wf tz)) as (r & Hr & _).
  pose proof (default_table_of tz platform) as Hpt.
  assert (∃ pt, table_of (PostScheduler_init tz) platform = Some pt
                ∧ (pt = twitter_times ∨ pt = instagram_times ∨ pt = linkedin_times))
    as (pt & Htable & Hbuiltin) by (destruct Hpt as [?|[?|?]]; eauto 6).
  pose proof (table_of_wf _ _ _ (default_scheduler_wf tz) Htable) as Hwf.
  exists r, pt. pose proof Hr as Hgot.
  rewrite get_optimal_time_table, Htable in Hr. fold t in Hr.
  assert (0 ≤ weekday t < 7) as Hw by (apply Z.mod_pos_bound; lia).
  destruct (builtin_day_within_three pt (weekday t) Hbuiltin Hw)
    as (o & [h m] & Ho & Hhm).
  assert (o ∈ range max_days_ahead) as Hrange.
  { unfold range. apply list_elem_of_fmap. exists (Z.to_nat o). split; [lia|].
    apply elem_of_seq. lia. }
  assert ((h, m) ∈ day_times_at pt t o) as Hin
    by (apply elem_of_day_times_at; split; [done | lia]).
  destruct (for_day_offset_answer pt t _ r Hwf Hr)
    as [(before & o' & after & h' & m' & tl & Hsplit & Hbefore & Hday & ->)|[Hnone _]].
  - assert ((h', m') ∈ day_times_at pt t o') as Hhm'
      by (rewrite Hday; apply list_elem_of_here).
    apply elem_of_day_times_at in Hhm' as [Hhm' _].
    pose proof (times_of_day_wf _ _ _ Hwf Hhm') as [Hh Hm]. simpl in Hh, Hm.
    exists ((weekday t + o') mod 7, h', m'). split_and!; [exact Hgot | done | | |].
    + by apply (proj1 (elem_of_times_of_day _ _ _ _)).
    + by apply (on_slot_at_day_time pt).
    + assert (o' ≤ o) as Hle.
      { rewrite Hsplit in Hrange. apply elem_of_app in Hrange as [Hb|Ha].
        - rewrite (Hbefore _ Hb) in Hin. by apply elem_of_nil in Hin.
        - apply elem_of_cons in Ha as [->|Ha]; [lia|].
          pose proof (range_split_lt _ _ _ _ _ Hsplit Ha). lia. }
      unfold at_day_time.
      unfold US_PER_DAY, US_PER_HOUR, US_PER_MINUTE, US_PER_SECOND. nia.
  - rewrite (Hnone _ Hrange) in Hin. by apply elem_of_nil in Hin.
Qed.

(** X3. With the tables set by [PostScheduler.__init__], a window of at
    least four days (the default is seven) and a [from_time] four days or
    more before [datetime.max], [get_optimal_time] neither raises nor
    uses the fallback: the answer is an occurrence of a slot of the
    platform's table, before the end of the third day after
    [from_time]. *)
Theorem builtin_tables_answer_is_a_slot now tz platform from_time max_days_ahead :
  4 ≤ max_days_ahead →
  in_range (default now from_time) →
  default now from_time + 4 * US_PER_DAY ≤ datetime_max →
  ∃ r pt s,
    get_optimal_time_checked now (PostScheduler_init tz) platform from_time
      max_days_ahead = Ok r
    ∧ table_of (PostScheduler_init tz) platform = Some pt
    ∧ s ∈ pt ∧ on_slot s r
    ∧ r < date_part (default now from_time) + 4 * US_PER_DAY.
Proof.
  intros Hd [Hlow _] Hroom.
  destruct (builtin_tables_slot now tz platform from_time max_days_ahead Hd)
    as (r & pt & s & Hr & Htable & Hs & Hon & Hend).
  exists r, pt, s. split_and!; [|done..].
  apply get_optimal_time_checked_in_range; [apply default_scheduler_wf | done | done |].
  pose proof (date_part_le (default now from_time)). lia.
Qed.

(** ** Further properties of the schedules *)

Section schedule_facts.
Implicit Types (l schedule : list datetime) (t : datetime).

Lemma multi_loop_whole_minutes now self stagger platforms
    (schedule : gmap string datetime) t m :
  map_Forall (λ _ x, whole_minute x) schedule →
  multi_loop now self stagger platforms schedule t = Ok m →
  map_Forall (λ _ x, whole_minute x) m.
Proof.
  revert schedule t. induction platforms as [|platform rest IH]; intros schedule t Hs; simpl.
  - by intros [= <-].
  - destruct (get_optimal_time now self platform (Some t) 7) as [r|e] eqn:Hr;
      [|by intros [=]]. simpl.
    apply IH. apply map_Forall_insert_2; [|done].
    by eapply get_optimal_time_whole_minute.
Qed.

(** one more post: the schedule for [n] posts, and one more entry *)
Lemma bulk_loop_snoc now self platform gap (n : nat) schedule t l :
  wf_scheduler self →
  bulk_loop now self platform gap n schedule t = Ok l →
  ∃ x, bulk_loop now self platform gap (S n) schedule t = Ok (l ++ [x]).
Proof.
  intros Hwf. revert schedule t. induction n as [|n IH]; intros schedule t.
  - simpl. intros [= <-].
    destruct (get_optimal_time_later now self platform (Some t) 7 Hwf) as (r & -> & _).
    simpl. by eexists.
  - intros Hl. change (bulk_loop now self platform gap (S n) schedule t)
      with (get_optimal_time now self platform (Some t) 7 ≫= λ next_time,
            let next_time' :=
              match last schedule with
              | Some prev =>
                  if total_seconds_lt (next_time - prev) (gap * 3600)
                  then prev + mk_timedelta 0 gap 0 else next_time
              | None => next_time
              end in
            bulk_loop now self platform gap n (schedule ++ [next_time'])
              (next_time' + mk_timedelta 0 0 1)) in Hl.
    change (bulk_loop now self platform gap (S (S n)) schedule t)
      with (get_optimal_time now self platform (Some t) 7 ≫= λ next_time,
            let next_time' :=
              match last schedule with
              | Some prev =>
                  if total_seconds_lt (next_time - prev) (gap * 3600)
                  then prev + mk_timedelta 0 gap 0 else next_time
              | None => next_time
              end in
            bulk_loop now self platform gap (S n) (schedule ++ [next_time'])
              (next_time' + mk_timedelta 0 0 1)).
    destruct (get_optimal_time now self platform (Some t) 7) as [r|e]; [|done].
    simpl in *. by apply IH.
Qed.

(** entries more than a minute apart, and after the cursor *)
Lemma bulk_loop_increasing now self platform gap (n : nat) schedule t :
  wf_scheduler self →
  spaced (US_PER_MINUTE + 1) schedule →
  (∀ prev, last schedule = Some prev → prev + US_PER_MINUTE ≤ t) →
  ∃ l, bulk_loop now self platform gap n schedule t = Ok l
       ∧ spaced (US_PER_MINUTE + 1) l
       ∧ ∀ (i : nat) a, (length schedule ≤ i)%nat → l !! i = Some a → t < a.
Proof.
  intros Hwf. revert schedule t.
  induction n as [|n IH]; intros schedule t Hsp Hlast; simpl.
  - exists schedule. split_and!; [done | done |].
    intros i a Hi Ha. apply lookup_lt_Some in Ha. lia.
  - destruct (get_optimal_time_later now self platform (Some t) 7 Hwf)
      as (r & -> & Hr). simpl in Hr. simpl.
    match goal with |- context [bulk_loop _ _ _ _ _ (_ ++ [?x]) _] => set (next := x) end.
    assert (t < next ∧ ∀ prev, last schedule = Some prev → prev + US_PER_MINUTE < next)
      as [Hnext Hprev].
    { subst next. destruct (last schedule) as [prev|]; [|done].
      specialize (Hlast _ eq_refl). unfold total_seconds_lt.
      destruct (Z.ltb_spec (r - prev) (gap * 3600 * US_PER_SECOND)) as [Hlt|Hge].
      - unfold mk_timedelta, US_PER_HOUR, US_PER_MINUTE, US_PER_SECOND in *.
        split; [lia|]. intros ? [= <-]. lia.
      - split; [done|]. intros ? [= <-]. lia. }
    destruct (IH (schedule ++ [next]) (next + mk_timedelta 0 0 1)) as (l & Hl & Hspl & Hafter).
    + apply spaced_snoc; [done|]. intros prev Hp. specialize (Hprev _ Hp).
      unfold US_PER_MINUTE, US_PER_SECOND in *. lia.
    + intros prev. rewrite last_snoc. intros [= <-].
      unfold mk_timedelta, US_PER_MINUTE, US_PER_SECOND. lia.
    + exists l. split_and!; [done | done |].
      intros i a Hi Ha. destruct (decide (i = length schedule)) as [->|Hne].
      * assert (l !! length schedule = Some next) as Hn.
        { assert (schedule ++ [next] `prefix_of` l) as [k ->].
          { clear -Hl. revert Hl. generalize (schedule ++ [next]) (next + mk_timedelta 0 0 1).
            induction n as [|n IHn]; intros s c; simpl.
            - intros [= <-]. done.
            - destruct (get_optimal_time now self platform (Some c) 7); [|by intros [=]].
              simpl. intros Hl. apply IHn in Hl. etrans; [|exact Hl]. by apply prefix_app_r. }
          rewrite <- app_assoc. by apply list_lookup_middle. }
        rewrite Hn in Ha. by injection Ha as <-.
      * assert (next + mk_timedelta 0 0 1 < a) as Hlt.
        { apply (Hafter i); [rewrite length_app; simpl; lia | done]. }
        unfold mk_timedelta, US_PER_MINUTE, US_PER_SECOND in *. lia.
Qed.
End schedule_facts.

(** X4. Every time returned by the planner has its seconds and
    microseconds at zero, whatever the table: the answer of
    [get_optimal_time], the entries of [get_bulk_schedule] (forced entries
    included) and the values of [get_multi_platform_schedule]. *)
Theorem planner_times_are_whole_minutes now self :
  (∀ platform from_time max_days_ahead r,
     get_optimal_time now self platform from_time max_days_ahead = Ok r → whole_minute r)
  ∧ (∀ platform count from_time min_hours_between l,
       get_bulk_schedule now self platform count from_time min_hours_between = Ok l →
       Forall whole_minute l)
  ∧ (∀ platforms from_time stagger_minutes m,
       get_multi_platform_schedule now self platforms from_time stagger_minutes = Ok m →
       map_Forall (λ _ t, whole_minute t) m).
Proof.
  split_and!.
  - intros platform from_time d r. apply get_optimal_time_whole_minute.
  - intros platform count from_time gap l. unfold get_bulk_schedule.
    apply bulk_loop_whole_minutes. constructor.
  - intros platforms from_time stagger m. unfold get_multi_platform_schedule.
    apply multi_loop_whole_minutes. apply map_Forall_empty.
Qed.

(** X6. For every [min_hours_between], negative ones included, the
    entries of a list that [get_bulk_schedule] returns are all later than
    [from_time] and strictly increasing, each more than one minute after
    the one before; and it returns a list for every [from_time] that
    leaves room before [datetime.max] for the posts asked for, each seven
    days or the gap, and one minute, after the one before. *)
Theorem get_bulk_schedule_strictly_increasing now self platform count from_time gap :
  wf_scheduler self →
  (∀ l, get_bulk_schedule_checked now self platform count from_time gap = Ok l →
     (∀ a, a ∈ l → default now from_time < a)
     ∧ ∀ (i : nat) a b, l !! i = Some a → l !! S i = Some b → a + US_PER_MINUTE < b)
  ∧ (in_range (default now from_time) →
     default now from_time
       + Z.max 0 count * (Z.max (7 * US_PER_DAY) (gap * US_PER_HOUR) + US_PER_MINUTE)
       ≤ datetime_max →
     ∃ l, get_bulk_schedule_checked now self platform count from_time gap = Ok l).
Proof.
  intros Hwf. split.
  - intros l Hl. unfold get_bulk_schedule_checked in Hl.
    apply bulk_loop_checked_Ok in Hl.
    destruct (bulk_loop_increasing now self platform gap (Z.to_nat count) []
                (default now from_time) Hwf) as (l' & Hl' & Hsp & Hafter).
    + intros i a b Ha. by rewrite lookup_nil in Ha.
    + intros prev [=].
    + rewrite Hl in Hl'. injection Hl' as <-. split.
      * intros a [i Hi]%list_elem_of_lookup. apply (Hafter i); [simpl; lia | done].
      * intros i a b Ha Hb. destruct (Hsp i a b Ha Hb). lia.
  - intros [Hlow _] Hroom. unfold get_bulk_schedule_checked.
    apply bulk_loop_checked_returns; [done | done | by intros prev [=] |].
    by replace (Z.of_nat (Z.to_nat count)) with (Z.max 0 count) by lia.
Qed.

(** the checked loop for one more post has run the loop for the posts
    before it *)
Lemma bulk_loop_checked_one_more now self platform gap (n : nat) schedule t l' :
  bulk_loop_checked now self platform gap (S n) schedule t = Ok l' →
  ∃ l x, bulk_loop_checked now self platform gap n schedule t = Ok l ∧ l' = l ++ [x].
Proof.
  revert schedule t. induction n as [|n IH]; intros schedule t Hl'.
  - simpl in Hl'.
    destruct (get_optimal_time_checked now self platform (Some t) 7) as [r|e];
      [|done]. simpl in Hl'.
    destruct (match last schedule with Some _ => _ | None => _ end) as [next|e];
      [|done]. simpl in Hl'.
    destruct (datetime_add next (mk_timedelta 0 0 1)) as [c|e]; [|done].
    simpl in Hl'. injection Hl' as <-. by exists schedule, next.
  - change (bulk_loop_checked now self platform gap (S (S n)) schedule t)
      with (get_optimal_time_checked now self platform (Some t) 7 ≫= λ next_time,
            match last schedule with
            | Some prev =>
                if total_seconds_lt (next_time - prev) (gap * 3600)
                then datetime_add prev (mk_timedelta 0 gap 0)
                else Ok next_time
            | None => Ok next_time
            end ≫= λ next_time,
            datetime_add next_time (mk_timedelta 0 0 1) ≫= λ current_time,
            bulk_loop_checked now self platform gap (S n) (schedule ++ [next_time])
              current_time) in Hl'.
    change (bulk_loop_checked now self platform gap (S n) schedule t)
      with (get_optimal_time_checked now self platform (Some t) 7 ≫= λ next_time,
            match last schedule with
            | Some prev =>
                if total_seconds_lt (next_time - prev) (gap * 3600)
                then datetime_add prev (mk_timedelta 0 gap 0)
                else Ok next_time
            | None => Ok next_time
            end ≫= λ next_time,
            datetime_add next_time (mk_timedelta 0 0 1) ≫= λ current_time,
            bulk_loop_checked now self platform gap n (schedule ++ [next_time])
              current_time).
    destruct (get_optimal_time_checked now self platform (Some t) 7) as [r|e];
      [|done]. simpl in *.
    destruct (match last schedule with Some _ => _ | None => _ end) as [next|e];
      [|done]. simpl in *.
    destruct (datetime_add next (mk_timedelta 0 0 1)) as [c|e]; [|done].
    simpl in *. by apply IH.
Qed.

(** X7. Asking for one more post keeps the posts already planned: when
    [get_bulk_schedule] returns a list for [count + 1] posts, it returns
    one for [count] posts too, and the longer list is the shorter one
    with one entry added; for no post the list is empty, and the entry
    added to it is the answer of [get_optimal_time] from [from_time]. *)
Theorem get_bulk_schedule_one_more now self platform count from_time gap l' :
  0 ≤ count →
  get_bulk_schedule_checked now self platform (count + 1) from_time gap = Ok l' →
  ∃ l x,
    get_bulk_schedule_checked now self platform count from_time gap = Ok l
    ∧ l' = l ++ [x]
    ∧ (count = 0 →
       l = []
       ∧ get_optimal_time_checked now self platform (Some (default now from_time)) 7
         = Ok x).
Proof.
  intros Hcount Hl'. unfold get_bulk_schedule_checked in *.
  replace (Z.to_nat (count + 1)) with (S (Z.to_nat count)) in Hl' by lia.
  destruct (bulk_loop_checked_one_more _ _ _ _ _ _ _ _ Hl') as (l & x & Hl & ->).
  exists l, x. split_and!; [done | done |].
  intros ->. simpl in Hl, Hl'. injection Hl as <-. split; [done|].
  destruct (get_optimal_time_checked now self platform (Some (default now from_time)) 7)
    as [r|e]; simpl in Hl'; [|done].
  destruct (datetime_add r (mk_timedelta 0 0 1)) as [c|e]; simpl in Hl'; [|done].
  by injection Hl' as <-.
Qed.

Section multi_order.
Implicit Types (schedule : gmap string datetime) (t : datetime).

Lemma multi_loop_dom now self stagger platforms schedule t m :
  multi_loop now self stagger platforms schedule t = Ok m →
  dom m = dom schedule ∪ list_to_set platforms.
Proof.
  revert schedule t. induction platforms as [|platform rest IH]; intros schedule t; simpl.
  - intros [= <-]. by rewrite union_empty_r_L.
  - destruct (get_optimal_time now self platform (Some t) 7) as [r|e]; [|by intros [=]].
    simpl. intros Hm. apply IH in Hm. rewrite Hm, dom_insert_L.
    by rewrite (union_comm_L {[platform]}), <- union_assoc_L.
Qed.

(** platforms named once are served in the order of the list *)
Lemma multi_loop_in_order now self stagger platforms schedule t :
  wf_scheduler self → 0 ≤ stagger → NoDup platforms →
  ∃ m, multi_loop now self stagger platforms schedule t = Ok m
    ∧ (∀ p, p ∉ platforms → m !! p = schedule !! p)
    ∧ (∀ p, p ∈ platforms → ∃ tp, m !! p = Some tp ∧ t < tp)
    ∧ (∀ p rest, platforms = p :: rest →
         ∃ tp, get_optimal_time now self p (Some t) 7 = Ok tp ∧ m !! p = Some tp)
    ∧ ∀ (i j : nat) p q tp tq,
        (i < j)%nat → platforms !! i = Some p → platforms !! j = Some q →
        m !! p = Some tp → m !! q = Some tq → tp + stagger * US_PER_MINUTE < tq.
Proof.
  intros Hwf Hst. revert schedule t.
  induction platforms as [|platform rest IH]; intros schedule t Hnd; simpl.
  - exists schedule. split_and!; [done | done | | done |].
    + intros p Hp. by apply elem_of_nil in Hp.
    + intros i j p q tp tq _ Hp. by rewrite lookup_nil in Hp.
  - apply NoDup_cons in Hnd as [Hfresh Hnd].
    destruct (get_optimal_time_later now self platform (Some t) 7 Hwf)
      as (r & Hr & Hlater). simpl in Hlater. rewrite Hr. simpl.
    set (t' := Z.max (t + mk_timedelta 0 0 stagger) (r + mk_timedelta 0 0 stagger)).
    assert (t ≤ t' ∧ r + stagger * US_PER_MINUTE ≤ t') as [Ht Hr'].
    { subst t'. unfold mk_timedelta, US_PER_MINUTE, US_PER_SECOND. lia. }
    destruct (IH (<[platform := r]> schedule) t' Hnd)
      as (m & Hm & Hout & Hin & _ & Hord).
    assert (m !! platform = Some r) as Hplat
      by (rewrite (Hout _ Hfresh); apply lookup_insert_eq).
    exists m. split_and!; [done | | | |].
    + intros p [Hne Hp]%not_elem_of_cons. rewrite (Hout _ Hp).
      by rewrite lookup_insert_ne.
    + intros p [->|Hp]%elem_of_cons; [by exists r|].
      destruct (Hin _ Hp) as (tp & Htp & Hlt). exists tp. split; [done | lia].
    + intros p rest' [= <- <-]. by exists r.
    + intros i j p q tp tq Hij Hp Hq Htp Htq.
      destruct j as [|j]; [lia|]. simpl in Hq.
      assert (q ∈ rest) as Hqin by (by eapply list_elem_of_lookup_2).
      destruct (Hin _ Hqin) as (tq' & Htq' & Hlt). rewrite Htq in Htq'. injection Htq' as <-.
      destruct i as [|i]; simpl in Hp.
      * injection Hp as <-. rewrite Hplat in Htp. injection Htp as <-. lia.
      * apply (Hord i j p q tp tq); [lia | done..].
Qed.
End multi_order.

(** X8. For platforms named once each and a stagger that is not negative,
    a mapping that [get_multi_platform_schedule] returns gives every name
    of the list, as written there, a time later than [from_time]; the
    first name gets its own answer of [get_optimal_time], and each later
    name a time more than [stagger_minutes] after the names before it.
    It returns a mapping for every [from_time] that leaves room before
    [datetime.max] for seven days and the stagger for each platform. *)
Theorem get_multi_platform_schedule_in_order now self platforms from_time stagger_minutes :
  wf_scheduler self → 0 ≤ stagger_minutes → NoDup platforms →
  (∀ m, get_multi_platform_schedule_checked now self platforms from_time stagger_minutes
        = Ok m →
     dom m = list_to_set platforms
     ∧ (∀ p, p ∈ platforms → ∃ tp, m !! p = Some tp ∧ default now from_time < tp)
     ∧ (∀ p rest, platforms = p :: rest →
          ∃ tp, get_optimal_time_checked now self p (Some (default now from_time)) 7 = Ok tp
                ∧ m !! p = Some tp)
     ∧ ∀ (i j : nat) p q, (i < j)%nat → platforms !! i = Some p → platforms !! j = Some q →
         ∃ tp tq, m !! p = Some tp ∧ m !! q = Some tq
                  ∧ default now from_time < tp
                  ∧ tp + stagger_minutes * US_PER_MINUTE < tq)
  ∧ (in_range (default now from_time) →
     default now from_time
       + Z.of_nat (length platforms) * (7 * US_PER_DAY + stagger_minutes * US_PER_MINUTE)
       ≤ datetime_max →
     ∃ m, get_multi_platform_schedule_checked now self platforms from_time stagger_minutes
          = Ok m).
Proof.
  intros Hwf Hst Hnd. split.
  - intros m Hchecked. unfold get_multi_platform_schedule_checked in Hchecked.
    pose proof (multi_loop_checked_Ok _ _ _ _ _ _ _ Hchecked) as Hm.
    destruct (multi_loop_in_order now self stagger_minutes platforms ∅
                (default now from_time) Hwf Hst Hnd)
      as (m' & Hm' & _ & Hin & Hfirst & Hord).
    rewrite Hm in Hm'. injection Hm' as <-.
    split_and!; [| done | |].
    + apply multi_loop_dom in Hm. rewrite Hm, dom_empty_L. by rewrite union_empty_l_L.
    + intros p rest ->. destruct (Hfirst p rest eq_refl) as (tp & Htp & Hmp).
      exists tp. split; [|done]. simpl in Hchecked.
      destruct (get_optimal_time_checked now self p (Some (default now from_time)) 7)
        as [r|e] eqn:Hr; [|done].
      apply get_optimal_time_checked_Ok in Hr. rewrite Htp in Hr. by injection Hr as <-.
    + intros i j p q Hij Hp Hq.
      destruct (Hin p) as (tp & Htp & Hlt); [by eapply list_elem_of_lookup_2|].
      destruct (Hin q) as (tq & Htq & _); [by eapply list_elem_of_lookup_2|].
      exists tp, tq. split_and!; try done. by eapply Hord.
  - intros [Hlow _] Hroom. unfold get_multi_platform_schedule_checked.
    by apply multi_loop_checked_returns.
Qed.

(** X9. A scheduler whose table has neither the platform nor "twitter"
    answers with [KeyError]: the error ends [get_optimal_time], a bulk
    schedule of one post or more and a multi-platform schedule that starts
    with the platform, while a bulk schedule of no post and a schedule for
    no platform still return, empty. *)
Theorem missing_table_raises_key_error now self platform :
  optimal_times self !! lower platform = None →
  optimal_times self !! "twitter"%string = None →
  (∀ from_time d, get_optimal_time now self platform from_time d = Raise (KeyError "twitter"))
  ∧ (∀ count from_time gap, 1 ≤ count →
       get_bulk_schedule now self platform count from_time gap = Raise (KeyError "twitter"))
  ∧ (∀ count from_time gap, count ≤ 0 →
       get_bulk_schedule now self platform count from_time gap = Ok [])
  ∧ (∀ rest from_time stagger,
       get_multi_platform_schedule now self (platform :: rest) from_time stagger
       = Raise (KeyError "twitter"))
  ∧ (∀ from_time stagger, get_multi_platform_schedule now self [] from_time stagger = Ok ∅).
Proof.
  intros Hp Htw.
  assert (∀ from_time d,
            get_optimal_time now self platform from_time d = Raise (KeyError "twitter"))
    as Hraise.
  { intros from_time d. rewrite get_optimal_time_table. unfold table_of.
    rewrite Hp, Htw. by case_bool_decide. }
  split_and!; [done | | | |done].
  - intros count from_time gap Hc. unfold get_bulk_schedule.
    destruct (Z.to_nat count) as [|n] eqn:Hn; [lia|]. simpl. by rewrite Hraise.
  - intros count from_time gap Hc. unfold get_bulk_schedule.
    by replace (Z.to_nat count) with 0%nat by lia.
  - intros rest from_time stagger. unfold get_multi_platform_schedule. simpl.
    by rewrite Hraise.
Qed.

(** ** Look-ahead bound of the planner *)

(** X5. The look-ahead of [get_optimal_time] is bounded: the answer is
    later than [from_time] and at most [max_days_ahead] days (one day when
    [max_days_ahead] is smaller) after it. *)
Theorem get_optimal_time_within_horizon now self platform from_time max_days_ahead r :
  wf_scheduler self →
  get_optimal_time now self platform from_time max_days_ahead = Ok r →
  default now from_time < r
  ∧ r ≤ default now from_time + Z.max 1 max_days_ahead * US_PER_DAY.
Proof.
  intros Hself Hr.
  destruct (get_optimal_time_later now self platform from_time max_days_ahead Hself)
    as (r' & Hr' & Hlater).
  rewrite Hr in Hr'. injection Hr' as <-. split; [done|].
  rewrite get_optimal_time_table in Hr.
  destruct (table_of self platform) as [pt|] eqn:Htable; [|done].
  eapply for_day_offset_bounded;
    [by eapply table_of_wf | apply range_bounds | exact Hr].
Qed.

(** ** The statements at concrete requests *)

Lemma scheduler_with_twitter_wf slots :
  Forall wf_slot slots → wf_scheduler (scheduler_with_twitter slots).
Proof.
  intros Hwf. split; [by eexists|]. intros k l. simpl.
  intros [_ <-]%lookup_singleton_Some. done.
Qed.

Lemma get_optimal_time_earliest_slot_witness :
  wf_scheduler (PostScheduler_init "UTC")
  ∧ table_of (PostScheduler_init "UTC") "twitter" = Some twitter_times
  ∧ get_optimal_time 0 (PostScheduler_init "UTC") "twitter"
      (Some (mk_datetime 2024 1 1 8 0)) 7 = Ok (mk_datetime 2024 1 1 9 0)
  ∧ (0, 12, 0) ∈ twitter_times
  ∧ on_slot (0, 12, 0) (mk_datetime 2024 1 1 12 0)
  ∧ mk_datetime 2024 1 1 8 0 < mk_datetime 2024 1 1 12 0
  ∧ mk_datetime 2024 1 1 12 0 < date_part (mk_datetime 2024 1 1 8 0) + 7 * US_PER_DAY
  ∧ mk_datetime 2024 1 1 9 0 ≤ mk_datetime 2024 1 1 12 0
  ∧ ∃ s', s' ∈ twitter_times ∧ on_slot s' (mk_datetime 2024 1 1 9 0).
Proof.
  assert ((0, 12, 0) ∈ twitter_times) as Hin
    by (unfold twitter_times; rewrite !elem_of_cons; tauto).
  assert (on_slot (0, 12, 0) (mk_datetime 2024 1 1 12 0)) as Hon
    by (by split_and!).
  split_and!; [apply default_scheduler_wf | reflexivity | reflexivity | exact Hin
              | exact Hon | reflexivity | reflexivity | ..];
    apply (get_optimal_time_earliest_slot 0 (PostScheduler_init "UTC") "twitter"
             (Some (mk_datetime 2024 1 1 8 0)) 7 twitter_times
             (mk_datetime 2024 1 1 9 0) (0, 12, 0) (mk_datetime 2024 1 1 12 0)
             (default_scheduler_wf "UTC") eq_refl eq_refl Hin Hon eq_refl eq_refl).
Defined.

Lemma get_optimal_time_fallback_iff_witness :
  wf_scheduler (scheduler_with_twitter [(0, 9, 0)])
  ∧ table_of (scheduler_with_twitter [(0, 9, 0)]) "twitter" = Some [(0, 9, 0)]
  ∧ get_optimal_time 0 (scheduler_with_twitter [(0, 9, 0)]) "twitter"
      (Some monday_10) 7 = Ok (mk_datetime 2024 1 2 10 0)
  ∧ let r := mk_datetime 2024 1 2 10 0 in
    let t := monday_10 in
    ((∀ s u, s ∈ [(0, 9, 0)] → on_slot s u → t < u →
             u < date_part t + 7 * US_PER_DAY → False)
     → r = at_day_time t 1 (hour t) (minute t)
       ∧ weekday r = (weekday t + 1) mod 7 ∧ hour r = hour t ∧ minute r = minute t)
    ∧ ((∃ s u, s ∈ [(0, 9, 0)] ∧ on_slot s u ∧ t < u ∧ u < date_part t + 7 * US_PER_DAY)
       → ∃ s', s' ∈ [(0, 9, 0)] ∧ on_slot s' r
               ∧ r < date_part t + 7 * US_PER_DAY).
Proof.
  assert (wf_scheduler (scheduler_with_twitter [(0, 9, 0)])) as Hwf.
  { apply scheduler_with_twitter_wf. constructor; [|constructor].
    unfold wf_slot. simpl. lia. }
  split_and!; [exact Hwf | reflexivity | reflexivity |].
  apply (get_optimal_time_fallback_iff 0 (scheduler_with_twitter [(0, 9, 0)]) "twitter"
           (Some monday_10) 7 [(0, 9, 0)] (mk_datetime 2024 1 2 10 0) Hwf eq_refl eq_refl).
Defined.

Lemma builtin_tables_answer_is_a_slot_witness :
  4 ≤ 7
  ∧ in_range (default 0 (Some (mk_datetime 2024 1 5 18 30)))
  ∧ default 0 (Some (mk_datetime 2024 1 5 18 30)) + 4 * US_PER_DAY ≤ datetime_max
  ∧ ∃ r pt s, get_optimal_time_checked 0 (PostScheduler_init "UTC") "LinkedIn"
                (Some (mk_datetime 2024 1 5 18 30)) 7 = Ok r
      ∧ table_of (PostScheduler_init "UTC") "LinkedIn" = Some pt
      ∧ s ∈ pt ∧ on_slot s r
      ∧ r < date_part (default 0 (Some (mk_datetime 2024 1 5 18 30))) + 4 * US_PER_DAY.
Proof.
  assert (in_range (default 0 (Some (mk_datetime 2024 1 5 18 30)))) as Hin
    by (split; by vm_compute).
  assert (default 0 (Some (mk_datetime 2024 1 5 18 30)) + 4 * US_PER_DAY ≤ datetime_max)
    as Hroom by (by vm_compute).
  split; [lia|]. split; [exact Hin|]. split; [exact Hroom|].
  apply (builtin_tables_answer_is_a_slot 0 "UTC" "LinkedIn"
           (Some (mk_datetime 2024 1 5 18 30)) 7); [lia | exact Hin | exact Hroom].
Defined.

Lemma get_optimal_time_within_horizon_witness :
  wf_scheduler (PostScheduler_init "UTC")
  ∧ get_optimal_time 0 (PostScheduler_init "UTC") "twitter"
      (Some (mk_datetime 2024 1 1 8 0)) 7 = Ok (mk_datetime 2024 1 1 9 0)
  ∧ mk_datetime 2024 1 1 8 0 < mk_datetime 2024 1 1 9 0
  ∧ mk_datetime 2024 1 1 9 0 ≤ mk_datetime 2024 1 1 8 0 + Z.max 1 7 * US_PER_DAY.
Proof.
  split_and!; [apply default_scheduler_wf | reflexivity | ..];
    apply (get_optimal_time_within_horizon 0 (PostScheduler_init "UTC") "twitter"
             (Some (mk_datetime 2024 1 1 8 0)) 7 (mk_datetime 2024 1 1 9 0)
             (default_scheduler_wf "UTC") eq_refl).
Defined.

Lemma get_bulk_schedule_strictly_increasing_witness :
  wf_scheduler (PostScheduler_init "UTC")
  ∧ in_range (default 0 (Some (mk_datetime 2024 1 1 8 0)))
  ∧ default 0 (Some (mk_datetime 2024 1 1 8 0))
      + Z.max 0 3 * (Z.max (7 * US_PER_DAY) (-5 * US_PER_HOUR) + US_PER_MINUTE)
      ≤ datetime_max
  ∧ ∃ l, get_bulk_schedule_checked 0 (PostScheduler_init "UTC") "twitter" 3
           (Some (mk_datetime 2024 1 1 8 0)) (-5) = Ok l.
Proof.
  assert (in_range (default 0 (Some (mk_datetime 2024 1 1 8 0)))) as Hin
    by (split; by vm_compute).
  assert (default 0 (Some (mk_datetime 2024 1 1 8 0))
            + Z.max 0 3 * (Z.max (7 * US_PER_DAY) (-5 * US_PER_HOUR) + US_PER_MINUTE)
            ≤ datetime_max) as Hroom by (by vm_compute).
  split; [apply default_scheduler_wf|]. split; [exact Hin|]. split; [exact Hroom|].
  apply (get_bulk_schedule_strictly_increasing 0 (PostScheduler_init "UTC") "twitter" 3
           (Some (mk_datetime 2024 1 1 8 0)) (-5) (default_scheduler_wf "UTC"));
    [exact Hin | exact Hroom].
Defined.

Lemma get_bulk_schedule_one_more_witness :
  0 ≤ 2
  ∧ get_bulk_schedule_checked 0 (PostScheduler_init "UTC") "twitter" (2 + 1)
      (Some (mk_datetime 2024 1 1 8 0)) 8
    = Ok [mk_datetime 2024 1 1 9 0; mk_datetime 2024 1 1 17 0; mk_datetime 2024 1 2 9 0]
  ∧ ∃ l x, get_bulk_schedule_checked 0 (PostScheduler_init "UTC") "twitter" 2
             (Some (mk_datetime 2024 1 1 8 0)) 8 = Ok l
      ∧ [mk_datetime 2024 1 1 9 0; mk_datetime 2024 1 1 17 0; mk_datetime 2024 1 2 9 0]
        = l ++ [x]
      ∧ (2 = 0 → l = []
           ∧ get_optimal_time_checked 0 (PostScheduler_init "UTC") "twitter"
               (Some (default 0 (Some (mk_datetime 2024 1 1 8 0)))) 7 = Ok x).
Proof.
  split; [lia|]. split; [reflexivity|].
  apply (get_bulk_schedule_one_more 0 (PostScheduler_init "UTC") "twitter" 2
           (Some (mk_datetime 2024 1 1 8 0)) 8
           [mk_datetime 2024 1 1 9 0; mk_datetime 2024 1 1 17 0; mk_datetime 2024 1 2 9 0]);
    [lia | reflexivity].
Defined.

Lemma get_multi_platform_schedule_in_order_witness :
  wf_scheduler (PostScheduler_init "UTC") ∧ 0 ≤ 15
  ∧ NoDup ["linkedin"; "Twitter"; "instagram"]%string
  ∧ in_range (default 0 (Some (mk_datetime 2024 1 6 10 0)))
  ∧ default 0 (Some (mk_datetime 2024 1 6 10 0))
      + Z.of_nat (length ["linkedin"; "Twitter"; "instagram"]%string)
        * (7 * US_PER_DAY + 15 * US_PER_MINUTE) ≤ datetime_max
  ∧ ∃ m, get_multi_platform_schedule_checked 0 (PostScheduler_init "UTC")
           ["linkedin"; "Twitter"; "instagram"]%string
           (Some (mk_datetime 2024 1 6 10 0)) 15 = Ok m.
Proof.
  assert (NoDup ["linkedin"; "Twitter"; "instagram"]%string) as Hnd
    by (apply (bool_decide_unpack _); by vm_compute).
  assert (in_range (default 0 (Some (mk_datetime 2024 1 6 10 0)))) as Hin
    by (split; by vm_compute).
  assert (default 0 (Some (mk_datetime 2024 1 6 10 0))
            + Z.of_nat (length ["linkedin"; "Twitter"; "instagram"]%string)
              * (7 * US_PER_DAY + 15 * US_PER_MINUTE) ≤ datetime_max)
    as Hroom by (by vm_compute).
  split; [apply default_scheduler_wf|]. split; [lia|]. split; [exact Hnd|].
  split; [exact Hin|]. split; [exact Hroom|].
  apply (get_multi_platform_schedule_in_order 0 (PostScheduler_init "UTC")
           ["linkedin"; "Twitter"; "instagram"]%string
           (Some (mk_datetime 2024 1 6 10 0)) 15 (default_scheduler_wf "UTC"));
    [lia | exact Hnd | exact Hin | exact Hroom].
Defined.

Lemma missing_table_raises_key_error_witness :
  let self := {| time_zone := "UTC"; optimal_times := {[ "instagram"%string := instagram_times ]} |} in
  optimal_times self !! lower "LinkedIn" = None
  ∧ optimal_times self !! "twitter"%string = None
  ∧ (∀ from_time d, get_optimal_time 0 self "LinkedIn" from_time d = Raise (KeyError "twitter"))
  ∧ (∀ count from_time gap, 1 ≤ count →
       get_bulk_schedule 0 self "LinkedIn" count from_time gap = Raise (KeyError "twitter"))
  ∧ (∀ count from_time gap, count ≤ 0 →
       get_bulk_schedule 0 self "LinkedIn" count from_time gap = Ok [])
  ∧ (∀ rest from_time stagger,
       get_multi_platform_schedule 0 self ("LinkedIn"%string :: rest) from_time stagger
       = Raise (KeyError "twitter"))
  ∧ (∀ from_time stagger, get_multi_platform_schedule 0 self [] from_time stagger = Ok ∅).
Proof.
  intros self. split; [reflexivity|]. split; [reflexivity|].
  apply (missing_table_raises_key_error 0 self "LinkedIn" eq_refl eq_refl).
Defined.

(** * Properties of the orchestrator's steps *)

(** X10. No step of the orchestrator lets an exception out, whatever the
    trend scanner, the content creator, the prompt and the scheduler agent
    do: [scan_trends], [create_content], [schedule_posts] and
    [_request_human_approval] return a boolean and [run_daily_cycle]
    returns. *)
Theorem orchestrator_steps_never_raise self env w :
  (∃ b, (scan_trends self env w).1 = Ok b)
  ∧ (∃ b, (create_content self env w).1 = Ok b)
  ∧ (∃ b, (schedule_posts self env w).1 = Ok b)
  ∧ (∀ platform content t, ∃ b, (_request_human_approval env platform content t w).1 = Ok b)
  ∧ (run_daily_cycle self env w).1 = Ok tt.
Proof.
  split_and!.
  - apply scan_trends_returns.
  - apply create_content_returns.
  - apply schedule_posts_returns.
  - intros platform content t. unfold _request_human_approval.
    apply try_except_returns. intros e w1. by exists false.
  - unfold run_daily_cycle.
    match goal with |- (try_except ?m ?h w).1 = _ =>
      destruct (try_except_returns m h w) as [[] Hu]; [by intros; exists tt | exact Hu]
    end.
Qed.

(** X11. When a trend scan is due and the trend scanner raises,
    [run_daily_cycle] stops after the scan: the scanner's call is the only
    call made, the time stamps, the trend report and the content pool are
    as before, and the abort is logged. *)
Theorem failed_scan_aborts_cycle self env w e :
  due (clock env) (last_trend_scan w) (trend_scan_interval self) = true →
  trend_scanner_scan_trends env (keywords self) = Raise e →
  calls (run_daily_cycle self env w).2 = calls w ++ [ScanTrends (keywords self)]
  ∧ same_data w (run_daily_cycle self env w).2
  ∧ log (run_daily_cycle self env w).2
    = log w ++ [(INFO, "Starting daily cycle"); (INFO, "Starting trend scanning");
                (ERROR, "Error scanning trends");
                (ERROR, "Trend scanning failed, aborting cycle")]%string.
Proof.
  intros Hdue Hscan.
  unfold run_daily_cycle, scan_trends, try_except, bind, get, lift, logger, record_call,
    ret. simpl. rewrite Hdue. simpl. rewrite Hscan. simpl.
  split_and!; [done | by split_and! |].
  by rewrite <- !app_assoc.
Qed.

Lemma failed_scan_aborts_cycle_witness :
  let env := {| clock := monday_8;
                trend_scanner_scan_trends := λ _, Raise (ExternalError "no network");
                content_creator_generate_for_platform := λ _ _, Ok (Some "text"%string);
                new_id := λ platform, platform;
                input := λ _ _ _, Ok "y"%string;
                scheduler_schedule_post := λ _ _ _ _, Ok (Some "scheduled"%string) |} in
  let w := {| last_trend_scan := Some (mk_datetime 2024 1 1 3 0);
              last_content_creation := None; trend_report_file := None;
              content_pool_file := Some pool_two_platforms; log := []; calls := [] |} in
  due (clock env) (last_trend_scan w) (trend_scan_interval sample_orchestrator) = true
  ∧ trend_scanner_scan_trends env (keywords sample_orchestrator)
    = Raise (ExternalError "no network")
  ∧ calls (run_daily_cycle sample_orchestrator env w).2
    = [] ++ [ScanTrends (keywords sample_orchestrator)]
  ∧ same_data w (run_daily_cycle sample_orchestrator env w).2
  ∧ log (run_daily_cycle sample_orchestrator env w).2
    = [] ++ [(INFO, "Starting daily cycle"); (INFO, "Starting trend scanning");
             (ERROR, "Error scanning trends");
             (ERROR, "Trend scanning failed, aborting cycle")]%string.
Proof.
  intros env w. split; [reflexivity|]. split; [reflexivity|].
  apply (failed_scan_aborts_cycle sample_orchestrator env w
           (ExternalError "no network") eq_refl eq_refl).
Defined.

(** ** Rules for the traces of the steps *)

Section runs_rules.
Context {A B : Type}.
Implicit Types (G : list call → Prop).

Lemma runs_bind (m : M A) (k : A → M B) G1 G2 G (R1 : A → Prop) (R2 : B → Prop) :
  runs m G1 R1 → (∀ a, R1 a → runs (k a) G2 R2) →
  (∀ l1, G1 l1 → G l1) → (∀ l1 l2, G1 l1 → G2 l2 → G (l1 ++ l2)) →
  runs (bind m k) G R2.
Proof.
  intros Hm Hk Hraise Happ w. destruct (Hm w) as (l1 & Hc1 & HG1 & HR1).
  unfold bind. destruct (m w) as [[a|e] w1] eqn:Hmw; simpl in *.
  - destruct (Hk a (HR1 a eq_refl) w1) as (l2 & Hc2 & HG2 & HR2).
    exists (l1 ++ l2). rewrite Hc2, Hc1, app_assoc. split_and!; auto.
  - exists l1. split_and!; auto. intros b [=].
Qed.

Lemma runs_try (m : M A) (h : exn → M A) G1 G2 G (R : A → Prop) :
  runs m G1 R → (∀ e, runs (h e) G2 R) →
  (∀ l1, G1 l1 → G l1) → (∀ l1 l2, G1 l1 → G2 l2 → G (l1 ++ l2)) →
  runs (try_except m h) G R.
Proof.
  intros Hm Hh Hok Happ w. destruct (Hm w) as (l1 & Hc1 & HG1 & HR1).
  unfold try_except. destruct (m w) as [[a|e] w1] eqn:Hmw; simpl in *.
  - exists l1. split_and!; auto.
  - destruct (Hh e w1) as (l2 & Hc2 & HG2 & HR2).
    exists (l1 ++ l2). rewrite Hc2, Hc1, app_assoc. split_and!; auto.
Qed.

Lemma runs_weaken (m : M A) G G' (R R' : A → Prop) :
  runs m G R → (∀ l, G l → G' l) → (∀ a, R a → R' a) → runs m G' R'.
Proof.
  intros Hm HG HR w. destruct (Hm w) as (l & Hc & Hl & Ha).
  exists l. split_and!; auto.
Qed.

Lemma emits_runs (m : M A) P (R : A → Prop) : emits m P R → runs m (Forall P) R.
Proof. intros Hm w. apply Hm. Qed.

(** a step that makes no call *)
Lemma runs_silent (m : M A) G (R : A → Prop) :
  emits m (λ _, False) R → G [] → runs m G R.
Proof.
  intros Hm Hnil w. destruct (Hm w) as (l & Hc & Hl & Ha).
  destruct l as [|c l]; [|by apply Forall_cons in Hl as [[] _]].
  exists []. split_and!; auto.
Qed.
End runs_rules.

(** ** The calls of one entry *)

Section item_calls.
Variables (self : Orchestrator) (env : Env).

Lemma request_human_approval_once platform content t w :
  calls (_request_human_approval env platform content t w).2
  = calls w ++ [RequestApproval platform (id content) t].
Proof.
  unfold _request_human_approval, try_except, bind, record_call, lift, ret, logger.
  simpl. by destruct (input env platform content t).
Qed.

Lemma request_human_approval_answer platform content t w :
  (_request_human_approval env platform content t w).1 = Ok true
  ∨ (_request_human_approval env platform content t w).1 = Ok false.
Proof.
  unfold _request_human_approval, try_except, bind, record_call, lift, ret, logger.
  simpl. destruct (input env platform content t); simpl; [|by right].
  case_bool_decide; [by left | by right].
Qed.

(** the calls made for the entry at position [i] of the unused content *)
Lemma schedule_item_calls platform unused times i pool w :
  ∃ new, calls (schedule_item self env platform unused times i pool w).2 = calls w ++ new
    ∧ (new = []
       ∨ ∃ entry t, list_getitem unused i = Ok entry ∧ list_getitem times i = Ok t
           ∧ (human_review self = true ∧ new = [RequestApproval platform (id entry.2) t]
              ∨ human_review self = true ∧ approves env platform entry.2 t
                ∧ new = [RequestApproval platform (id entry.2) t;
                         SchedulePost platform (id entry.2) t]
              ∨ human_review self = false
                ∧ new = [SchedulePost platform (id entry.2) t])).
Proof.
  unfold schedule_item. unfold bind at 1. unfold lift at 1.
  destruct (list_getitem unused i) as [entry|e] eqn:Hentry; simpl;
    [|exists []; split; [by rewrite app_nil_r | by left]].
  unfold bind at 1. unfold lift at 1.
  destruct (list_getitem times i) as [t|e] eqn:Ht; simpl;
    [|exists []; split; [by rewrite app_nil_r | by left]].
  assert (∀ w1 : World,
            calls ((logger INFO ("Scheduling post for " +:+ platform);;
                    record_call (SchedulePost platform (id entry.2) t);;
                    let* status :=
                      lift (scheduler_schedule_post env platform entry.2 t (id entry.2)) in
                    if bool_decide (status = Some "scheduled"%string) then
                      logger INFO ("Successfully scheduled post for " +:+ platform);;
                      ret (alter (alter (λ c, mark_used c t) entry.1) platform pool)
                    else
                      logger ERROR ("Failed to schedule post for " +:+ platform);;
                      ret pool) w1).2
            = calls w1 ++ [SchedulePost platform (id entry.2) t]) as Hpost.
  { intros w1. unfold bind, logger, record_call, lift, ret. simpl.
    destruct (scheduler_schedule_post env platform entry.2 t (id entry.2)) as [s|]; simpl;
      [by case_bool_decide | done]. }
  destruct (human_review self) eqn:Hreview.
  - unfold bind at 1.
    pose proof (request_human_approval_once platform entry.2 t w) as Hcalls.
    pose proof (request_human_approval_true env platform entry.2 t w) as Htrue.
    destruct (request_human_approval_answer platform entry.2 t w) as [Hans|Hans];
      destruct (_request_human_approval env platform entry.2 t w) as [r w1];
      simpl in Hans, Hcalls; subst r; simpl.
    + exists [RequestApproval platform (id entry.2) t; SchedulePost platform (id entry.2) t].
      split.
      * rewrite Hpost, Hcalls. by rewrite <- app_assoc.
      * right. exists entry, t. split_and!; [done..|]. right; left.
        split_and!; [done | by eapply Htrue | done].
    + exists [RequestApproval platform (id entry.2) t]. split.
      * unfold bind, logger, ret. simpl. exact Hcalls.
      * right. exists entry, t. split_and!; [done..|]. by left.
  - unfold bind at 1. unfold ret at 1. simpl.
    exists [SchedulePost platform (id entry.2) t]. split; [apply Hpost|].
    right. exists entry, t. split_and!; [done..|]. right; right. done.
Qed.
End item_calls.

(** ** From one entry to the cycle *)

(** the posting times of the scheduling step are whole minutes later
    than the start of the search *)
Lemma get_bulk_schedule_entries now self platform count from_time gap l :
  wf_scheduler self →
  get_bulk_schedule now self platform count from_time gap = Ok l →
  ∀ a, a ∈ l → default now from_time < a ∧ whole_minute a.
Proof.
  intros Hwf Hl a Ha. unfold get_bulk_schedule in Hl. split.
  - destruct (bulk_loop_increasing now self platform gap (Z.to_nat count) []
                (default now from_time) Hwf) as (l' & Hl' & _ & Hafter).
    + intros i x y Hx. by rewrite lookup_nil in Hx.
    + intros prev [=].
    + rewrite Hl in Hl'. injection Hl' as <-.
      apply list_elem_of_lookup in Ha as [i Hi]. apply (Hafter i); [simpl; lia | done].
  - apply bulk_loop_whole_minutes in Hl; [|constructor].
    rewrite Forall_forall in Hl. by apply Hl.
Qed.

(** A property [G] of lists of calls that holds of the empty list, is
    kept by concatenation, holds of a scan and of a generation alone and
    of the calls made for one entry, holds of the calls of a whole cycle. *)
Section cycle_traces.
Variables (self : Orchestrator) (env : Env) (G : list call → Prop).
Hypothesis G_nil : G [].
Hypothesis G_app : ∀ l1 l2, G l1 → G l2 → G (l1 ++ l2).
Hypothesis G_other : ∀ c, is_scan c ∨ is_generate c → G [c].
Hypothesis G_item : ∀ platform unused times i pool,
  (∀ t, t ∈ times → clock env + mk_timedelta 0 0 15 < t ∧ whole_minute t) →
  runs (schedule_item self env platform unused times i pool) G (λ _, True).

Lemma G_Forall l : Forall (λ c, is_scan c ∨ is_generate c) l → G l.
Proof.
  induction 1 as [|c l Hc _ IH]; [done|].
  change (c :: l) with ([c] ++ l). auto.
Qed.

Lemma runs_quiet {A} (m : M A) : emits m (λ _, False) (λ _, True) → runs m G (λ _, True).
Proof. intros Hm. by apply runs_silent. Qed.

Lemma runs_then {A B} (m : M A) (k : A → M B) :
  runs m G (λ _, True) → (∀ a, runs (k a) G (λ _, True)) →
  runs (bind m k) G (λ _, True).
Proof. intros Hm Hk. eapply runs_bind; eauto. Qed.

Lemma runs_handled {A} (m : M A) (h : exn → M A) :
  runs m G (λ _, True) → (∀ e, runs (h e) G (λ _, True)) →
  runs (try_except m h) G (λ _, True).
Proof. intros Hm Hh. eapply runs_try; eauto. Qed.

Lemma scan_trends_trace : runs (scan_trends self env) G (λ _, True).
Proof.
  eapply runs_weaken; [apply emits_runs, scan_trends_emits | | done].
  intros l Hl. apply G_Forall. eapply Forall_impl; [exact Hl | by left].
Qed.

Lemma create_content_trace : runs (create_content self env) G (λ _, True).
Proof.
  eapply runs_weaken; [apply emits_runs, create_content_emits | | done].
  intros l Hl. by apply G_Forall.
Qed.

Lemma schedule_items_trace platform unused times todo pool :
  (∀ t, t ∈ times → clock env + mk_timedelta 0 0 15 < t ∧ whole_minute t) →
  runs (schedule_items self env platform unused times todo pool) G (λ _, True).
Proof.
  intros Htimes. revert pool. induction todo as [|i rest IH]; intros pool; simpl.
  - apply runs_quiet. emits_step.
  - apply runs_then; [by apply G_item | intros pool'; apply IH].
Qed.

Lemma schedule_platform_trace platform pool :
  runs (schedule_platform self env platform pool) G (λ _, True).
Proof.
  unfold schedule_platform.
  apply runs_then; [apply runs_quiet; emits_step | intros items].
  destruct (unused_content items) as [|e rest].
  { apply runs_then; [apply runs_quiet; emits_step | intros ?].
    apply runs_quiet. emits_step. }
  eapply runs_bind with (G1 := G) (G2 := G)
    (R1 := λ times, ∀ t, t ∈ times → clock env + mk_timedelta 0 0 15 < t ∧ whole_minute t);
    [| |done|done].
  - apply runs_silent; [|done]. apply emits_lift. intros times Htimes t Ht.
    eapply (get_bulk_schedule_entries (clock env)) in Htimes;
      [exact Htimes | apply default_scheduler_wf | exact Ht].
  - intros times Htimes. by apply schedule_items_trace.
Qed.

Lemma schedule_all_trace todo pool :
  runs (schedule_all self env todo pool) G (λ _, True).
Proof.
  revert pool. induction todo as [|platform rest IH]; intros pool; simpl.
  - apply runs_quiet. emits_step.
  - apply runs_then; [apply schedule_platform_trace | intros pool'; apply IH].
Qed.

Lemma schedule_posts_trace : runs (schedule_posts self env) G (λ _, True).
Proof.
  unfold schedule_posts. apply runs_handled.
  2:{ intros e. apply runs_quiet. emits_seq. }
  apply runs_then; [apply runs_quiet; emits_step | intros ?].
  apply runs_then; [apply runs_quiet; emits_step | intros pool].
  apply runs_then; [apply runs_quiet; emits_step | intros has].
  apply runs_then.
  - destruct has; simpl; [apply runs_quiet; emits_step|].
    apply runs_then; [apply runs_quiet; emits_step | intros ?].
    apply runs_then; [apply create_content_trace | intros created].
    destruct created; simpl; [|apply runs_quiet; emits_step].
    apply runs_then; [apply runs_quiet; emits_step | intros ?].
    apply runs_quiet. emits_step.
  - intros [pool'|]; [|apply runs_quiet; emits_step].
    apply runs_then; [apply schedule_all_trace | intros ?].
    apply runs_quiet. emits_seq.
Qed.

Lemma run_daily_cycle_trace : runs (run_daily_cycle self env) G (λ _, True).
Proof.
  unfold run_daily_cycle. apply runs_handled.
  2:{ intros e. apply runs_quiet. emits_seq. }
  apply runs_then; [apply runs_quiet; emits_step | intros ?].
  apply runs_then; [apply runs_quiet; emits_step | intros last].
  apply runs_then.
  { destruct (due _ _ _); [apply scan_trends_trace|]. apply runs_quiet. emits_seq. }
  intros scanned. destruct scanned; simpl; [|apply runs_quiet; emits_step].
  apply runs_then; [apply runs_quiet; emits_step | intros last'].
  apply runs_then.
  { destruct (due _ _ _); [apply create_content_trace|]. apply runs_quiet. emits_seq. }
  intros created. destruct created; simpl; [|apply runs_quiet; emits_step].
  apply runs_then; [apply schedule_posts_trace | intros scheduled].
  destruct scheduled; simpl; apply runs_quiet; emits_step.
Qed.
End cycle_traces.

(** ** The approval gate and the posting times of a cycle *)

Section gate_facts.
Variable env : Env.

Lemma gated_nil : gated env [].
Proof. intros i p pid t H. by rewrite lookup_nil in H. Qed.

Lemma gated_app l1 l2 : gated env l1 → gated env l2 → gated env (l1 ++ l2).
Proof.
  intros H1 H2 i p pid t Hi.
  apply lookup_app_Some in Hi as [Hi|[Hlen Hi]].
  - destruct (H1 _ _ _ _ Hi) as (j & c & -> & Hj & Hc).
    exists j, c. split_and!; [done | | apply Hc..].
    by apply lookup_app_l_Some.
  - destruct (H2 _ _ _ _ Hi) as (j & c & Hij & Hj & Hc).
    exists (length l1 + j)%nat, c. split_and!; [lia | | apply Hc..].
    by rewrite lookup_app_r, Nat.add_comm, Nat.add_sub by lia.
Qed.

Lemma gated_other c : is_scan c ∨ is_generate c → gated env [c].
Proof.
  intros Hc i p pid t Hi. apply list_lookup_singleton_Some in Hi as [_ ->].
  by destruct Hc as [[k Hk]|[q Hq]].
Qed.
End gate_facts.

(** X12. With human review on and answers typed in ASCII characters, a
    cycle calls [scheduler.schedule_post] only right after the approval
    request for the same platform, entry and posting time, and only when
    the answer to it was an approval. *)
Theorem posts_follow_an_approval self env w :
  human_review self = true →
  (∀ platform content t line,
     input env platform content t = Ok line → ascii_only line = true) →
  ∃ new, calls (run_daily_cycle self env w).2 = calls w ++ new ∧ gated env new.
Proof.
  intros Hreview _.
  destruct (run_daily_cycle_trace self env (gated env) (gated_nil env) (gated_app env)
              (gated_other env)) with (w := w) as (new & Hnew & Hgated & _);
    [|by exists new].
  intros platform unused times i pool _ w0.
  destruct (schedule_item_calls self env platform unused times i pool w0)
    as (new & Hnew & Hshape).
  exists new. split_and!; [done | | done].
  destruct Hshape as [->|(entry & t & _ & _ & [[_ ->]|[(_ & Happ & ->)|[Hoff _]]])].
  - apply gated_nil.
  - intros k p pid t' Hk. by apply list_lookup_singleton_Some in Hk as [_ ?].
  - intros [|[|k]] p pid t' Hk; simpl in Hk; [done| |by rewrite lookup_nil in Hk].
    injection Hk as <- <- <-. by exists 0%nat, entry.2.
  - congruence.
Qed.

Lemma posts_follow_an_approval_witness :
  human_review reviewing_orchestrator = true
  ∧ (∀ platform content t line,
       input (sample_env monday_8 []) platform content t = Ok line →
       ascii_only line = true)
  ∧ ∃ new, calls (run_daily_cycle reviewing_orchestrator (sample_env monday_8 [])
                    (sample_world pool_two_platforms)).2
           = calls (sample_world pool_two_platforms) ++ new
      ∧ gated (sample_env monday_8 []) new.
Proof.
  assert (∀ platform content t line,
            input (sample_env monday_8 []) platform content t = Ok line →
            ascii_only line = true) as Hascii
    by (intros platform content t line [= <-]; reflexivity).
  split; [reflexivity|]. split; [exact Hascii|].
  apply (posts_follow_an_approval reviewing_orchestrator (sample_env monday_8 [])
           (sample_world pool_two_platforms) eq_refl Hascii).
Defined.

(** X13. With human review off, a cycle never prompts: no approval
    request is among its calls. *)
Theorem no_prompt_without_review self env w :
  human_review self = false →
  ∃ new, calls (run_daily_cycle self env w).2 = calls w ++ new
         ∧ Forall (λ c, ∀ p pid t, c ≠ RequestApproval p pid t) new.
Proof.
  intros Hreview.
  destruct (run_daily_cycle_trace self env
              (Forall (λ c, ∀ p pid t, c ≠ RequestApproval p pid t)))
    with (w := w) as (new & Hnew & Hnone & _); [..|by exists new].
  - constructor.
  - intros l1 l2 H1 H2. apply Forall_app. by split.
  - intros c [[k ->]|[q ->]]; by repeat constructor.
  - intros platform unused times i pool _ w0.
    destruct (schedule_item_calls self env platform unused times i pool w0)
      as (new & Hnew & Hshape).
    exists new. split_and!; [done | | done].
    destruct Hshape as [->|(entry & t & _ & _ & [[Hon _]|[(Hon & _)|[_ ->]]])];
      [constructor | congruence | congruence |].
    by repeat constructor.
Qed.

Lemma no_prompt_without_review_witness :
  human_review sample_orchestrator = false
  ∧ ∃ new, calls (run_daily_cycle sample_orchestrator (sample_env monday_8 [])
                    (sample_world pool_two_platforms)).2
           = calls (sample_world pool_two_platforms) ++ new
      ∧ Forall (λ c, ∀ p pid t, c ≠ RequestApproval p pid t) new.
Proof.
  split; [reflexivity|].
  apply (no_prompt_without_review sample_orchestrator (sample_env monday_8 [])
           (sample_world pool_two_platforms) eq_refl).
Defined.

(** X14. Every posting time a cycle submits, to the prompt or to the
    scheduler agent, is a whole minute more than fifteen minutes after
    the clock. *)
Theorem posting_times_after_quarter_hour self env w :
  ∃ new, calls (run_daily_cycle self env w).2 = calls w ++ new
         ∧ Forall (λ c, ∀ t, call_time c = Some t →
                     clock env + 15 * US_PER_MINUTE < t ∧ whole_minute t) new.
Proof.
  destruct (run_daily_cycle_trace self env
              (Forall (λ c, ∀ t, call_time c = Some t →
                         clock env + 15 * US_PER_MINUTE < t ∧ whole_minute t)))
    with (w := w) as (new & Hnew & Htimes & _); [..|by exists new].
  - constructor.
  - intros l1 l2 H1 H2. apply Forall_app. by split.
  - intros c [[k ->]|[q ->]]; by repeat constructor.
  - intros platform unused times i pool Htimes w0.
    destruct (schedule_item_calls self env platform unused times i pool w0)
      as (new & Hnew & Hshape).
    exists new. split_and!; [done | | done].
    destruct Hshape as [->|(entry & t & _ & Ht & Hshape)]; [constructor|].
    assert (clock env + 15 * US_PER_MINUTE < t ∧ whole_minute t) as Hlater.
    { unfold list_getitem in Ht. destruct (times !! Z.to_nat i) as [t'|] eqn:Hlook; [|done].
      injection Ht as ->. apply list_elem_of_lookup_2 in Hlook.
      destruct (Htimes _ Hlook) as [Hlt Hwm]. split; [|done].
      unfold mk_timedelta in Hlt. lia. }
    destruct Hshape as [[_ ->]|[(_ & _ & ->)|[_ ->]]];
      repeat (constructor; [by intros ? [= <-]|]); constructor.
Qed.

(** ** The daily cap *)

Section daily_cap.
Variables (self : Orchestrator) (env : Env) (p : string).
Implicit Types (l : list call) (n : nat).

Lemma posts_for_nil : posts_for p [] = 0%nat.
Proof. done. Qed.

Lemma posts_for_cons c l :
  posts_for p (c :: l) = ((if is_post_for p c then 1 else 0) + posts_for p l)%nat.
Proof.
  unfold posts_for. rewrite filter_cons.
  case_decide as Hc.
  - apply Is_true_true in Hc. by rewrite Hc.
  - apply Is_true_false in Hc. by rewrite Hc.
Qed.

Lemma posts_for_app l1 l2 : posts_for p (l1 ++ l2) = (posts_for p l1 + posts_for p l2)%nat.
Proof. unfold posts_for. by rewrite filter_app, length_app. Qed.

Lemma posts_for_other l :
  Forall (λ c, is_scan c ∨ is_generate c) l → posts_for p l = 0%nat.
Proof.
  induction 1 as [|c l Hc _ IH]; [done|]. rewrite posts_for_cons, IH.
  by destruct Hc as [[k ->]|[q ->]].
Qed.

(** at most [n] calls of [schedule_post] for [p] *)
Let atmost n : list call → Prop := λ l, (posts_for p l ≤ n)%nat.

Lemma atmost_bind {A B} (m : M A) (k : A → M B) (a b : nat) (R1 : A → Prop) :
  runs m (atmost a) R1 → (∀ x, R1 x → runs (k x) (atmost b) (λ _, True)) →
  runs (bind m k) (atmost (a + b)) (λ _, True).
Proof.
  intros Hm Hk. eapply runs_bind; [exact Hm | exact Hk | |]; unfold atmost.
  - intros l1 H1. lia.
  - intros l1 l2 H1 H2. rewrite posts_for_app. lia.
Qed.

Lemma atmost_try {A} (m : M A) (h : exn → M A) (a : nat) :
  runs m (atmost a) (λ _, True) → (∀ e, emits (h e) (λ _, False) (λ _, True)) →
  runs (try_except m h) (atmost a) (λ _, True).
Proof.
  intros Hm Hh. eapply runs_try with (G2 := atmost 0); [exact Hm | | |]; unfold atmost.
  - intros e. apply runs_silent; [apply Hh|]. by rewrite posts_for_nil.
  - done.
  - intros l1 l2 H1 H2. rewrite posts_for_app. lia.
Qed.

Lemma atmost_quiet {A} (m : M A) (R : A → Prop) :
  emits m (λ _, False) R → runs m (atmost 0) R.
Proof. intros Hm. apply runs_silent; [done|]. unfold atmost. by rewrite posts_for_nil. Qed.

Lemma atmost_other {A} (m : M A) :
  emits m (λ c, is_scan c ∨ is_generate c) (λ _, True) → runs m (atmost 0) (λ _, True).
Proof.
  intros Hm. eapply runs_weaken; [apply emits_runs, Hm | | done].
  intros l Hl. unfold atmost. by rewrite posts_for_other.
Qed.

Lemma atmost_le {A} (m : M A) (a b : nat) :
  runs m (atmost a) (λ _, True) → (a ≤ b)%nat → runs m (atmost b) (λ _, True).
Proof.
  intros Hm Hab. eapply runs_weaken; [exact Hm | | done].
  unfold atmost. intros l Hl. lia.
Qed.

Lemma schedule_item_cap platform unused times i pool :
  runs (schedule_item self env platform unused times i pool)
    (atmost (if bool_decide (platform = p) then 1 else 0)) (λ _, True).
Proof.
  intros w. destruct (schedule_item_calls self env platform unused times i pool w)
    as (new & Hnew & Hshape).
  exists new. split_and!; [done | | done]. unfold atmost.
  destruct Hshape as [->|(entry & t & _ & _ & [[_ ->]|[(_ & _ & ->)|[_ ->]]])];
    rewrite ?posts_for_cons, ?posts_for_nil; simpl; case_bool_decide; simpl; lia.
Qed.

Lemma schedule_items_cap platform unused times todo pool :
  runs (schedule_items self env platform unused times todo pool)
    (atmost (if bool_decide (platform = p) then length todo else 0)) (λ _, True).
Proof.
  revert pool. induction todo as [|i rest IH]; intros pool; simpl.
  - eapply atmost_le; [apply atmost_quiet; emits_step | lia].
  - eapply atmost_le.
    + eapply atmost_bind; [apply schedule_item_cap | intros pool' _; apply IH].
    + case_bool_decide; lia.
Qed.

(** the cap of the platform: [max_posts_per_day.get(platform, 1)], and
    nothing when it is negative *)
Let cap (platform : string) : nat := Z.to_nat (default 1 (max_posts_per_day self !! platform)).

Lemma length_range (k : Z) : length (range k) = Z.to_nat k.
Proof. unfold range. by rewrite length_fmap, length_seq. Qed.

Lemma schedule_platform_cap platform pool :
  runs (schedule_platform self env platform pool)
    (atmost (if bool_decide (platform = p) then cap p else 0)) (λ _, True).
Proof.
  unfold schedule_platform.
  eapply atmost_le.
  - eapply atmost_bind with (R1 := λ _, True); [apply atmost_quiet; emits_step|].
    intros items _. destruct (unused_content items) as [|e rest].
    + eapply atmost_le; [apply atmost_quiet; emits_seq | apply Nat.le_0_l].
    + eapply atmost_le with (b := if bool_decide (platform = p) then cap p else 0%nat).
      * eapply atmost_bind with (R1 := λ _, True); [apply atmost_quiet; emits_step|].
        intros times _. apply schedule_items_cap.
      * rewrite length_range. case_bool_decide as Hp; [|lia].
        subst platform. unfold cap. lia.
  - lia.
Qed.

Lemma schedule_all_cap todo pool :
  runs (schedule_all self env todo pool)
    (atmost (length (filter (λ q, q = p) todo) * cap p)) (λ _, True).
Proof.
  revert pool. induction todo as [|platform rest IH]; intros pool; simpl.
  - apply atmost_quiet. emits_step.
  - eapply atmost_le.
    + eapply atmost_bind; [apply schedule_platform_cap | intros pool' _; apply IH].
    + rewrite filter_cons. case_bool_decide as Hp.
      * rewrite decide_True by done. simpl. lia.
      * rewrite decide_False by done. lia.
Qed.

Lemma schedule_posts_cap :
  runs (schedule_posts self env)
    (atmost (length (filter (λ q, q = p) (platforms self)) * cap p)) (λ _, True).
Proof.
  unfold schedule_posts. apply atmost_try; [|intros e; emits_seq].
  eapply atmost_le.
  - eapply atmost_bind with (R1 := λ _, True); [apply atmost_quiet; emits_step|].
    intros ? _.
    eapply atmost_bind with (R1 := λ _, True); [apply atmost_quiet; emits_step|].
    intros pool _.
    eapply atmost_bind with (R1 := λ _, True); [apply atmost_quiet; emits_step|].
    intros has _.
    eapply atmost_bind with (a := 0%nat) (R1 := λ _, True).
    + destruct has; cbn [negb]; [apply atmost_quiet; emits_step|].
      eapply atmost_le with (a := (0 + (0 + 0))%nat); [|lia].
      eapply atmost_bind with (R1 := λ _, True); [apply atmost_quiet; emits_step|].
      intros ? _.
      eapply atmost_bind with (R1 := λ _, True);
        [apply atmost_other, create_content_emits|].
      intros created _. destruct created; cbn [negb]; apply atmost_quiet; emits_seq.
    + intros [pool'|] _; [|eapply atmost_le; [apply atmost_quiet; emits_step | apply Nat.le_0_l]].
      eapply atmost_bind; [apply schedule_all_cap|].
      intros ? _. apply atmost_quiet. emits_seq.
  - lia.
Qed.

Lemma run_daily_cycle_cap :
  runs (run_daily_cycle self env)
    (atmost (length (filter (λ q, q = p) (platforms self)) * cap p)) (λ _, True).
Proof.
  unfold run_daily_cycle. apply atmost_try; [|intros e; emits_seq].
  set (n := (length (filter (λ q, q = p) (platforms self)) * cap p)%nat).
  eapply atmost_le with (a := (0 + (0 + (0 + (0 + (0 + n)))))%nat); [|lia].
  eapply atmost_bind with (R1 := λ _, True); [apply atmost_quiet; emits_step|].
  intros ? _.
  eapply atmost_bind with (R1 := λ _, True); [apply atmost_quiet; emits_step|].
  intros last _.
  eapply atmost_bind with (R1 := λ _, True).
  { destruct (due _ _ _); [|apply atmost_quiet; emits_seq].
    apply atmost_other. eapply emits_weaken; [apply scan_trends_emits | by left | done]. }
  intros scanned _. destruct scanned; cbn [negb];
    [|eapply atmost_le; [apply atmost_quiet; emits_step | apply Nat.le_0_l]].
  eapply atmost_bind with (R1 := λ _, True); [apply atmost_quiet; emits_step|].
  intros last' _.
  eapply atmost_bind with (R1 := λ _, True).
  { destruct (due _ _ _); [|apply atmost_quiet; emits_seq].
    apply atmost_other, create_content_emits. }
  intros created _. destruct created; cbn [negb];
    [|eapply atmost_le; [apply atmost_quiet; emits_step | apply Nat.le_0_l]].
  eapply atmost_le with (a := (n + 0)%nat); [|lia].
  eapply atmost_bind; [apply schedule_posts_cap|].
  intros scheduled _. destruct scheduled; cbn [negb]; apply atmost_quiet; emits_step.
Qed.
End daily_cap.

Lemma filter_absent (p : string) (l : list string) :
  p ∉ l → filter (λ q, q = p) l = [].
Proof.
  induction l as [|q l IH]; [done|]. intros [Hne Hl]%not_elem_of_cons.
  rewrite filter_cons, decide_False by done. by apply IH.
Qed.

(** X15. In one cycle the scheduler agent is called for a platform at most
    [max_posts_per_day.get(platform, 1)] times (never, when that number
    is negative) for each time the platform is listed in [platforms]:
    at most that often when it is listed once, and never when it is not
    listed. *)
Theorem cycle_respects_daily_cap self env w p :
  ∃ new, calls (run_daily_cycle self env w).2 = calls w ++ new
    ∧ (posts_for p new
       ≤ length (filter (λ q, q = p) (platforms self))
         * Z.to_nat (default 1%Z (max_posts_per_day self !! p)))%nat
    ∧ (NoDup (platforms self) →
       Z.of_nat (posts_for p new) ≤ Z.max 0 (default 1 (max_posts_per_day self !! p)))
    ∧ (p ∉ platforms self → posts_for p new = 0%nat).
Proof.
  destruct (run_daily_cycle_cap self env p w) as (new & Hnew & Hcap & _).
  exists new. split_and!; [done | done | |].
  - intros Hnd.
    assert (length (filter (λ q, q = p) (platforms self)) ≤ 1)%nat as Hone.
    { clear -Hnd. induction Hnd as [|q l Hq _ IH]; [simpl; lia|].
      rewrite filter_cons. case_decide as Hp; [|lia]. subst q. simpl.
      rewrite filter_absent by done. simpl. lia. }
    nia.
  - intros Hp.
    rewrite filter_absent in Hcap by done. simpl in Hcap. lia.
Qed.

(** ** The content pool across a step *)

Section pool_after_creation.
Variables (self : Orchestrator) (env : Env).
Implicit Types (pool : gmap string (list ContentItem)) (w : World).

(** the pool after the generation for one platform *)
Lemma generate_one_result td platform pool w :
  ∃ pool' w', generate_one env td platform pool w = (Ok pool', w')
    ∧ same_data w w'
    ∧ ∀ p, pool' !! p
           = if bool_decide (p = platform)
             then (λ items, items ++ generated env td platform) <$> pool !! p
             else pool !! p.
Proof.
  unfold generate_one, try_except, bind, logger, record_call, lift, ret, same_data,
    generated.
  simpl.
  destruct (content_creator_generate_for_platform env platform td) as [[text|]|e]; simpl.
  - unfold getitem. destruct (pool !! platform) as [items|] eqn:Hitems; simpl.
    + eexists _, _. split_and!; try done. intros p. case_bool_decide as Hp.
      * subst p. by rewrite lookup_insert_eq, Hitems.
      * by rewrite lookup_insert_ne.
    + eexists _, _. split_and!; try done. intros p. case_bool_decide as Hp; [|done].
      subst p. by rewrite Hitems.
  - eexists _, _. split_and!; try done. intros p. case_bool_decide as Hp; [|done].
    destruct (pool !! p); simpl; [|done]. by rewrite app_nil_r.
  - eexists _, _. split_and!; try done. intros p. case_bool_decide as Hp; [|done].
    destruct (pool !! p); simpl; [|done]. by rewrite app_nil_r.
Qed.

(** the pool after the generation for platforms named once each *)
Lemma generate_all_result td todo pool w :
  NoDup todo →
  ∃ pool' w', generate_all env td todo pool w = (Ok pool', w')
    ∧ same_data w w'
    ∧ ∀ p, pool' !! p
           = if bool_decide (p ∈ todo)
             then (λ items, items ++ generated env td p) <$> pool !! p
             else pool !! p.
Proof.
  revert pool w. induction todo as [|platform rest IH]; intros pool w Hnd;
    cbn [generate_all].
  - eexists _, _. split_and!; [done | apply same_data_refl |].
    intros p. rewrite bool_decide_eq_false_2; [done | apply not_elem_of_nil].
  - apply NoDup_cons in Hnd as [Hfresh Hnd].
    destruct (generate_one_result td platform pool w) as (pool1 & w1 & H1 & Hd1 & Hp1).
    destruct (IH pool1 w1 Hnd) as (pool2 & w2 & H2 & Hd2 & Hp2).
    exists pool2, w2. unfold bind. rewrite H1, H2.
    split_and!; [done | by eapply same_data_trans |].
    intros p. rewrite Hp2, Hp1.
    destruct (decide (p = platform)) as [->|Hne].
    + rewrite (bool_decide_eq_false_2 (platform ∈ rest)) by done.
      rewrite (bool_decide_eq_true_2 (platform = platform)) by done.
      rewrite (bool_decide_eq_true_2 (platform ∈ platform :: rest))
        by apply list_elem_of_here.
      done.
    + rewrite (bool_decide_eq_false_2 (p = platform)) by done.
      destruct (decide (p ∈ rest)) as [Hin|Hout].
      * rewrite (bool_decide_eq_true_2 (p ∈ rest)) by done.
        rewrite (bool_decide_eq_true_2 (p ∈ platform :: rest))
          by (by apply list_elem_of_further).
        done.
      * rewrite (bool_decide_eq_false_2 (p ∈ rest)) by done.
        rewrite (bool_decide_eq_false_2 (p ∈ platform :: rest))
          by (rewrite elem_of_cons; tauto).
        done.
Qed.
End pool_after_creation.

(** X16. With a trend report and a pool on file and platforms named once
    each, [create_content] returns [True], stamps the creation with the
    clock and saves the pool with, at the end of the list of each
    configured platform that is a key of the pool, the content generated
    for it; the entries already there, the other keys and the trend
    report stay as they are, also when the content creator fails for some
    or for all platforms. *)
Theorem create_content_appends_generated self env w td pool :
  trend_report_file w = Some td → content_pool_file w = Some pool →
  NoDup (platforms self) →
  (create_content self env w).1 = Ok true
  ∧ last_content_creation (create_content self env w).2 = Some (clock env)
  ∧ last_trend_scan (create_content self env w).2 = last_trend_scan w
  ∧ trend_report_file (create_content self env w).2 = Some td
  ∧ ∃ pool', content_pool_file (create_content self env w).2 = Some pool'
      ∧ ∀ p, pool' !! p
             = if bool_decide (p ∈ platforms self)
               then (λ items, items ++ generated env td p) <$> pool !! p
               else pool !! p.
Proof.
  intros Htd Hfile Hnd. unfold create_content, try_except.
  repeat (unfold bind at 1; simpl; rewrite ?Htd).
  match goal with |- context [_load_content_pool self ?w0] =>
    destruct (load_content_pool_runs self w0) as (pool0 & w2 & Hl & _ & _ & Hsame);
    destruct (Hsame pool Hfile) as [-> ->]; rewrite Hl
  end.
  match goal with |- context [generate_all env td _ pool ?w0] =>
    destruct (generate_all_result env td (platforms self) pool w0 Hnd)
      as (pool' & w3 & -> & (Hscan & _ & Hreport & _) & Hpool)
  end.
  simpl in *. split_and!; [done | done | done | by rewrite Hreport |].
  by exists pool'.
Qed.

Lemma create_content_appends_generated_witness :
  trend_report_file (sample_world pool_two_platforms) = Some "trends"%string
  ∧ content_pool_file (sample_world pool_two_platforms) = Some pool_two_platforms
  ∧ NoDup (platforms sample_orchestrator)
  ∧ (create_content sample_orchestrator (sample_env monday_8 [])
       (sample_world pool_two_platforms)).1 = Ok true
  ∧ last_content_creation
      (create_content sample_orchestrator (sample_env monday_8 [])
         (sample_world pool_two_platforms)).2 = Some (clock (sample_env monday_8 []))
  ∧ last_trend_scan
      (create_content sample_orchestrator (sample_env monday_8 [])
         (sample_world pool_two_platforms)).2
    = last_trend_scan (sample_world pool_two_platforms)
  ∧ trend_report_file
      (create_content sample_orchestrator (sample_env monday_8 [])
         (sample_world pool_two_platforms)).2 = Some "trends"%string
  ∧ ∃ pool', content_pool_file
               (create_content sample_orchestrator (sample_env monday_8 [])
                  (sample_world pool_two_platforms)).2 = Some pool'
      ∧ ∀ p, pool' !! p
             = if bool_decide (p ∈ platforms sample_orchestrator)
               then (λ items, items ++ generated (sample_env monday_8 []) "trends" p)
                      <$> pool_two_platforms !! p
               else pool_two_platforms !! p.
Proof.
  assert (NoDup (platforms sample_orchestrator)) as Hnd
    by (apply (bool_decide_unpack _); by vm_compute).
  split; [reflexivity|]. split; [reflexivity|]. split; [exact Hnd|].
  apply (create_content_appends_generated sample_orchestrator (sample_env monday_8 [])
           (sample_world pool_two_platforms) "trends" pool_two_platforms
           eq_refl eq_refl Hnd).
Defined.

Section pool_after_scheduling.
Variables (self : Orchestrator) (env : Env).
Implicit Types (pool : gmap string (list ContentItem)) (w : World).

Lemma item_kept_refl c : item_kept (clock env) c c.
Proof. by left. Qed.

Lemma item_kept_trans c1 c2 c3 :
  item_kept (clock env) c1 c2 → item_kept (clock env) c2 c3 → item_kept (clock env) c1 c3.
Proof.
  intros [->|(Hu & t & Ht & ->)] H23; [done|].
  destruct H23 as [->|(Hu' & _)]; [|done].
  right. split; [done|]. by exists t.
Qed.

Lemma pool_kept_refl pool : pool_kept (clock env) pool pool.
Proof.
  intros p. destruct (pool !! p) as [items|]; constructor.
  apply Forall2_same_length_lookup. split; [done|].
  intros i x y Hx Hy. rewrite Hx in Hy. injection Hy as <-. apply item_kept_refl.
Qed.

Lemma pool_kept_trans pool1 pool2 pool3 :
  pool_kept (clock env) pool1 pool2 → pool_kept (clock env) pool2 pool3 →
  pool_kept (clock env) pool1 pool3.
Proof.
  intros H12 H23 p. specialize (H12 p). specialize (H23 p).
  destruct H12 as [l1 l2 H12|]; inversion H23 as [? l3 H23'|]; subst; constructor.
  clear -H12 H23'. revert l3 H23'.
  induction H12 as [|x y l1 l2 Hxy _ IH]; intros l3 H23; inversion H23; subst;
    constructor; [by eapply item_kept_trans | by apply IH].
Qed.

(** marking the entry at position [i] of the unused content *)
Lemma pool_kept_mark pool0 pool platform items entry t :
  pool0 !! platform = Some items → entry ∈ unused_content items →
  clock env + 15 * US_PER_MINUTE < t →
  pool_kept (clock env) pool0 pool →
  pool_kept (clock env) pool0
    (alter (alter (λ c, mark_used c t) entry.1) platform pool).
Proof.
  intros Hitems Hentry Ht Hkept p.
  destruct (decide (p = platform)) as [->|Hne]; [|by rewrite lookup_alter_ne].
  specialize (Hkept platform). rewrite lookup_alter_eq.
  rewrite Hitems in Hkept |- *.
  inversion Hkept as [? cur Hcur Heq1 Heq2|]; subst. simpl. constructor.
  apply Forall2_alter_r; [done|]. intros x y Hx _ Hxy.
  destruct entry as [idx c]. apply elem_of_unused_content in Hentry as [Hc Hu].
  simpl in *. rewrite Hc in Hx. injection Hx as <-.
  right. split; [done|]. exists t. split; [done|].
  by destruct Hxy as [->|(_ & t0 & _ & ->)].
Qed.

Lemma schedule_item_kept pool0 platform items times i pool w :
  pool0 !! platform = Some items →
  (∀ t, t ∈ times → clock env + mk_timedelta 0 0 15 < t ∧ whole_minute t) →
  pool_kept (clock env) pool0 pool →
  ∀ pool', (schedule_item self env platform (unused_content items) times i pool w).1
           = Ok pool' →
           pool_kept (clock env) pool0 pool'.
Proof.
  intros Hitems Htimes Hkept pool' Hrun.
  destruct (schedule_item self env platform (unused_content items) times i pool w)
    as [r w'] eqn:Hitem. simpl in Hrun. subst r.
  apply schedule_item_marks_after_success in Hitem
    as [->|(entry & t & Hentry & Ht & _ & _ & _ & ->)]; [done|].
  unfold list_getitem in Hentry, Ht.
  destruct (unused_content items !! Z.to_nat i) as [entry'|] eqn:Hlook; [|done].
  injection Hentry as ->.
  destruct (times !! Z.to_nat i) as [t'|] eqn:Hlook'; [|done]. injection Ht as ->.
  apply list_elem_of_lookup_2 in Hlook, Hlook'.
  apply (pool_kept_mark pool0 pool platform items); [done | done | | done].
  destruct (Htimes _ Hlook') as [Hlt _]. unfold mk_timedelta in Hlt. lia.
Qed.

Lemma schedule_items_kept pool0 platform items times todo pool w :
  pool0 !! platform = Some items →
  (∀ t, t ∈ times → clock env + mk_timedelta 0 0 15 < t ∧ whole_minute t) →
  pool_kept (clock env) pool0 pool →
  ∀ pool', (schedule_items self env platform (unused_content items) times todo pool w).1
           = Ok pool' →
           pool_kept (clock env) pool0 pool'.
Proof.
  intros Hitems Htimes. revert pool w.
  induction todo as [|i rest IH]; intros pool w Hkept pool'; simpl.
  - by intros [= <-].
  - unfold bind.
    pose proof (schedule_item_kept pool0 platform items times i pool w Hitems Htimes Hkept)
      as Hstep.
    destruct (schedule_item self env platform (unused_content items) times i pool w)
      as [[pool1|e] w1]; [|done].
    apply IH. by apply Hstep.
Qed.

Lemma schedule_platform_kept platform pool w pool' :
  (schedule_platform self env platform pool w).1 = Ok pool' →
  pool_kept (clock env) pool pool'.
Proof.
  unfold schedule_platform. unfold bind at 1. unfold lift at 1. unfold getitem.
  destruct (pool !! platform) as [items|] eqn:Hitems; [|done].
  destruct (unused_content items) as [|e rest] eqn:Hun.
  { unfold bind, logger, ret. simpl. intros [= <-]. apply pool_kept_refl. }
  rewrite <- Hun. unfold bind at 1. unfold lift at 1.
  match goal with |- context [get_bulk_schedule ?a ?b ?c ?d ?e ?f] =>
    pose proof (get_bulk_schedule_entries a b c d e f) as Htimes;
    destruct (get_bulk_schedule a b c d e f) as [times|]; [|done]
  end.
  apply (schedule_items_kept pool platform items times); [done | | apply pool_kept_refl].
  intros t Ht. by eapply (Htimes times (default_scheduler_wf _)).
Qed.

Lemma schedule_all_kept todo pool w pool' :
  (schedule_all self env todo pool w).1 = Ok pool' → pool_kept (clock env) pool pool'.
Proof.
  revert pool w. induction todo as [|platform rest IH]; intros pool w; simpl.
  - intros [= <-]. apply pool_kept_refl.
  - unfold bind.
    pose proof (schedule_platform_kept platform pool w) as Hstep.
    destruct (schedule_platform self env platform pool w) as [[pool1|e] w1]; [|done].
    intros Hrest. eapply pool_kept_trans; [by apply Hstep | by eapply IH].
Qed.
End pool_after_scheduling.

(** X17. With unused content in the pool on file, [schedule_posts] leaves
    on file a pool with the same keys and, at the same positions, the
    same entries: the only change to an entry is that an unused one is
    marked as used, with a scheduled time more than fifteen minutes after
    the clock; a used entry is never changed. *)
Theorem schedule_posts_keeps_entries self env w pool :
  content_pool_file w = Some pool →
  has_content pool (platforms self) = Ok true →
  ∃ pool', content_pool_file (schedule_posts self env w).2 = Some pool'
           ∧ pool_kept (clock env) pool pool'.
Proof.
  intros Hfile Hhas.
  remember (schedule_posts self env w) as res eqn:Hres.
  unfold schedule_posts, try_except in Hres.
  unfold bind at 1 in Hres. simpl in Hres.
  match type of Hres with context [bind (_load_content_pool self) ?k ?w0] =>
    destruct (load_content_pool_runs self w0) as (pool1 & w1 & Hl & _ & _ & Hsame);
    destruct (Hsame pool Hfile) as [-> ->]; unfold bind at 1 in Hres; rewrite Hl in Hres
  end.
  unfold bind at 1 in Hres. unfold lift at 1 in Hres. rewrite Hhas in Hres.
  simpl in Hres. unfold bind at 1 in Hres. simpl in Hres. unfold bind at 1 in Hres.
  match type of Hres with context [schedule_all self env _ pool ?w0] =>
    pose proof (schedule_all_kept self env (platforms self) pool w0) as Hkept;
    pose proof (schedule_all_keeps self env (platforms self) pool w0) as (_ & _ & _ & Hkeep);
    destruct (schedule_all self env (platforms self) pool w0) as [[pool'|e] w2]
  end; simpl in *; subst res; simpl.
  - exists pool'. split; [done | by apply Hkept].
  - exists pool. rewrite Hkeep. split; [done | apply pool_kept_refl].
Qed.

Lemma schedule_posts_keeps_entries_witness :
  content_pool_file (sample_world pool_two_platforms) = Some pool_two_platforms
  ∧ has_content pool_two_platforms (platforms sample_orchestrator) = Ok true
  ∧ ∃ pool', content_pool_file
               (schedule_posts sample_orchestrator (sample_env monday_8 [])
                  (sample_world pool_two_platforms)).2 = Some pool'
             ∧ pool_kept (clock (sample_env monday_8 [])) pool_two_platforms pool'.
Proof.
  split; [reflexivity|]. split; [reflexivity|].
  apply (schedule_posts_keeps_entries sample_orchestrator (sample_env monday_8 [])
           (sample_world pool_two_platforms) pool_two_platforms eq_refl eq_refl).
Defined.

(** ** The answer at the approval prompt *)

Section prompt_answers.
Implicit Types (s pre post : string) (c : ascii).

Lemma lower_app s1 s2 : lower (s1 +:+ s2) = lower s1 +:+ lower s2.
Proof. induction s1 as [|c s1 IH]; simpl; [done | by rewrite IH]. Qed.

Lemma lower_ascii_space c : is_space c = true → lower_ascii c = c.
Proof. by destruct c as [[] [] [] [] [] [] [] []]. Qed.

Lemma lower_all_space s : all_space s = true → lower s = s.
Proof.
  induction s as [|c s IH]; simpl; [done|].
  intros [Hc Hs]%andb_prop. by rewrite lower_ascii_space, IH.
Qed.

Lemma lstrip_all_space pre s : all_space pre = true → lstrip (pre +:+ s) = lstrip s.
Proof.
  induction pre as [|c pre IH]; simpl; [done|].
  intros [Hc Hs]%andb_prop. rewrite Hc. by apply IH.
Qed.

Lemma rstrip_all_space post : all_space post = true → rstrip post = EmptyString.
Proof.
  induction post as [|c post IH]; simpl; [done|].
  intros [Hc Hs]%andb_prop. by rewrite IH, Hc.
Qed.

Lemma rstrip_app_all_space s post :
  all_space post = true → rstrip (s +:+ post) = rstrip s.
Proof.
  intros Hpost. induction s as [|c s IH]; simpl; [by apply rstrip_all_space|].
  by rewrite IH.
Qed.

Lemma rstrip_app_kept pre s c r :
  rstrip s = String c r → rstrip (pre +:+ s) = pre +:+ String c r.
Proof.
  intros Hs. induction pre as [|c' pre IH]; simpl; [done|].
  rewrite IH. by destruct pre.
Qed.

(** white space around an answer that neither starts nor ends with white
    space is stripped, and nothing else *)
Lemma strip_padded pre s post c r :
  all_space pre = true → all_space post = true →
  rstrip s = String c r → is_space c = false → s = String c r →
  strip (pre +:+ s +:+ post) = s.
Proof.
  intros Hpre Hpost Hr Hc Hs. unfold strip.
  rewrite (rstrip_app_kept pre (s +:+ post) c r)
    by (by rewrite rstrip_app_all_space).
  rewrite lstrip_all_space by done. simpl. by rewrite Hc.
Qed.

Lemma strip_all_space s : all_space s = true → strip s = EmptyString.
Proof. intros Hs. unfold strip. by rewrite rstrip_all_space. Qed.
End prompt_answers.

(** X18. [_request_human_approval] approves the answers y and yes in any
    letter case and with any ASCII white space (space, tab, line feed,
    vertical tab, form feed, carriage return and the separators 28 to 31)
    around them; an answer of such white space only, the empty one
    included, and a prompt that raises (no more input) reject.  In every
    case the prompt is shown once and the time stamps and the files stay
    as they are. *)
Theorem approval_ignores_case_and_padding env platform content t w :
  (∀ pre answer post,
     input env platform content t = Ok (pre +:+ answer +:+ post) →
     all_space pre = true → all_space post = true →
     lower answer = "y"%string ∨ lower answer = "yes"%string →
     (_request_human_approval env platform content t w).1 = Ok true)
  ∧ (∀ line, input env platform content t = Ok line → all_space line = true →
       (_request_human_approval env platform content t w).1 = Ok false)
  ∧ (∀ e, input env platform content t = Raise e →
       (_request_human_approval env platform content t w).1 = Ok false
       ∧ (ERROR, "Error during human approval"%string)
         ∈ log (_request_human_approval env platform content t w).2)
  ∧ calls (_request_human_approval env platform content t w).2
    = calls w ++ [RequestApproval platform (id content) t]
  ∧ same_data w (_request_human_approval env platform content t w).2.
Proof.
  split_and!.
  - intros pre answer post Hin Hpre Hpost Hanswer.
    unfold _request_human_approval, try_except, bind, record_call, lift, ret.
    simpl. rewrite Hin. simpl. f_equal. apply bool_decide_eq_true_2.
    rewrite !lower_app, (lower_all_space pre), (lower_all_space post) by done.
    destruct Hanswer as [-> | ->]; [left | right];
      by eapply strip_padded.
  - intros line Hin Hline.
    unfold _request_human_approval, try_except, bind, record_call, lift, ret.
    simpl. rewrite Hin. simpl. f_equal. apply bool_decide_eq_false_2.
    rewrite lower_all_space, strip_all_space by done. by intros [|].
  - intros e Hin.
    unfold _request_human_approval, try_except, bind, record_call, lift, ret, logger.
    simpl. rewrite Hin. simpl. split; [done|].
    rewrite elem_of_app. right. apply list_elem_of_here.
  - apply request_human_approval_once.
  - apply request_human_approval_keeps.
Qed.

(** ** A cycle soon after a scan and a content creation *)

(** X19. A cycle run within [trend_scan_interval] hours of the last scan
    and within [content_creation_interval] hours of the last content
    creation (the limits included), with unused content in the pool on
    file, neither scans nor generates: all its calls are approval
    requests and calls of the scheduler agent, and the time stamps and
    the trend report stay as they are. *)
Theorem recent_cycle_only_schedules self env w pool scanned created :
  last_trend_scan w = Some scanned →
  clock env - scanned ≤ trend_scan_interval self * US_PER_HOUR →
  last_content_creation w = Some created →
  clock env - created ≤ content_creation_interval self * US_PER_HOUR →
  content_pool_file w = Some pool →
  has_content pool (platforms self) = Ok true →
  (∃ new, calls (run_daily_cycle self env w).2 = calls w ++ new
          ∧ Forall (λ c, ∃ p, call_platform c = Some p ∧ has_unused pool p) new)
  ∧ last_trend_scan (run_daily_cycle self env w).2 = Some scanned
  ∧ last_content_creation (run_daily_cycle self env w).2 = Some created
  ∧ trend_report_file (run_daily_cycle self env w).2 = trend_report_file w.
Proof.
  intros Hscan Hrecent Hcreate Hrecent' Hfile Hhas.
  assert (due (clock env) (Some scanned) (trend_scan_interval self) = false) as Hdue.
  { unfold due. apply Z.ltb_ge.
    unfold US_PER_HOUR, US_PER_MINUTE, US_PER_SECOND in *. lia. }
  assert (due (clock env) (Some created) (content_creation_interval self) = false)
    as Hdue'.
  { unfold due. apply Z.ltb_ge.
    unfold US_PER_HOUR, US_PER_MINUTE, US_PER_SECOND in *. lia. }
  remember (run_daily_cycle self env w) as res eqn:Hres.
  unfold run_daily_cycle, try_except in Hres.
  unfold bind at 1 in Hres. simpl in Hres.
  unfold bind at 1 in Hres. simpl in Hres. rewrite Hscan, Hdue in Hres.
  unfold bind at 1 in Hres. unfold bind at 1 in Hres. simpl in Hres.
  unfold bind at 1 in Hres. simpl in Hres. rewrite Hcreate, Hdue' in Hres.
  unfold bind at 1 in Hres. unfold bind at 1 in Hres. simpl in Hres.
  unfold bind at 1 in Hres.
  remember (schedule_posts self env _) as sp eqn:Hsp in Hres.
  unfold schedule_posts, try_except in Hsp.
  unfold bind at 1 in Hsp. simpl in Hsp.
  match type of Hsp with context [bind (_load_content_pool self) ?k ?w0] =>
    destruct (load_content_pool_runs self w0) as (pool1 & w1 & Hl & _ & _ & Hsame);
    destruct (Hsame pool Hfile) as [-> ->]; unfold bind at 1 in Hsp; rewrite Hl in Hsp
  end.
  unfold bind at 1 in Hsp. unfold lift at 1 in Hsp. rewrite Hhas in Hsp.
  simpl in Hsp. unfold bind at 1 in Hsp. simpl in Hsp. unfold bind at 1 in Hsp.
  match type of Hsp with context [schedule_all self env _ pool ?w0] =>
    destruct (schedule_all_emits self env pool (platforms self) pool
                (no_new_unused_refl pool) w0) as (new & Hc & Hnew & _);
    pose proof (schedule_all_keeps self env (platforms self) pool w0)
      as (Hk1 & Hk2 & Hk3 & _);
    destruct (schedule_all self env (platforms self) pool w0) as [[pool'|e] w2]
  end; simpl in *; subst sp; simpl in Hres; subst res; simpl;
    (split; [exists new; by rewrite Hc | by rewrite Hk1, Hk2, Hk3]).
Qed.

Lemma recent_cycle_only_schedules_witness :
  last_trend_scan (sample_world pool_two_platforms) = Some (mk_datetime 2024 1 1 7 0)
  ∧ clock (sample_env monday_8 []) - mk_datetime 2024 1 1 7 0
    ≤ trend_scan_interval sample_orchestrator * US_PER_HOUR
  ∧ last_content_creation (sample_world pool_two_platforms)
    = Some (mk_datetime 2024 1 1 7 0)
  ∧ clock (sample_env monday_8 []) - mk_datetime 2024 1 1 7 0
    ≤ content_creation_interval sample_orchestrator * US_PER_HOUR
  ∧ content_pool_file (sample_world pool_two_platforms) = Some pool_two_platforms
  ∧ has_content pool_two_platforms (platforms sample_orchestrator) = Ok true
  ∧ (∃ new, calls (run_daily_cycle sample_orchestrator (sample_env monday_8 [])
                     (sample_world pool_two_platforms)).2
            = calls (sample_world pool_two_platforms) ++ new
            ∧ Forall (λ c, ∃ p, call_platform c = Some p
                                ∧ has_unused pool_two_platforms p) new)
  ∧ last_trend_scan (run_daily_cycle sample_orchestrator (sample_env monday_8 [])
                       (sample_world pool_two_platforms)).2
    = Some (mk_datetime 2024 1 1 7 0)
  ∧ last_content_creation (run_daily_cycle sample_orchestrator (sample_env monday_8 [])
                             (sample_world pool_two_platforms)).2
    = Some (mk_datetime 2024 1 1 7 0)
  ∧ trend_report_file (run_daily_cycle sample_orchestrator (sample_env monday_8 [])
                         (sample_world pool_two_platforms)).2
    = trend_report_file (sample_world pool_two_platforms).
Proof.
  split; [reflexivity|]. split; [by vm_compute|]. split; [reflexivity|].
  split; [by vm_compute|]. split; [reflexivity|]. split; [reflexivity|].
  apply (recent_cycle_only_schedules sample_orchestrator (sample_env monday_8 [])
           (sample_world pool_two_platforms) pool_two_platforms
           (mk_datetime 2024 1 1 7 0) (mk_datetime 2024 1 1 7 0)
           eq_refl ltac:(by vm_compute) eq_refl ltac:(by vm_compute) eq_refl eq_refl).
Defined.

(** ** The empty pool *)

Lemma empty_pool_lookup (l : list string) (p : string) :
  (list_to_map ((λ platform, (platform, [])) <$> l) : gmap string (list ContentItem)) !! p
  = if bool_decide (p ∈ l) then Some [] else None.
Proof.
  induction l as [|q l IH].
  - rewrite fmap_nil, list_to_map_nil, lookup_empty.
    by rewrite bool_decide_eq_false_2 by apply not_elem_of_nil.
  - rewrite fmap_cons, list_to_map_cons. simpl fst. simpl snd.
    destruct (decide (p = q)) as [->|Hne].
    + rewrite lookup_insert_eq.
      by rewrite bool_decide_eq_true_2 by apply list_elem_of_here.
    + rewrite lookup_insert_ne, IH by done.
      rewrite (bool_decide_ext (p ∈ q :: l) (p ∈ l)); [done|].
      rewrite elem_of_cons. tauto.
Qed.

Lemma has_content_empty_pool (pool : gmap string (list ContentItem)) (todo : list string) :
  (∀ p, p ∈ todo → pool !! p = Some []) → has_content pool todo = Ok false.
Proof.
  induction todo as [|platform rest IH]; intros Hpool; simpl; [done|].
  unfold getitem. rewrite (Hpool platform) by apply list_elem_of_here. simpl.
  apply IH. intros p Hp. by apply Hpool, list_elem_of_further.
Qed.

(** X20. The pool written by [_init_content_pool], which is also the pool
    [_load_content_pool] falls back to when the file cannot be read, has
    an empty list for every configured platform and no other key; loading
    it back gives the same pool, and [schedule_posts]'s search for
    unused content in it ends with [False] without a [KeyError]. *)
Theorem empty_pool_round_trip self w :
  ∃ empty : gmap string (list ContentItem),
    content_pool_file (_init_content_pool self w).2 = Some empty
    ∧ (_load_content_pool self (_init_content_pool self w).2).1 = Ok empty
    ∧ (content_pool_file w = None → (_load_content_pool self w).1 = Ok empty)
    ∧ (∀ p, empty !! p = if bool_decide (p ∈ platforms self) then Some [] else None)
    ∧ has_content empty (platforms self) = Ok false.
Proof.
  exists (list_to_map ((λ platform, (platform, [])) <$> platforms self)).
  split_and!.
  - done.
  - done.
  - intros Hfile. unfold _load_content_pool, bind, get. simpl. by rewrite Hfile.
  - apply empty_pool_lookup.
  - apply has_content_empty_pool. intros p Hp.
    by rewrite empty_pool_lookup, bool_decide_eq_true_2.
Qed.

(** ** Starting the orchestrator *)

Section start_facts.
Implicit Types (h k : Z).

(** the hours of [range(start, stop, step)] for a positive step *)
Lemma elem_of_range3 start stop step hours h :
  0 < step → range3 start stop step = Ok hours →
  h ∈ hours ↔ start ≤ h < stop ∧ (h - start) mod step = 0.
Proof.
  intros Hstep. unfold range3.
  rewrite bool_decide_eq_false_2 by lia. rewrite bool_decide_eq_true_2 by done.
  intros [= <-]. rewrite list_elem_of_fmap. split.
  - intros (i & -> & Hi). apply elem_of_seq in Hi as [_ Hi]. simpl in Hi.
    assert (Z.of_nat i + 1 ≤ (stop - start + step - 1) / step) as Hle by lia.
    pose proof (Z.mul_div_le (stop - start + step - 1) step Hstep) as Hdiv.
    split; [nia|].
    replace (start + Z.of_nat i * step - start) with (Z.of_nat i * step) by lia.
    apply Z_mod_mult.
  - intros [[Hlo Hhi] Hmod].
    apply Z.mod_divide in Hmod as [q Hq]; [|lia].
    assert (0 ≤ q) as Hq0 by nia.
    exists (Z.to_nat q). split; [lia|]. apply elem_of_seq. split; [lia|]. simpl.
    assert (q + 1 ≤ (stop - start + step - 1) / step) as Hle
      by (apply Z.div_le_lower_bound; [done | nia]).
    lia.
Qed.

Lemma range3_not_positive start stop step hours :
  step < 0 → start ≤ stop → range3 start stop step = Ok hours → hours = [].
Proof.
  intros Hstep Hle. unfold range3.
  rewrite !bool_decide_eq_false_2 by lia. intros [= <-].
  assert ((start - stop - step - 1) / - step ≤ 0) as Hn.
  { assert ((start - stop - step - 1) / - step < 1); [|lia].
    apply Z.div_lt_upper_bound; lia. }
  by replace (Z.to_nat _) with 0%nat by lia.
Qed.
End start_facts.

(** X21. [start] on an orchestrator that is not running registers the
    daily cycle for 08:00.  With a scan interval of one hour or more it
    also registers a trend scan for the full hours from 8 to 19 that are
    a multiple of the interval after 8, runs a first cycle and is
    running; with an interval of 0 the [range] raises: no scan is
    registered, no cycle is run, [running] is reset while the daily job
    stays registered; with a negative interval no scan is registered. *)
Theorem start_registers_jobs self env s w :
  running s = false →
  (1 ≤ trend_scan_interval self →
     running (start self env s w).1 = true
     ∧ scheduler_thread (start self env s w).1 = true
     ∧ calls (start self env s w).2 = calls (run_daily_cycle self env w).2
     ∧ ∃ scans, jobs (start self env s w).1 = jobs s ++ (8, 0, RunDailyCycle) :: scans
         ∧ ∀ h m j, (h, m, j) ∈ scans
                    ↔ j = ScanTrendsJob ∧ m = 0 ∧ 8 ≤ h < 20
                      ∧ (h - 8) mod trend_scan_interval self = 0)
  ∧ (trend_scan_interval self = 0 →
     running (start self env s w).1 = false
     ∧ jobs (start self env s w).1 = jobs s ++ [(8, 0, RunDailyCycle)]
     ∧ calls (start self env s w).2 = calls w
     ∧ same_data w (start self env s w).2)
  ∧ (trend_scan_interval self < 0 →
     running (start self env s w).1 = true
     ∧ jobs (start self env s w).1 = jobs s ++ [(8, 0, RunDailyCycle)]).
Proof.
  intros Hidle. unfold start. rewrite Hidle.
  pose proof (run_daily_cycle_returns self env w) as Hcycle.
  destruct (run_daily_cycle self env w) as [r w'] eqn:Hrun. simpl in Hcycle. subst r.
  split_and!.
  - intros Hstep.
    destruct (range3 8 20 (trend_scan_interval self)) as [hours|e] eqn:Hrange.
    2:{ unfold range3 in Hrange. by rewrite bool_decide_eq_false_2 in Hrange by lia. }
    simpl. split_and!; [done..|].
    exists ((λ hour, (hour, 0, ScanTrendsJob)) <$> hours). split.
    + by rewrite <- app_assoc.
    + intros h m j. rewrite list_elem_of_fmap. split.
      * intros (h' & [= -> -> ->] & Hh).
        apply (elem_of_range3 8 20 (trend_scan_interval self) hours) in Hh;
          [|lia|done].
        tauto.
      * intros (-> & -> & Hh). exists h. split; [done|].
        apply (elem_of_range3 8 20 (trend_scan_interval self) hours);
          [lia | done | done].
  - intros Hzero. unfold range3. rewrite bool_decide_eq_true_2 by done. simpl.
    split_and!; try done.
  - intros Hneg.
    destruct (range3 8 20 (trend_scan_interval self)) as [hours|e] eqn:Hrange.
    2:{ unfold range3 in Hrange. by rewrite bool_decide_eq_false_2 in Hrange by lia. }
    apply range3_not_positive in Hrange as ->; [|done|lia].
    simpl. split; [done|]. by rewrite app_nil_r.
Qed.

Lemma start_registers_jobs_witness :
  let s := {| running := false; jobs := []; scheduler_thread := false |} in
  let r := start sample_orchestrator (sample_env monday_8 []) s
             (sample_world pool_two_platforms) in
  running s = false
  ∧ 1 ≤ trend_scan_interval sample_orchestrator
  ∧ running r.1 = true
  ∧ scheduler_thread r.1 = true
  ∧ calls r.2 = calls (run_daily_cycle sample_orchestrator (sample_env monday_8 [])
                         (sample_world pool_two_platforms)).2
  ∧ ∃ scans, jobs r.1 = jobs s ++ (8, 0, RunDailyCycle) :: scans
      ∧ ∀ h m j, (h, m, j) ∈ scans
                 ↔ j = ScanTrendsJob ∧ m = 0 ∧ 8 ≤ h < 20
                   ∧ (h - 8) mod trend_scan_interval sample_orchestrator = 0.
Proof.
  intros s r. split; [reflexivity|]. split; [by vm_compute|].
  apply (start_registers_jobs sample_orchestrator (sample_env monday_8 []) s
           (sample_world pool_two_platforms) eq_refl). by vm_compute.
Defined.

(** ** The posts of a scheduling step that meets no failure *)

Section planned.
Variables (self : Orchestrator) (env : Env).
Hypothesis no_review : human_review self = false.
Hypothesis agent_answers : ∀ platform content t pid,
  ∃ status, scheduler_schedule_post env platform content t pid = Ok status.
Implicit Types (pool : gmap string (list ContentItem)) (w : World).

Lemma schedule_item_exact platform unused times (k : nat) pool w entry t :
  unused !! k = Some entry → times !! k = Some t →
  ∃ pool' w', schedule_item self env platform unused times (Z.of_nat k) pool w
              = (Ok pool', w')
    ∧ calls w' = calls w ++ [SchedulePost platform (id entry.2) t]
    ∧ ∀ q, q ≠ platform → pool' !! q = pool !! q.
Proof.
  intros Hentry Ht.
  unfold schedule_item, list_getitem. rewrite Nat2Z.id, Hentry, Ht, no_review.
  unfold bind, lift, ret, logger, record_call. simpl.
  destruct (agent_answers platform entry.2 t (id entry.2)) as [status ->]. simpl.
  case_bool_decide; simpl; eexists _, _; split_and!; try done.
  intros q Hq. by rewrite lookup_alter_ne.
Qed.

Lemma schedule_items_exact platform unused times (ks : list nat) pool w :
  (∀ k, k ∈ ks → is_Some (unused !! k) ∧ is_Some (times !! k)) →
  ∃ pool' w' cs,
    schedule_items self env platform unused times (Z.of_nat <$> ks) pool w = (Ok pool', w')
    ∧ calls w' = calls w ++ cs
    ∧ Forall2 (λ k c, ∃ entry t, unused !! k = Some entry ∧ times !! k = Some t
                                 ∧ c = SchedulePost platform (id entry.2) t) ks cs
    ∧ ∀ q, q ≠ platform → pool' !! q = pool !! q.
Proof.
  revert pool w. induction ks as [|k ks IH]; intros pool w Hks.
  - exists pool, w, []. split_and!; [done | by rewrite app_nil_r | constructor | done].
  - destruct (Hks k) as [[entry Hentry] [t Ht]]; [apply list_elem_of_here|].
    destruct (schedule_item_exact platform unused times k pool w entry t Hentry Ht)
      as (pool1 & w1 & H1 & Hc1 & Hq1).
    destruct (IH pool1 w1) as (pool2 & w2 & cs & H2 & Hc2 & Hcs & Hq2).
    { intros k' Hk'. by apply Hks, list_elem_of_further. }
    exists pool2, w2, (SchedulePost platform (id entry.2) t :: cs).
    split_and!.
    + rewrite fmap_cons. simpl. unfold bind. by rewrite H1, H2.
    + rewrite Hc2, Hc1. by rewrite <- app_assoc.
    + constructor; [by exists entry, t | done].
    + intros q Hq. by rewrite Hq2, Hq1.
Qed.

(** the calls for the positions below [n], for [n] posting times *)
Lemma planned_calls {A B C} (f : A → B → C) (l : list A) (k : list B) (cs : list C) :
  (length k ≤ length l)%nat →
  Forall2 (λ i c, ∃ x y, l !! i = Some x ∧ k !! i = Some y ∧ c = f x y)
    (seq 0 (length k)) cs →
  cs = zip_with f l k.
Proof.
  intros Hlen Hcs. apply list_eq. intros i.
  rewrite lookup_zip_with.
  destruct (decide (i < length k)%nat) as [Hi|Hi].
  - destruct (Forall2_lookup_l _ _ _ i i Hcs) as (c & Hc & x & y & Hx & Hy & ->).
    { by apply lookup_seq_lt. }
    rewrite Hc, Hx. simpl. by rewrite Hy.
  - rewrite (lookup_ge_None_2 cs).
    2:{ apply Forall2_length in Hcs. rewrite length_seq in Hcs. lia. }
    rewrite (lookup_ge_None_2 k) by lia. by destruct (l !! i).
Qed.

Lemma schedule_platform_exact platform pool w :
  is_Some (pool !! platform) →
  ∃ pool' w', schedule_platform self env platform pool w = (Ok pool', w')
    ∧ calls w' = calls w ++ planned_posts self env pool platform
    ∧ ∀ q, q ≠ platform → pool' !! q = pool !! q.
Proof.
  intros [items Hitems]. unfold schedule_platform, planned_posts.
  unfold bind at 1. unfold lift at 1. unfold getitem. rewrite Hitems. cbv zeta.
  remember (unused_content items) as unused eqn:Hun.
  remember (Z.min (Z.of_nat (length unused))
              (default 1 (max_posts_per_day self !! platform))) as n eqn:Hn.
  destruct (bulk_loop_spaced (clock env) (PostScheduler_init (orchestrator_time_zone self))
              platform 3 (Z.to_nat n) [] (clock env + mk_timedelta 0 0 15))
    as (times & Htimes & Hlen & _).
  { apply default_scheduler_wf. }
  { lia. }
  { intros i a b Ha. by rewrite lookup_nil in Ha. }
  { intros prev [=]. }
  simpl in Hlen.
  assert (get_bulk_schedule (clock env) (PostScheduler_init (orchestrator_time_zone self))
            platform n (Some (clock env + mk_timedelta 0 0 15)) 3 = Ok times) as Hbulk
    by exact Htimes.
  rewrite Hbulk.
  assert (length times ≤ length unused)%nat as Hle by lia.
  clear Hn Hun.
  destruct unused as [|e rest].
  { assert (times = []) as -> by (apply length_zero_iff_nil; simpl in *; lia).
    unfold bind, logger, ret. simpl. eexists _, _.
    split_and!; [done | by rewrite app_nil_r | done]. }
  unfold bind at 1. unfold lift at 1. unfold range.
  destruct (schedule_items_exact platform (e :: rest) times (seq 0 (Z.to_nat n)) pool w)
    as (pool' & w' & cs & Hrun & Hcalls & Hcs & Hq).
  { intros k Hk%elem_of_seq. split; apply lookup_lt_is_Some; lia. }
  exists pool', w'. split_and!; [done | | done].
  rewrite Hcalls. f_equal. rewrite <- Hlen in Hcs.
  by apply planned_calls.
Qed.

Lemma schedule_all_exact pool0 todo pool w :
  NoDup todo → (∀ p, p ∈ todo → is_Some (pool0 !! p) ∧ pool !! p = pool0 !! p) →
  ∃ pool' w', schedule_all self env todo pool w = (Ok pool', w')
    ∧ calls w' = calls w ++ concat (planned_posts self env pool0 <$> todo).
Proof.
  revert pool w. induction todo as [|platform rest IH]; intros pool w Hnd Hpool.
  - exists pool, w. split; [done | by rewrite app_nil_r].
  - apply NoDup_cons in Hnd as [Hfresh Hnd].
    destruct (Hpool platform) as [Hkey Hsame]; [apply list_elem_of_here|].
    destruct (schedule_platform_exact platform pool w) as (pool1 & w1 & H1 & Hc1 & Hq1).
    { by rewrite Hsame. }
    destruct (IH pool1 w1 Hnd) as (pool2 & w2 & H2 & Hc2).
    { intros p Hp. destruct (Hpool p) as [Hk Hs]; [by apply list_elem_of_further|].
      split; [done|]. rewrite Hq1; [done|]. by intros ->. }
    exists pool2, w2. split.
    + simpl. unfold bind. by rewrite H1, H2.
    + rewrite Hc2, Hc1, fmap_cons. simpl. rewrite <- app_assoc. do 2 f_equal.
      unfold planned_posts. by rewrite Hsame.
Qed.
End planned.

(** X22. Without human review, with a scheduler agent that answers every
    call, platforms named once each that are all keys of the pool on
    file, and unused content for one of them at least, [schedule_posts]
    returns [True] and calls the scheduler agent exactly for the planned
    posts: platform by platform in the order of [platforms], for the
    first unused entries of the platform in the order of the pool, as
    many as [max_posts_per_day] allows, at the times of the bulk
    schedule. *)
Theorem schedule_posts_submits_planned_posts self env w pool :
  human_review self = false →
  (∀ platform content t pid,
     ∃ status, scheduler_schedule_post env platform content t pid = Ok status) →
  content_pool_file w = Some pool →
  NoDup (platforms self) →
  (∀ p, p ∈ platforms self → is_Some (pool !! p)) →
  has_content pool (platforms self) = Ok true →
  (schedule_posts self env w).1 = Ok true
  ∧ calls (schedule_posts self env w).2
    = calls w ++ concat (planned_posts self env pool <$> platforms self).
Proof.
  intros Hreview Hagent Hfile Hnd Hkeys Hhas.
  remember (schedule_posts self env w) as res eqn:Hres.
  unfold schedule_posts, try_except in Hres.
  unfold bind at 1 in Hres. simpl in Hres.
  match type of Hres with context [bind (_load_content_pool self) ?k ?w0] =>
    destruct (load_content_pool_runs self w0) as (pool1 & w1 & Hl & _ & _ & Hsame);
    destruct (Hsame pool Hfile) as [-> ->]; unfold bind at 1 in Hres; rewrite Hl in Hres
  end.
  unfold bind at 1 in Hres. unfold lift at 1 in Hres. rewrite Hhas in Hres.
  simpl in Hres. unfold bind at 1 in Hres. simpl in Hres. unfold bind at 1 in Hres.
  match type of Hres with context [schedule_all self env _ pool ?w0] =>
    destruct (schedule_all_exact self env Hreview Hagent pool (platforms self) pool w0 Hnd)
      as (pool' & w2 & Hrun & Hcalls)
  end.
  { intros p Hp. split; [by apply Hkeys | done]. }
  rewrite Hrun in Hres. simpl in Hres. subst res. simpl. split; [done|].
  by rewrite Hcalls.
Qed.

Lemma schedule_posts_submits_planned_posts_witness :
  human_review sample_orchestrator = false
  ∧ (∀ platform content t pid,
       ∃ status, scheduler_schedule_post (sample_env monday_8 []) platform content t pid
                 = Ok status)
  ∧ content_pool_file (sample_world pool_two_platforms) = Some pool_two_platforms
  ∧ NoDup (platforms sample_orchestrator)
  ∧ (∀ p, p ∈ platforms sample_orchestrator → is_Some (pool_two_platforms !! p))
  ∧ has_content pool_two_platforms (platforms sample_orchestrator) = Ok true
  ∧ (schedule_posts sample_orchestrator (sample_env monday_8 [])
       (sample_world pool_two_platforms)).1 = Ok true
  ∧ calls (schedule_posts sample_orchestrator (sample_env monday_8 [])
             (sample_world pool_two_platforms)).2
    = calls (sample_world pool_two_platforms)
      ++ concat (planned_posts sample_orchestrator (sample_env monday_8 [])
                   pool_two_platforms <$> platforms sample_orchestrator).
Proof.
  assert (∀ platform content t pid,
            ∃ status, scheduler_schedule_post (sample_env monday_8 []) platform content t pid
                      = Ok status) as Hagent
    by (intros platform content t pid; by eexists).
  assert (NoDup (platforms sample_orchestrator)) as Hnd
    by (apply (bool_decide_unpack _); by vm_compute).
  assert (∀ p, p ∈ platforms sample_orchestrator → is_Some (pool_two_platforms !! p))
    as Hkeys.
  { intros p Hp. simpl in Hp. rewrite !elem_of_cons in Hp.
    destruct Hp as [-> | [-> | Hp]]; [by eexists | by eexists |].
    by apply elem_of_nil in Hp. }
  split; [reflexivity|]. split; [exact Hagent|]. split; [reflexivity|].
  split; [exact Hnd|]. split; [exact Hkeys|]. split; [reflexivity|].
  apply (schedule_posts_submits_planned_posts sample_orchestrator (sample_env monday_8 [])
           (sample_world pool_two_platforms) pool_two_platforms
           eq_refl Hagent eq_refl Hnd Hkeys eq_refl).
Defined.
